(** * gm5byte: the sa015bcr key-derivation pipeline of [keylib.py]

    A shallow embedding of [keylib.py] (blob codec, hand-rolled AES-128,
    SHA-256 hash chain, derivation pipeline and registry lookup) together
    with the properties stated for it.

    Conventions.
    - A Python [bytes] value is a [list byte]; a Python [List[int]] (the AES
      state, key-schedule words, round keys) is a [list Z].
    - A Python [str] is a [string] of 8-bit characters, turned into its list
      of characters before slicing; a blob with a character outside ASCII is
      refused by [b64decode] in the source and by the alphabet check here.
    - Every [raise ValueError(...)] site of the source is one constructor of
      [error]; a function that can raise returns a [result].
    - [hashlib.sha256] and [base64.b64decode] are library calls of the
      source; they are modelled by executable definitions ([Sha256.sha256]
      after FIPS 180-4, [Base64.b64decode] after CPython's [base64] and
      [binascii] modules) and checked on the test vectors and on the
      repository's own blob table. *)

From Stdlib Require Import ZArith List Lia Bool Ascii String.
From Stdlib Require Import Strings.Byte.
From stdpp Require Import base list gmap strings.
From coqutil Require Import Z.bitblast.

Local Open Scope Z_scope.

(** ** Bytes and integers *)

Abbreviation bytes := (list byte).

Definition Z_of_byte (b : byte) : Z := Z.of_N (Byte.to_N b).

(** [bytes([v])]: defined for [0 <= v < 256] only. *)
Definition byte_of_Z_checked (v : Z) : option byte :=
  if (0 <=? v) && (v <? 256) then Byte.of_N (Z.to_N v) else None.

(** The low eight bits of [v] as a byte. *)
Definition byte_of_Z (v : Z) : byte :=
  match Byte.of_N (Z.to_N (Z.land v 255)) with
  | Some b => b
  | None => x00
  end.

(** [bytes(l)] for a list of ints: fails when an entry is outside
    [range(256)]. *)
Fixpoint bytes_of_ints (l : list Z) : option bytes :=
  match l with
  | [] => Some []
  | v :: l' =>
      match byte_of_Z_checked v, bytes_of_ints l' with
      | Some b, Some bs => Some (b :: bs)
      | _, _ => None
      end
  end.

Definition ints_of_bytes (bs : bytes) : list Z := map Z_of_byte bs.

(** [l[i]] on a list of ints whose index is in range. *)
Definition zth (l : list Z) (i : nat) : Z := nth i l 0.

(** [l[lo:hi]] for [0 <= lo <= hi]. *)
Definition slice {A} (lo hi : nat) (l : list A) : list A :=
  take (hi - lo) (drop lo l).

(** [int.from_bytes(bs, "big")]. *)
Definition int_from_bytes_big (bs : bytes) : Z :=
  fold_left (fun acc b => acc * 256 + Z_of_byte b) bs 0.

#[global] Instance byte_eq_dec : EqDecision byte := Byte.byte_eq_dec.

(** ** Errors *)

(** One constructor per [raise] site of [keylib.py] (and one for the
    implicit range check of [bytearray] item assignment). *)
Inductive error : Type :=
| BlobTooShort        (* "Password blob too short; expect prefix plus 60 chars" *)
| UnsupportedPrefix   (* "Unsupported password prefix (expected '01' or '03')" *)
| PayloadLength       (* "Password payload must be exactly 60 Base64 characters" *)
| Base64Invalid       (* binascii.Error raised by b64decode(validate=True) *)
| DecodedLength       (* "Decoded payload must be 44 bytes" *)
| AuthenticityError   (* "Digest mismatch - blob is not authentic" *)
| AlgorithmMismatch   (* "Algorithm mismatch: blob expects ..., got ..." *)
| InvalidSeedLength   (* "Seed must be exactly 5 bytes" *)
| SeedRejected        (* "Seed is not allowed by the blob's min_seed constraint" *)
| UnknownAlgorithm    (* "No password blob registered for algorithm ..." *)
| InvalidKeyLength    (* "AES-128 key must be 16 bytes long" *)
| InvalidBlockLength  (* "AES block must be 16 bytes" *)
| ByteRange.          (* "byte must be in range(0, 256)" *)

Inductive result (A : Type) : Type :=
| Ok (a : A)
| Err (e : error).
Arguments Ok {A} a.
Arguments Err {A} e.

Definition bind {A B} (r : result A) (k : A -> result B) : result B :=
  match r with
  | Ok a => k a
  | Err e => Err e
  end.

Notation "x <- r ;;; k" := (bind r (fun x => k))
  (at level 100, r at next level, right associativity).

#[global] Instance error_eq_dec : EqDecision error.
Proof. solve_decision. Defined.

(** ** SHA-256 ([hashlib.sha256], FIPS 180-4) *)

Module Sha256.

Definition w32 (x : Z) : Z := Z.land x 0xFFFFFFFF.
Definition add32 (a b : Z) : Z := w32 (a + b).
Definition rotr (x n : Z) : Z :=
  Z.lor (Z.shiftr x n) (w32 (Z.shiftl x (32 - n))).

Definition Ch (x y z : Z) : Z :=
  Z.lxor (Z.land x y) (Z.land (Z.lnot x) z).
Definition Maj (x y z : Z) : Z :=
  Z.lxor (Z.lxor (Z.land x y) (Z.land x z)) (Z.land y z).
Definition bsig0 (x : Z) : Z :=
  Z.lxor (Z.lxor (rotr x 2) (rotr x 13)) (rotr x 22).
Definition bsig1 (x : Z) : Z :=
  Z.lxor (Z.lxor (rotr x 6) (rotr x 11)) (rotr x 25).
Definition ssig0 (x : Z) : Z :=
  Z.lxor (Z.lxor (rotr x 7) (rotr x 18)) (Z.shiftr x 3).
Definition ssig1 (x : Z) : Z :=
  Z.lxor (Z.lxor (rotr x 17) (rotr x 19)) (Z.shiftr x 10).

(** The round constants and the initial hash value are, as FIPS 180-4
    defines them, the first 32 bits of the fractional parts of the cube
    roots of the first 64 primes and of the square roots of the first 8. *)
Definition primes : list Z :=
  [   2;   3;   5;   7;  11;  13;  17;  19;  23;  29;  31;  37;  41;  43;
     47;  53;  59;  61;  67;  71;  73;  79;  83;  89;  97; 101; 103; 107;
    109; 113; 127; 131; 137; 139; 149; 151; 157; 163; 167; 173; 179; 181;
    191; 193; 197; 199; 211; 223; 227; 229; 233; 239; 241; 251; 257; 263;
    269; 271; 277; 281; 283; 293; 307; 311 ].

(** The integer cube root of [0 <= n < 2 ^ 108], bit by bit. *)
Definition icbrt (n : Z) : Z :=
  fold_left
    (fun r k => let c := r + 2 ^ Z.of_nat k in
                if c * c * c <=? n then c else r)
    (rev (seq 0 36)) 0.

Definition frac_cbrt (p : Z) : Z := w32 (icbrt (p * 2 ^ 96)).
Definition frac_sqrt (p : Z) : Z := w32 (Z.sqrt (p * 2 ^ 64)).

Definition K : list Z := Eval vm_compute in map frac_cbrt primes.

(** The hash state: eight 32-bit working variables. *)
Record hstate : Type := HState {
  ha : Z; hb : Z; hc : Z; hd : Z; he : Z; hf : Z; hg : Z; hh : Z
}.

Definition H0 : hstate :=
  Eval vm_compute in
    HState (frac_sqrt 2) (frac_sqrt 3) (frac_sqrt 5) (frac_sqrt 7)
           (frac_sqrt 11) (frac_sqrt 13) (frac_sqrt 17) (frac_sqrt 19).

(** Message padding: a [0x80] byte, zeros up to 56 modulo 64, then the
    bit length as eight big-endian bytes. *)
Definition be_bytes (n : nat) (v : Z) : list Z :=
  map (fun i => Z.land (Z.shiftr v (8 * Z.of_nat (n - 1 - i))) 255) (seq 0 n).

Definition pad (m : list Z) : list Z :=
  let len := length m in
  let zeros := Z.to_nat ((55 - Z.of_nat len) mod 64) in
  m ++ [0x80] ++ replicate zeros 0 ++ be_bytes 8 (8 * Z.of_nat len).

Definition be32 (bs : list Z) : Z :=
  fold_left (fun acc b => acc * 256 + b) bs 0.

(** The sixteen big-endian words of a 64-byte block. *)
Definition block_words (blk : list Z) : list Z :=
  map (fun i => be32 (slice (4 * i) (4 * i + 4) blk)) (seq 0 16).

(** The message schedule [W_0 .. W_63]. *)
Definition schedule (blk : list Z) : list Z :=
  fold_left
    (fun W t =>
       W ++ [add32 (add32 (ssig1 (zth W (t - 2))) (zth W (t - 7)))
                   (add32 (ssig0 (zth W (t - 15))) (zth W (t - 16)))])
    (seq 16 48) (block_words blk).

Definition round (W : list Z) (s : hstate) (t : nat) : hstate :=
  let T1 := add32 (add32 (add32 (hh s) (bsig1 (he s)))
                         (add32 (Ch (he s) (hf s) (hg s)) (zth K t)))
                  (zth W t) in
  let T2 := add32 (bsig0 (ha s)) (Maj (ha s) (hb s) (hc s)) in
  HState (add32 T1 T2) (ha s) (hb s) (hc s)
         (add32 (hd s) T1) (he s) (hf s) (hg s).

Definition compress (s : hstate) (blk : list Z) : hstate :=
  let W := schedule blk in
  let r := fold_left (round W) (seq 0 64) s in
  HState (add32 (ha s) (ha r)) (add32 (hb s) (hb r))
         (add32 (hc s) (hc r)) (add32 (hd s) (hd r))
         (add32 (he s) (he r)) (add32 (hf s) (hf r))
         (add32 (hg s) (hg r)) (add32 (hh s) (hh r)).

Definition digest_of (s : hstate) : bytes :=
  map byte_of_Z
    (be_bytes 4 (ha s) ++ be_bytes 4 (hb s) ++ be_bytes 4 (hc s) ++
     be_bytes 4 (hd s) ++ be_bytes 4 (he s) ++ be_bytes 4 (hf s) ++
     be_bytes 4 (hg s) ++ be_bytes 4 (hh s)).

(** [hashlib.sha256(m).digest()]. *)
Definition sha256 (m : bytes) : bytes :=
  let p := pad (ints_of_bytes m) in
  let nblocks := (length p / 64)%nat in
  digest_of
    (fold_left (fun s i => compress s (slice (64 * i) (64 * i + 64) p))
               (seq 0 nblocks) H0).

End Sha256.

Definition hex_digit (v : Z) : ascii :=
  nth (Z.to_nat v) (list_ascii_of_string "0123456789abcdef") "?"%char.

(** [bs.hex()]. *)
Definition hex (bs : bytes) : string :=
  string_of_list_ascii
    (flat_map (fun b => [hex_digit (Z_of_byte b / 16);
                         hex_digit (Z_of_byte b mod 16)]) bs).

(** [s.encode("ascii")] for a string of 8-bit characters. *)
Definition bytes_of_string (s : string) : bytes :=
  map byte_of_ascii (list_ascii_of_string s).

Example sha256_constants :
  zth Sha256.K 0 = 0x428a2f98 /\ zth Sha256.K 63 = 0xc67178f2 /\
  Sha256.ha Sha256.H0 = 0x6a09e667 /\ Sha256.hh Sha256.H0 = 0x5be0cd19.
Proof. vm_compute. repeat split. Qed.

Example sha256_abc :
  hex (Sha256.sha256 (bytes_of_string "abc")) =
  "ba7816bf8f01cfea414140de5dae2223b00361a396177a9cb410ff61f20015ad"%string.
Proof. vm_compute. reflexivity. Qed.

Example sha256_empty :
  hex (Sha256.sha256 []) =
  "e3b0c44298fc1c149afbf4c8996fb92427ae41e4649b934ca495991b7852b855"%string.
Proof. vm_compute. reflexivity. Qed.

Example sha256_two_blocks :
  hex (Sha256.sha256 (bytes_of_string
    "abcdbcdecdefdefgefghfghighijhijkijkljklmklmnlmnomnopnopq")) =
  "248d6a61d20638b8e5c026930c3e6039a33ce45964ff2167f6ecedd419db06c1"%string.
Proof. vm_compute. reflexivity. Qed.

(** ** Base64 ([base64.b64decode(payload, validate=True)]) *)

(** CPython's [b64decode] with [validate=True]: the input has to match
    [[A-Za-z0-9+/]*={0,2}] and is then decoded by [binascii.a2b_base64].
    Every failure is a [binascii.Error], a [ValueError].  This is the
    decoder of CPython up to 3.10; from 3.11 on the check is made by
    [a2b_base64] in strict mode.  On a payload of 60 characters the two
    agree whenever 44 bytes come out, and on whether the call fails or
    not except for alphabet characters in groups of four followed by
    four or more [=], which strict mode decodes to fewer than 44 bytes;
    the properties below are stated where the two agree. *)

Module Base64.

Definition alphabet : list ascii :=
  list_ascii_of_string
    "ABCDEFGHIJKLMNOPQRSTUVWXYZabcdefghijklmnopqrstuvwxyz0123456789+/".

Definition pad_char : ascii := "="%char.

Fixpoint index_of (c : ascii) (l : list ascii) (i : Z) : option Z :=
  match l with
  | [] => None
  | d :: l' => if Ascii.eqb c d then Some i else index_of c l' (i + 1)
  end.

(** [table_a2b_base64]: the 6-bit value of an alphabet character. *)
Definition b64_value (c : ascii) : option Z := index_of c alphabet 0.

Definition is_b64_char (c : ascii) : bool :=
  match b64_value c with Some _ => true | None => false end.

(** [re.fullmatch(b'[A-Za-z0-9+/]*={0,2}', s)]. *)
Fixpoint skip_data (cs : list ascii) : list ascii :=
  match cs with
  | c :: cs' => if is_b64_char c then skip_data cs' else cs
  | [] => []
  end.

Definition valid_shape (cs : list ascii) : bool :=
  match skip_data cs with
  | [] => true
  | [p] => Ascii.eqb p pad_char
  | [p; q] => Ascii.eqb p pad_char && Ascii.eqb q pad_char
  | _ => false
  end.

(** [binascii.a2b_base64]: the quad state machine.  [quad_pos] counts the
    characters of the current group of four, [leftchar] holds the bits not
    yet written, [pads] the padding characters seen in a row.  A padding
    character that completes a group ends the decoding; input that stops
    inside a group is an error. *)
Fixpoint a2b (cs : list ascii) (quad_pos : nat) (leftchar : Z) (pads : nat)
    (out : list Z) : option (list Z) :=
  match cs with
  | [] => if Nat.eqb quad_pos 0 then Some out else None
  | c :: cs' =>
      if Ascii.eqb c pad_char then
        if Nat.leb 2 quad_pos then
          if Nat.leb 4 (quad_pos + S pads) then Some out
          else a2b cs' quad_pos leftchar (S pads) out
        else a2b cs' quad_pos leftchar pads out
      else
        match b64_value c with
        | None => a2b cs' quad_pos leftchar pads out
        | Some v =>
            match quad_pos with
            | 0%nat => a2b cs' 1 v 0 out
            | 1%nat =>
                a2b cs' 2 (Z.land v 0x0f) 0
                    (out ++ [Z.lor (Z.shiftl leftchar 2) (Z.shiftr v 4)])
            | 2%nat =>
                a2b cs' 3 (Z.land v 0x03) 0
                    (out ++ [Z.lor (Z.shiftl leftchar 4) (Z.shiftr v 2)])
            | _ =>
                a2b cs' 0 0 0 (out ++ [Z.lor (Z.shiftl leftchar 6) v])
            end
        end
  end.

Definition b64decode (cs : list ascii) : option bytes :=
  if valid_shape cs then
    match a2b cs 0 0 0 [] with
    | Some out => Some (map byte_of_Z out)
    | None => None
    end
  else None.

(** [base64.b64encode]: the standard encoder, used to write a payload
    back into a blob. *)
Definition b64_char (v : Z) : ascii := nth (Z.to_nat v) alphabet pad_char.

Fixpoint encode_ints (bs : list Z) : list ascii :=
  match bs with
  | [] => []
  | [b0] =>
      [b64_char (Z.shiftr b0 2); b64_char (Z.shiftl (Z.land b0 3) 4);
       pad_char; pad_char]
  | [b0; b1] =>
      [b64_char (Z.shiftr b0 2);
       b64_char (Z.lor (Z.shiftl (Z.land b0 3) 4) (Z.shiftr b1 4));
       b64_char (Z.shiftl (Z.land b1 15) 2); pad_char]
  | b0 :: b1 :: b2 :: rest =>
      b64_char (Z.shiftr b0 2)
      :: b64_char (Z.lor (Z.shiftl (Z.land b0 3) 4) (Z.shiftr b1 4))
      :: b64_char (Z.lor (Z.shiftl (Z.land b1 15) 2) (Z.shiftr b2 6))
      :: b64_char (Z.land b2 63)
      :: encode_ints rest
  end.

Definition b64encode (bs : bytes) : list ascii :=
  encode_ints (ints_of_bytes bs).

End Base64.

Example b64decode_foobar :
  Base64.b64decode (list_ascii_of_string "Zm9vYmFy") =
  Some (bytes_of_string "foobar").
Proof. vm_compute. reflexivity. Qed.

Example b64decode_padded :
  Base64.b64decode (list_ascii_of_string "Zm9vYg==") =
  Some (bytes_of_string "foob").
Proof. vm_compute. reflexivity. Qed.

Example b64decode_rejects_newline :
  Base64.b64decode (list_ascii_of_string "Zm9v
YmFy") = None.
Proof. vm_compute. reflexivity. Qed.

Example b64decode_rejects_short_group :
  Base64.b64decode (list_ascii_of_string "Zm9vY") = None.
Proof. vm_compute. reflexivity. Qed.

Example b64encode_fooba :
  Base64.b64encode (bytes_of_string "fooba") =
  list_ascii_of_string "Zm9vYmE=".
Proof. vm_compute. reflexivity. Qed.

(** ** AES-128 *)

Definition SBOX : list Z :=
  [ 0x63; 0x7C; 0x77; 0x7B; 0xF2; 0x6B; 0x6F; 0xC5;
    0x30; 0x01; 0x67; 0x2B; 0xFE; 0xD7; 0xAB; 0x76;
    0xCA; 0x82; 0xC9; 0x7D; 0xFA; 0x59; 0x47; 0xF0;
    0xAD; 0xD4; 0xA2; 0xAF; 0x9C; 0xA4; 0x72; 0xC0;
    0xB7; 0xFD; 0x93; 0x26; 0x36; 0x3F; 0xF7; 0xCC;
    0x34; 0xA5; 0xE5; 0xF1; 0x71; 0xD8; 0x31; 0x15;
    0x04; 0xC7; 0x23; 0xC3; 0x18; 0x96; 0x05; 0x9A;
    0x07; 0x12; 0x80; 0xE2; 0xEB; 0x27; 0xB2; 0x75;
    0x09; 0x83; 0x2C; 0x1A; 0x1B; 0x6E; 0x5A; 0xA0;
    0x52; 0x3B; 0xD6; 0xB3; 0x29; 0xE3; 0x2F; 0x84;
    0x53; 0xD1; 0x00; 0xED; 0x20; 0xFC; 0xB1; 0x5B;
    0x6A; 0xCB; 0xBE; 0x39; 0x4A; 0x4C; 0x58; 0xCF;
    0xD0; 0xEF; 0xAA; 0xFB; 0x43; 0x4D; 0x33; 0x85;
    0x45; 0xF9; 0x02; 0x7F; 0x50; 0x3C; 0x9F; 0xA8;
    0x51; 0xA3; 0x40; 0x8F; 0x92; 0x9D; 0x38; 0xF5;
    0xBC; 0xB6; 0xDA; 0x21; 0x10; 0xFF; 0xF3; 0xD2;
    0xCD; 0x0C; 0x13; 0xEC; 0x5F; 0x97; 0x44; 0x17;
    0xC4; 0xA7; 0x7E; 0x3D; 0x64; 0x5D; 0x19; 0x73;
    0x60; 0x81; 0x4F; 0xDC; 0x22; 0x2A; 0x90; 0x88;
    0x46; 0xEE; 0xB8; 0x14; 0xDE; 0x5E; 0x0B; 0xDB;
    0xE0; 0x32; 0x3A; 0x0A; 0x49; 0x06; 0x24; 0x5C;
    0xC2; 0xD3; 0xAC; 0x62; 0x91; 0x95; 0xE4; 0x79;
    0xE7; 0xC8; 0x37; 0x6D; 0x8D; 0xD5; 0x4E; 0xA9;
    0x6C; 0x56; 0xF4; 0xEA; 0x65; 0x7A; 0xAE; 0x08;
    0xBA; 0x78; 0x25; 0x2E; 0x1C; 0xA6; 0xB4; 0xC6;
    0xE8; 0xDD; 0x74; 0x1F; 0x4B; 0xBD; 0x8B; 0x8A;
    0x70; 0x3E; 0xB5; 0x66; 0x48; 0x03; 0xF6; 0x0E;
    0x61; 0x35; 0x57; 0xB9; 0x86; 0xC1; 0x1D; 0x9E;
    0xE1; 0xF8; 0x98; 0x11; 0x69; 0xD9; 0x8E; 0x94;
    0x9B; 0x1E; 0x87; 0xE9; 0xCE; 0x55; 0x28; 0xDF;
    0x8C; 0xA1; 0x89; 0x0D; 0xBF; 0xE6; 0x42; 0x68;
    0x41; 0x99; 0x2D; 0x0F; 0xB0; 0x54; 0xBB; 0x16 ].

Definition RCON : list Z :=
  [ 0x00; 0x01; 0x02; 0x04; 0x08; 0x10;
    0x20; 0x40; 0x80; 0x1B; 0x36 ].

(** [SBOX[v]] for a byte value [v].  Outside 0..255 the source indexes
    from the end or raises [IndexError]; every property below that
    mentions [sbox] has its argument in 0..255. *)
Definition sbox (v : Z) : Z := zth SBOX (Z.to_nat v).

(** The AES state: four rows of four ints, [state[row][col]]. *)
Abbreviation state := (list (list Z)).

Definition get2 (s : state) (row col : nat) : Z := zth (nth row s []) col.

(** [state[row][col] = v] on a state that has this cell. *)
Definition set2 (s : state) (row col : nat) (v : Z) : state :=
  <[row := <[col := v]> (nth row s [])]> s.

(** [for row in range(4): for col in range(4): body]. *)
Definition for_cells {S} (body : S -> nat -> nat -> S) (s : S) : S :=
  fold_left (fun s row => fold_left (fun s col => body s row col) (seq 0 4) s)
            (seq 0 4) s.

Definition bytes_to_state (block : list Z) : state :=
  map (fun row => map (fun col => zth block (row + 4 * col)) (seq 0 4))
      (seq 0 4).

Definition state_to_bytes (s : state) : result bytes :=
  let out :=
    for_cells (fun out row col => <[(row + 4 * col)%nat := get2 s row col]> out)
              (replicate 16 0) in
  match bytes_of_ints out with
  | Some bs => Ok bs
  | None => Err ByteRange
  end.

Definition sub_bytes (s : state) : state :=
  for_cells (fun s row col => set2 s row col (sbox (get2 s row col))) s.

Definition shift_rows (s : state) : state :=
  fold_left
    (fun s row => <[row := drop row (nth row s []) ++ take row (nth row s [])]> s)
    (seq 1 3) s.

Definition xtime (value : Z) : Z :=
  let value := Z.shiftl value 1 in
  let value :=
    if Z.eqb (Z.land value 0x100) 0 then value else Z.lxor value 0x11B in
  Z.land value 0xFF.

Definition gf_mul (a b : Z) : Z :=
  let '(result, _, _) :=
    fold_left
      (fun '(result, a, b) _ =>
         let result :=
           if Z.eqb (Z.land b 1) 0 then result else Z.lxor result a in
         (result, xtime a, Z.shiftr b 1))
      (seq 0 8) (0, a, b) in
  result.

(** [a0, a1, a2, a3 = col] unpacks a column of exactly four entries;
    [mix_columns] only ever builds such columns. *)
Definition mix_single_column (col : list Z) : list Z :=
  match col with
  | [a0; a1; a2; a3] =>
      [ Z.lxor (Z.lxor (Z.lxor (gf_mul a0 2) (gf_mul a1 3)) a2) a3;
        Z.lxor (Z.lxor (Z.lxor a0 (gf_mul a1 2)) (gf_mul a2 3)) a3;
        Z.lxor (Z.lxor (Z.lxor a0 a1) (gf_mul a2 2)) (gf_mul a3 3);
        Z.lxor (Z.lxor (Z.lxor (gf_mul a0 3) a1) a2) (gf_mul a3 2) ]
  | _ => col
  end.

Definition mix_columns (s : state) : state :=
  fold_left
    (fun s col =>
       let column := map (fun row => get2 s row col) (seq 0 4) in
       let column := mix_single_column column in
       fold_left (fun s row => set2 s row col (zth column row)) (seq 0 4) s)
    (seq 0 4) s.

(** [round_key[row + 4 * col]] is read with [zth]; the round keys of
    [expand_key] have 16 entries, so that no index is out of range. *)
Definition add_round_key (s : state) (round_key : list Z) : state :=
  fold_left
    (fun s col =>
       fold_left
         (fun s row =>
            set2 s row col
                 (Z.lxor (get2 s row col) (zth round_key (row + 4 * col))))
         (seq 0 4) s)
    (seq 0 4) s.

Definition rot_word (word : list Z) : list Z := drop 1 word ++ take 1 word.

Definition sub_word (word : list Z) : list Z := map sbox word.

Definition expand_key (key : bytes) : result (list (list Z)) :=
  if negb (Nat.eqb (length key) 16) then Err InvalidKeyLength
  else
    let words :=
      map (fun i => ints_of_bytes (slice (4 * i) (4 * i + 4) key)) (seq 0 4) in
    let words :=
      fold_left
        (fun words i =>
           let temp := nth (i - 1) words [] in
           let temp :=
             if Nat.eqb (i mod 4) 0 then
               let temp := sub_word (rot_word temp) in
               <[0%nat := Z.lxor (zth temp 0) (zth RCON (i / 4))]> temp
             else temp in
           let new_word :=
             map (fun j =>
                    Z.land (Z.lxor (zth (nth (i - 4) words []) j) (zth temp j))
                           0xFF)
                 (seq 0 4) in
           words ++ [new_word])
        (seq 4 40) words in
    Ok (map (fun k =>
               concat (map (fun j => nth (4 * k + j) words []) (seq 0 4)))
            (seq 0 11)).

Definition aes_round (round_keys : list (list Z)) (s : state) (rnd : nat)
    : state :=
  let s := sub_bytes s in
  let s := shift_rows s in
  let s := mix_columns s in
  add_round_key s (nth rnd round_keys []).

Definition aes_encrypt_block (key block : bytes) : result bytes :=
  if negb (Nat.eqb (length block) 16) then Err InvalidBlockLength
  else
    round_keys <- expand_key key;;;
    let s := bytes_to_state (ints_of_bytes block) in
    let s := add_round_key s (nth 0 round_keys []) in
    let s := fold_left (aes_round round_keys) (seq 1 9) s in
    let s := sub_bytes s in
    let s := shift_rows s in
    let s := add_round_key s (nth 10 round_keys []) in
    state_to_bytes s.

(** [bytes.fromhex(s)] for an even number of lower-case hex digits. *)
Definition hex_value (c : ascii) : Z :=
  match Base64.index_of c (list_ascii_of_string "0123456789abcdef") 0 with
  | Some v => v
  | None => 0
  end.

Fixpoint fromhex_chars (cs : list ascii) : bytes :=
  match cs with
  | hi :: lo :: cs' =>
      byte_of_Z (16 * hex_value hi + hex_value lo) :: fromhex_chars cs'
  | _ => []
  end.

Definition fromhex (s : string) : bytes :=
  fromhex_chars (list_ascii_of_string s).

Example aes_fips197_appendix_b :
  aes_encrypt_block (fromhex "2b7e151628aed2a6abf7158809cf4f3c")
                    (fromhex "3243f6a8885a308d313198a2e0370734")
  = Ok (fromhex "3925841d02dc09fbdc118597196a0b32").
Proof. vm_compute. reflexivity. Qed.

(** ** The blob table *)

Definition PASSWORD_TABLE : list (Z * string) :=
  [ (0x00, "01EgjpxczBk2pRSn6r/UfgIDriRFHxEtkT7dlcdQOpq2sA9QAAfP9QboFog6A="%string)
  ; (0x01, "0117qfOWmaS+aLoZhpXHhTMFDyTkw81sTKBPWQ1yjCF8EA9QABrH544gNgWsk="%string)
  ; (0x02, "01Qf3tZSjgbwVBQKHDLz9ULsn9nw750uoM0b9SMzV3LwAA9QACjCnULKmiTps="%string)
  ; (0x03, "01E9oqp4yP5VihNGPcQetsG1NKEs9nv/iTskE8KbIY72MA9QADsFYwilY9l4w="%string)
  ; (0x04, "01OPGDOr5wfow50t1CU7I3JicRmz2vvvaLEgT6Ebswc/sA9QAEo0HoWPLJ09M="%string)
  ; (0x05, "01prOb95CCkDacmrShpq/VIckn+Q/Fwj0G6R9thQa9htUA9QAFMw33N2G8CU0="%string)
  ; (0x06, "01qDmfPBEQuLaIVPR5ZfMa2rO95nrIxHxAPqvEQcgUhLQA9QAGcMUlBRPXGN8="%string)
  ; (0x07, "01KYKG18R3D11hGjiwKyQDvYx5ficqkWEG6jK64tN66lQA9QAHKMlYGNIrD10="%string)
  ; (0x08, "019v8cUcVxkxyKbRrGWtiAsT6pBvBLU8N2wU7cow6ArHQA9QAICShM+47PPPw="%string)
  ; (0x09, "01QNMDCn/jgSWzItILtWJfcvtUTJwQfF2wkb7017CdG9wA9QAJD1I90eUmcCk="%string)
  ; (0x0A, "01iJiF+TSGW7dW6xvhFLuZS6B2YXFrMD/t5MjJJawuuRMA9QAKacYEn6g4J+Y="%string)
  ; (0x0B, "01UMceMrYqtcbENupWRz7yznnS+Xn2GzRyWq+R+Z6ahP0A9QAL+Qj5NVH94J0="%string)
  ; (0x0C, "01kyA2o5LpL8YH5MBMFD3W9DsxXgicUs/8fo7m0ZIBwWYA9QAMBnOpJOM8uOw="%string)
  ; (0x0D, "01kt3MgJFSQpTPAQip58UUTbHwdCSDhCDl1Rd8Pz0vDLMA9QANkDrA/CmpkMQ="%string)
  ; (0x0E, "01mSli7y+6z4jvrVnK7HPT/wHATxQ1H/087iu/xmH5hRMA9QAOIk+fWrmFQmU="%string)
  ; (0x0F, "01fWt+jeoquSXjUTVzv9x9+D1PmAeV0FIhp0IekJWDwp8A9QAPZ1p+aH47m2g="%string)
  ; (0x10, "013moyXqATbwKjPVaOIeN/TluRC8LGAJbsnjjhfUuuGDcA9QAQTiRv5JYkVXo="%string)
  ; (0x11, "01ySQtRhF7KwiA400ROVdFekFU21F5Y/CY28OBkJYEWiQA9QARMU4JgJIGE9w="%string)
  ; (0x12, "01IcbBLx6RLaWPRfBWf+K1SwkNpPePfj1epEVMsADG+ggA9QASTFVrXjLQBng="%string)
  ; (0x13, "01ACuiLUgDXMJrSog+z62id1VmIQ6dHc49sJRshHEansYA9QATntDga4Rxa9o="%string)
  ; (0x14, "01JY84hJ+hKtkWYVqyHBw+xRTGV/IZs5uA1evVqDZCn6wA9QAU5Ny6MonhGcc="%string)
  ; (0x15, "01rjH7NzXc5RbS53vUgvQN9+jckFgYNOZWTgfSvIKSkuwA9QAVdudKuQO8rHg="%string)
  ; (0x16, "01/X/JdnSmV3IY9VPNdNSmhh3DkNbnOAbdu3DWIubH+d4A9QAWr9B2HXPioFk="%string)
  ; (0x17, "013JHcHyfSM1dpF01X8giEKXIcoFQR9VbmeEb7/1jiFaYA9QAX7/gR11r9EpQ="%string)
  ; (0x18, "017j1mipxYL+QvqrCgK++vFuGtEVOPY1GPtw8qiK+h3e8A9QAYQHgzPusFcEw="%string)
  ; (0x19, "01SuwMBiAR/rZflwq3uPI4MMRfIXNCrk8r/Vci6PpsbKwA9QAZND3Ysupai7M="%string)
  ; (0x1A, "01Ot3Mo4/WJmi6adiIXg5GyjZrzCu4A4j3i/IHl9rZuFEA9QAacuR7oa9Epnk="%string)
  ; (0x1B, "01scyH+ngv2woaekNKjgxCV09vccisi+jSa/Jppuz54mQA9QAbt/r0WxkjG3Q="%string)
  ; (0x1C, "01EC6E3v8dP0oKiL4CA8VE0sty6ZKc2jIw+hARTuQO24cA9QAcyymPYwM/eMw="%string)
  ; (0x1D, "01N7nOPGHf7rOnYyqVVO0K/BUkd4UAWjhPqoSBMuWIoaIA9QAd24eZ7uU0ip0="%string)
  ; (0x1E, "01ttZKBsMNKn4f3k/wAgAYVEjZFR/FB6Tk8qREu0F7/Z4A9QAe99wnSf6u6iY="%string)
  ; (0x1F, "01Of6rerqNDxDGguHJreFve/Zm+5AqAo1znprBwBfLO34A9QAfR4gKGAHkKsM="%string)
  ; (0x20, "01PaFtFBg4wgFmeL9OLrCmyIae0005xF/DyxR9rwfYts0A9QAgJpja4PiF7ps="%string)
  ; (0x21, "01qNI57WWL3nbJId1G26pImcf/mcPgbBDqJga5A/gYdHgA9QAhWoy6dg+BJfQ="%string)
  ; (0x22, "01DCrzYhbboVGpeEvALJ/9SaM+3kaVAbFQmRXqE+Kwg5QA9QAiUiwV6j9hKmU="%string)
  ; (0x23, "01jlWnPKxj/k9Zpm7nUqCC2aFJEaH3zjiC2qcZiJwyIsQA9QAjob/j07DFV6E="%string)
  ; (0x24, "01vJ9x3RUojn7WEp0YRcxR5YRGks/mE4wkxESXmR4xBvUA9QAkE5AQcBRppro="%string)
  ; (0x25, "01LZ7UJ0GeKFcsWLaNJ9LSYyAhFxU+gigPEn9XVbagg9cA9QAlA1ONWgO+c8U="%string)
  ; (0x26, "01dNbFPI5oBCUkpMCsQnLSZzKrM1H96xiUFBgDjHQxItUA9QAmdy0CKDkIEfQ="%string)
  ; (0x27, "01XRo3XLLiF67ghT6iI64fvqPpUTk2n+RzoJZTivW3h9AA9QAn778LLcThkGU="%string)
  ; (0x28, "01X87tXIT6hLvIUUnQuiOv7Za/a0sB9RjOI91J2IcQYeAA9QAo9IP34SpBGjA="%string)
  ; (0x29, "01JP1whfM4S39KDVm/gVYMkIFkKPRZ0ULEhkV7LIw/TVUA9QApikKF/1FvPuQ="%string)
  ; (0x2A, "01joamnu17tv3VBvTeWzJzzdzArVA5gmcR65ub3TOAR9wA9QAqJ3l2ioc4BW4="%string)
  ; (0x2B, "01uH6Nc9wxAS8OPlAdpKgRHcikd1KlKMYg6t1AwyIgHCgA9QArQ6ePG2dr7yU="%string)
  ; (0x2C, "01BWj7PSCVuJntPzSrdI8r7b7a2+gNvH6w51UGR/cpXEAA9QAsj5LJEIf1bSE="%string)
  ; (0x2D, "01ZFH1fw0jHvHLJbiaQ38t8HAiGo9LNCDxyQgHQxIrr3UA9QAtmUnvvvP9B+Q="%string)
  ; (0x2E, "01mmxF6BoUeo1UUh/c2UolFcMKWOhyhBC1TuGnSYZWVSQA9QAurXrnNjNZwnQ="%string)
  ; (0x2F, "01W4FzhLUL9wqImi0025OzMzmKrZJg30bV2eSbJk3e1RcA9QAvyg04+OuUvaQ="%string)
  ; (0x30, "01gemYz53qoHDPbQYqZbYFx46m91zeXNzFMr1gn4fTpXMA9QAw6mglW406XbY="%string)
  ; (0x31, "010CrGdMA5uIDYXvcFh7Y/8ogCdkhxIrTeiGnBAv6PRmwA9QAxEG7h69ZK1Bk="%string)
  ; (0x32, "01vjHv/Y2ojwR7ZYBTZyMonfgi7DBb2OtbXuPbRFm4UGIA9QAyLzBDKxTt4po="%string)
  ; (0x33, "01cAqBvmTVdkJit9y6CVdP4VWxQ4ycD/CW7q6dIltZ/qAA9QAzHQZWY0PnG5A="%string)
  ; (0x34, "01qQGdoDxLwI8EusXrOOdm9BrNKgIvhHdaHG1gN85tgVYA9QA0lun7ALvDurU="%string)
  ; (0x35, "01ve200zlvSJ2wv5WEhXlqAgtHDVjYDaWepHLmyuBGUK8A9QA1XqhJiQyYurQ="%string)
  ; (0x36, "01PrIImoc9I8LR2KMWN/rbWu2tZq5rQiB2OQU3hZziKwkA9QA2puW6c/M4MCQ="%string)
  ; (0x37, "01ioZ1mqryEXr9YGQuxku+p8jT/+YomXXC7BC6rmJE4vQA9QA3xceIvel9T64="%string)
  ; (0x38, "01XzgqDd/KFYJ+dE52WTv5F71YtawWa5EO9HNQtYJLDvkA9QA4Wnc1e7c+HpM="%string)
  ; (0x39, "01es3ZegqxoU+adkZH+XJDb4B3GyR+tWg2SuRyNf5oQFkA9QA5bYj/MCg3E/A="%string)
  ; (0x3A, "010D2FO5FIeElRt4fi27P7sW+utpG3v32awdirhlNEu6EA9QA6IDFotEVBUME="%string)
  ; (0x3B, "01kl25BDTTPrP4WLY5RKGskcWBxE5tv6pX9TuaC2ykwesA9QA7qaLOLgrb8oA="%string)
  ; (0x3C, "01SvN0LxbPo9hHn05TJwK+znxWI+Vav5MPOLMpSK4mQWEA9QA8UymqObSvUMQ="%string)
  ; (0x3D, "01qHdMY9bAKl99Q5MHTwML8kKKGRXSONSA7FthJ1tY5qoA9QA9QE6tHYhSE+s="%string)
  ; (0x3E, "01GrFzSAf5Xm4HXLxaiheJbWzR0zu3C07FqPGNWAGI6t0A9QA+QPx458xUphY="%string)
  ; (0x3F, "01VE8RHtZXUg5lqqe5K5qTznezIStuUSN6v1gKLp3NwdYA9QA/ZdRebAxMuCY="%string)
  ; (0x40, "01KVci+9cRyd+acCN3IZXXViP+C5lFjSwlUzdBNjgb3xcA9QBABv7puNYtodM="%string)
  ; (0x41, "01JGvEGYZpzfX3JvP6O/Iby8XFHEXO9xPG3KMwFlZmUqkA9QBBCz42u+uMymA="%string)
  ; (0x42, "01BIVUkUjQTNmZKefxkEwVhAE3QJmB+2iOK8f3vDwlUMMA9QBCH6kCK+qfxd4="%string)
  ; (0x43, "01z7UJAuMVWZ+BZj+t9bgvXx7w4QzgzqJddoD9kiNkTaYA9QBDdcsbk9mJlhI="%string)
  ; (0x44, "01wX/M+8OSmMddgdf/RP/915L4+hkddWQgyftyxVSUMjkA9QBEoiYel4NxfWQ="%string)
  ; (0x45, "01ZDQ8a/4/tsA1B+Lpfk2RYhNPwO6uxeT57EjdPTeyexMA9QBFuHtz5G/LEGo="%string)
  ; (0x46, "0121ywdh7p0YK6MS+O9Vg8iaFMAdm6faGBe/oPIeJ6s24A9QBGCq7l1dfR8eU="%string)
  ; (0x47, "01pyGjCwZdEc7KXmZXABawQTAN1qyPtW25zV8QHjLoXIMA9QBHYdF9TQJZ0zU="%string)
  ; (0x48, "01vqoVRwRXMN+j3qPQU4Enfg1lbBB81zZEH0mrr8kPMR4A9QBITWUzXH5ASok="%string)
  ; (0x49, "01iElbTKH/fTSqfg7XkUe0OI323dEaQ5lgDvwX5vXpexIA9QBJo/7Ta5M+EoM="%string)
  ; (0x4A, "01OSYuyfXqL1VH+tSid74ygjvUen6cBqWmYXPmsgqLcUIA9QBK/42PlTHvQdU="%string)
  ; (0x4B, "01fIYk5Er5cxIQH2NFDMx+WIWhsp1nKYOtccC+hPZF2UYA9QBLPSAaanbuLCI="%string)
  ; (0x4C, "011hUcvLdOKLh/18xTobX/izWo0FmrBpcRyQdhZltbrSgA9QBMKd/5SGi45lM="%string)
  ; (0x4D, "0184DBLyV08bk/jHN6sPCuAcCJh/Vm94YoYykYlCVetM8A9QBNg+SezK03fOQ="%string)
  ; (0x4E, "01yuxrZYDNQGYewJ1HFZTLg6xj+KdGcNQ+HuWhpzPxm7EA9QBOt/WQcZ+ANHk="%string)
  ; (0x4F, "01yuesDD9Y9frtuvmraPC3RSmSOzWiPKbJXyLXaEpAkLcA9QBPrCb4jC05KAo="%string)
  ; (0x50, "01VJSfB7SbJVqUFBPSYuETHjCXiLFUau1mtUOrDTl5s/sA9QBQS40Lk4QfTtk="%string)
  ; (0x51, "01zOwhn+ibvdc+OA9ftpIeM+SSAEL7a4fndW29SlgCrVoA9QBRF82euDDSHNE="%string)
  ; (0x52, "01VxdwoUMrFgZ5JjVmVkexNEtN8iSN5Y2E4jFZUPXtbWAA9QBSB/Le2nxOd0c="%string)
  ; (0x53, "01b5Mv19HMCx5nQ6M1RVt11IXiPH36f7+f4AXIM9uogpcA9QBTgxvxDckYCng="%string)
  ; (0x54, "016bL6REfdmLmr5tojQEjKXZKR7eLNeoV2vdXBWUmh13cA9QBUUZdw/ytoL4Q="%string)
  ; (0x55, "014qYwIvlbFdYpXrdYojAxop4CIlC9G9nuhRbfks9N/F0A9QBV1NzRJC5k4Lk="%string)
  ; (0x56, "01QKHQO+mtClv/WGKOAoC/vLZVR1RFiduUlfs6dOSPXzcA9QBWyV/iReGhSP0="%string)
  ; (0x57, "01DtRqK/98CkTMbc22cPcY/FhX61dVz7x4T49f8sd2oBQA9QBX2H2yX1EBjiQ="%string)
  ; (0x58, "01g70NsnVWcn4QksSemSrNgvtzAP8wOV5Rx+zj7za/G9EA9QBYsMTnKVsCllA="%string)
  ; (0x59, "01z6l1JM04AXEA1nwdhb+ErIV/wOm9HpJlDXETkgwdgPwA9QBZ/UWVnL5VoRk="%string)
  ; (0x5A, "01k7VtuxhfcdpSO5EhtIwWLsTJuFMwPxR2ygR7KcH8TRIA9QBanhqgDcd5bns="%string)
  ; (0x5B, "01YZHoz+bgUlpbGtYI3lqzkb2ct+fNyJSoEotr/MSjSywA9QBbTv/hN0CXFd8="%string)
  ; (0x5C, "01tbFqqW77Y1YOAwQoqu9humgAFq2iN11g4F6IuouS1SEA9QBcmQ+XR1x/Wq0="%string)
  ; (0x5D, "01K7KyedjtK1FUJGTCHtbNc7z19OB6SLsSHghnIZ9ljZsA9QBd6gGvDhmDLFk="%string)
  ; (0x5E, "011Df9+pUyQYKwDM3WTZfyEFPDkQWMMuGPqn4PbGS5t4wA9QBeBEgUb2K3FQg="%string)
  ; (0x5F, "01TWrQlCKdfJQybPGGoz3tpT8MFZ/LeHuij5EXF8kbZp0A9QBfaRCtjq0OxB8="%string)
  ; (0x60, "01ANdOLAkpbZZtx7Nto7+KqMC8aZVAE50d19ag7yc7C1kA9QBgrW7LpBvK2Oc="%string)
  ; (0x61, "015E+paPsIxmIdmmTBTSOBnWo9aY/emUucCYV/PKyjW/sA9QBhvcZ0NMLnEfw="%string)
  ; (0x62, "01ObjJ39VOqLnSYKu8HbcrpgfXhYmdo7bXh4eI4+T1DFYA9QBiqTuaRV9nhck="%string)
  ; (0x63, "01kbRBTRJ8D0BFxab6+lrzurKpqkctvir3ZCktRnxuy44A9QBjEhBRb+slbNA="%string)
  ; (0x64, "01DfTiizrShgltjeVmKqZZMdnHj3pJOMS16tknEPy1n1UA9QBkGGpP/xTJKtY="%string)
  ; (0x65, "01ZfKqtWzR8XTYB4FSa/vPMlJinPAappQg8MfIykdMUPMA9QBl9J2VuRM5g8E="%string)
  ; (0x66, "01r2qg63EuUk1QxLWTgOdDFNv8JQoRMA1/kbU7R3b0ApwA9QBmu/ACR7khW/4="%string)
  ; (0x67, "01skPXmFaoToRYv7I3BcxjdD4+pJhqenhBs4Vi+ssn52AA9QBntVTzkwIx+wc="%string)
  ; (0x68, "0107qAr3iF27YSA60xiiMGN/55oeQfeeN4c5AsjGbhVCoA9QBoK903cZU41gE="%string)
  ; (0x69, "01PPXyxK3bVxBrkWXwohfGw7up+Qgofr74nolAO+NxZ6IA9QBpZhshEs+GhZo="%string)
  ; (0x6A, "01chwsDcqPPLKIGltS3FqG7D7JjwKHA+nkUSXObUL87B8A9QBqS3DrKdtfCjM="%string)
  ; (0x6B, "01LCvbbI9iIU1yj7G9L9aN25gKZsJUrL93Aocv/w782SQA9QBr7RyE4mgSlaA="%string)
  ; (0x6C, "01kiEDI80tGQY/svtJ3HHwTPV95UpH8piJduej7bzaJ/AA9QBsMDJENupylLU="%string)
  ; (0x6D, "01PHgrYTFnjTDT1f6tiBfA5mLVDBxLMCpMNGt23tzXZw8A9QBtMlj9swYhAmI="%string)
  ; (0x6E, "01X77yfF2lPxce6uAQXCXWvT+mjXCohqqqDp6VXJV+nBcA9QBuc0R9D4JUGG8="%string)
  ; (0x6F, "014OeLd2WJ/oCDk+DS3wF6wS1unM1PJqgPr8/TEm1+qYQA9QBvcLGX6EPVGjw="%string)
  ; (0x70, "01tT0WurB5VGLTCpBymxN08mrMa7NgbRcTAdo300OZ42EA9QBwibmcH6cD2F4="%string)
  ; (0x71, "01PCKu7tgl37tG8YbfyNM4hC89owicvH9J99V8ls4QfCwA9QBxbdnvgqdjbG0="%string)
  ; (0x72, "01dOYAmP8+wXPiL4tL8AjV+0sGJt06aZ4IIH4sa55YzIoA9QByqkW8mvMZu68="%string)
  ; (0x73, "01tKqYeMjuH+Ypl/XgfTytMYW8ff5/XdqjbHo1A6pe4hEA9QBzUNkoyWoSXd8="%string)
  ; (0x74, "01lnttrN8oej/CIfpTi6KmWuS5Zqbzy9wcHm/ZZPbZSe4A9QB0Y+t0r6hu+fc="%string)
  ; (0x75, "01voHZZnnJciNJBrXWUdTUDc8vSdFtOcA9Y2fNYaM2VsYA9QB1ZAGH5AxLh1o="%string)
  ; (0x76, "01q0xhYIVBOosokTZXI5rrRQLanwxvJfRg6J10euBeHeAA9QB25NryCJ56FEg="%string)
  ; (0x77, "01cGcspFxf+0tBzRgtIzTs2OG+kyogY6zyQlfNIXywPhwA9QB3qd8TD4/SB9A="%string)
  ; (0x78, "01H1TAHqqUcG440PSFKwXKYK+kHhn9joU5o7tHBkB0u/wA9QB4vcy3May3QLA="%string)
  ; (0x79, "01bCP4mh5HmLNsAyJfJG1sqQCZtjNokXWw11FPivDTnHgA9QB5gpF3oQe3j5s="%string)
  ; (0x7A, "019kSwdShtwXv+r4d8IIWrRxbc4L6AGkJEZ+x+mHo5poMA9QB64nrM/7i4FQI="%string)
  ; (0x7B, "01U6j3KPT2bvarKbEIecq3G6xWc/Fm/gXfjTQ/NjT0WQEA9QB7OonDEpgQM+8="%string)
  ; (0x7C, "01nNzBj1t6YY+SdxbMIeHq9bJMdgrBybLsjPRSsoX9eN8A9QB8hhFaK9myzdU="%string)
  ; (0x7D, "01DftdebCDKLmd5vsmwybBzaidPd2u3hdC8qcXi1kmaW0A9QB9VSn1B/lIyoI="%string)
  ; (0x7E, "01flBOFU42alWzyf2G9PSnJeTzpk7R7LBw7KgT3XbrdgMA9QB+EQaMiyrEQuI="%string)
  ; (0x7F, "01PpuYfSRTklSsKKbbf4VagU5nG29toK2Y/7NgUDCbiT4A9QB/Tpp2KomLpJA="%string)
  ; (0x80, "0158cgKIz5atlNHRyirx8mBcyDw3RzFJPr64iXE0T6XloA9QCA+4tm59SWpA8="%string)
  ; (0x81, "01ZKHjcVdrWnBYqd/sw4z5YR7z3NqPC+b7ATXL0HtCcHQA9QCBlp+rL53FYag="%string)
  ; (0x82, "01Zlotl4FXZYkPdT2TQVUaSDde+EYMxUQSGMqQreVc7mMA9QCCltEaggRnkek="%string)
  ; (0x83, "01K6ESscADv3doOzAHEds24ME395Y+rSYJwVoIygiIRvMA9QCD1FkJmsblK60="%string)
  ; (0x84, "01yKyhLCAFWcnHaG0j5z+rRqzdY1VK5v7gLOVSTbqGz4YA9QCE+1H6yftpZoQ="%string)
  ; (0x85, "01gas60E44loqWfl7k8fllMiDSlr/QtY/5tsZIF7BW2F8A9QCFqtWLjJkGlf4="%string)
  ; (0x86, "01BdIkAMF1tO1w9bnV2PMQEgcJpbsmRDce2J/6C+2dFSoA9QCGLhtKt/SRs9E="%string)
  ; (0x87, "01CQPSJqJAUF30kUuEh15kDdZqfqta9p2GrPtILEH8W7UA9QCHWt1m7fCkCFs="%string)
  ; (0x88, "01gC2k2HfcPXWPq/l/yySUaez0v0e13bl7nekBjscHmoUA9QCItcUSSpuoCJ0="%string)
  ; (0x89, "01u8NIMScH94r/ZnP3NZ375e1bDwjrQyfOXyD8A2gYkm8A9QCJh7B9S+qNJfM="%string)
  ; (0x8A, "01ZVWq8V6b0CYrP7yrJY6JOAP1kCh+FcqDmuco55SD5N8A9QCKfQYQBHRX0OA="%string)
  ; (0x8B, "01b8gSU/+7/2sX1xCLT9E671g6Z+8BBfuDXFDBuwDLX1EA9QCLX2H4pkZ1X/0="%string)
  ; (0x8C, "01eu5yUTis6NcpiA8aV93Kio1jo16exGiqUP+sNXKMwi8A9QCME1nwAMPTDqE="%string)
  ; (0x8D, "01CpefxxckfjTlsGPep1dL49JPSG1p+2/0wrorJCFGxEoA9QCNrbCuRF+Gw3w="%string)
  ; (0x8E, "01jHTYH8SnrwLQ/n9o81FojInhziuqpCqxNuyXeBi9SH0A9QCOtSkH9+ZdPTg="%string)
  ; (0x8F, "01ldSMz2LdfT+X1IwImTmjZdPBRfVdqoogkMEWFBoP9YwA9QCPojaQF+qN5Y0="%string)
  ; (0x90, "01iVPYi2AipJiBTdYeB2imBQggq0wr8yrsM5aTUmOIgCsA9QCQvaK+uSve+Cw="%string)
  ; (0x91, "01s8AzxVVnElvjD7I9G3MFHYu46QEpZ8LAbOqPU3DiJwYA9QCR6nCRUogaWsE="%string)
  ; (0x92, "01sgqbD6nsKDz8SawCanylLyqwtoFUeMsY2Y6FxEi4rP0A9QCSAP8Ivi0OzQk="%string)
  ; (0x93, "01I9OeXKI+9aHkJNtpWJsQk2K9uB2N4owdDJdfgpl+2XkA9QCTJUNKxJ/fxfw="%string)
  ; (0x94, "01mzK11OiK3zwYY9HtaGqYJJlKQl/LSzw6lw8Um8D2Z+cA9QCUDd4ywAsjKYY="%string)
  ; (0x95, "01hXltaa9asjYP3hkerOLy4xOb5cdCeW6vxB7CTwgYXgoA9QCV/VPRdSVXr5c="%string)
  ; (0x96, "013OcEZAcZcIYk+JAME6xdICjftyo+oVAEWPBrz7/VcL4A9QCWrSwFxs4BcJY="%string)
  ; (0x97, "01V3LIsO0KSvTpBznfWlKHSC1wJ9/HeOCUflgq5xVw0p0A9QCXh4BjaJKZ20U="%string)
  ; (0x98, "01zB/Xt78FCuFJalzTYkZxkfVRYSGsj1btny/yS64sadcA9QCY+Su3BQlDCoM="%string)
  ; (0x99, "01BQiQXVCPBCe+KRgh0mTRtcIOjbz57ioHJyPDcWIPIf0A9QCZp4rR2gVJ3vc="%string)
  ; (0x9A, "01HWhMtUXpxiqpXZX7pesmxjjidDlHz8DEpCRVouJYsXQA9QCaiic/44Av9Bc="%string)
  ; (0x9B, "01AJq19ZS7yEp2G2qr9TachL67wGZCDzxAE7za+sD3W0AA9QCbtzd/JAPGqsg="%string)
  ; (0x9C, "01F69vVcywbPCj6R5Mt3mvureFySYOM/HaS+2A5bXCEnkA9QCcV69bTqe+Eqk="%string)
  ; (0x9D, "01Gb/0Qkgc+M4XBL2QT+mJoJ/GTlyjE/JwJLUJdBIzGSsA9QCd0MEPjzR7XlA="%string)
  ; (0x9E, "01s+j8COe6AiH3BPA7x5l2cUoPouaLhYPa4VvFQHwhz3MA9QCeAlTyk+rZ7oA="%string)
  ; (0x9F, "013c5xF7tG2debbOl32PczFukhxK6bU2jM0qf9LZf1lk4A9QCfqP6MZObsXGA="%string)
  ; (0xA0, "01riKSrZnDwxegohx1gc0SCsaJhwpdx74kIAHBv2efRD8A9QCgSkh+gg6gu9E="%string)
  ; (0xA1, "01XB89nLrHVf3Iz3HhDwrqAUiHQM2snAzqLAP5z3IoiaIA9QChXd9JguYlpFo="%string)
  ; (0xA2, "01wrI6aMFZ43DQ3LwvLA83ALrf7nFFoeBUwu6eqYzse3MA9QCivyxUTWjoH60="%string)
  ; (0xA3, "01cD8sTsxwmzQ1ELjRb7+zIJACVqaj3WHvVk1Ydoz4r5UA9QCjVhTVuu6YAv0="%string)
  ; (0xA4, "01RN7C/CPM4rkDeovve5d/grvKErZ/5HarMVgdEgLYD7YA9QCkJeJzSUdZZkY="%string)
  ; (0xA5, "011VhX4jxoAL2SDDMRdUHBg0EIVgcIZnS/yzCGFnkvqMoA9QClBO1b8iVccgQ="%string)
  ; (0xA6, "01e4B+QtZ7YUOKNpJjxCsO5dtipbyDLJONW4m3Ls2GsGQA9QCmeBNt8oUBewY="%string)
  ; (0xA7, "01DYHzvaGq3g9RS1NV4ZwUa/4C103i6QYtg3XrimDFF8oA9QCnJia6cFvwzq0="%string)
  ; (0xA8, "01mUOat+37IaeZXMYWqFCX+SqFo2ELynfxhXHiwTubXVYA9QCoi6JsR8kylHI="%string)
  ; (0xA9, "0187WM0Zhkzob6pXoZy5l+tq4NlPEQRdUCTyYvWePmF2QA9QCpr8KHT6maVbM="%string)
  ; (0xAA, "01lKWHZr9hIDoleSc38CnYqQBU/Yugu0Pg3UTGhg6maKkA9QCqZtOj3CFdXxA="%string)
  ; (0xAB, "01uxKwG+y5t7A4AYwFEy6s0NA6OE8tld/1sso58Jlx+b8A9QCry9CYW/f8R6U="%string)
  ; (0xAC, "01Sa5i99M9SV7H7Xz7ysfAv1s5A9LDbRbMErDgHcMYwU8A9QCsgb2lhJCIr8Q="%string)
  ; (0xAD, "01jOXZuEUaJAdaIfJROR1+dvSL3VRTBOiQfV7GqrCSnucA9QCtUyQHM70Eo+Y="%string)
  ; (0xAE, "01rxGZDeSyL42+2k661bUuTEWDI2MgpMx+sjI9PZ5K3E0A9QCuDEitB7CMTgM="%string)
  ; (0xAF, "010DZwcs6j0cLupnE3ktse6z72zxmjRp0BwfPkBCNapDoA9QCv8gL1rvTNKmw="%string)
  ; (0xB0, "01o73R4AYeSA0O4LtvnjBVVytcZG7UJQEvyKIQt2+ky6QA9QCwdBu77BiC7Zo="%string)
  ; (0xB1, "0119d+NMZAl4nKS7GD6TvDEh6pNcYsrWxnAvZB9jdUqJYA9QCxyjS9UdtX74A="%string)
  ; (0xB2, "01ZKnKg4MmdqiZungTh9Net2y4pj9oAeFnuVtUELqfLUEA9QCyKTwLV6SrUdk="%string)
  ; (0xB3, "01iiSAsDvuGbdq8aX/5Uc+luUo6N26ceL2Gnskw+vk7AkA9QCz7/8J7JELM/Q="%string)
  ; (0xB4, "01wEybLBO2TtNUx8YlTlh5tr3S47qhZlW7xxaIMmUk3hQA9QC04Efks8AIxTU="%string)
  ; (0xB5, "01oQxz5LFu5n6M0Q7bjZKKtQlbmiFw54dPy5BftRRiiv0A9QC1yYozwSU9mHg="%string)
  ; (0xB6, "01Vk74q3+HDhcUeq4ivWSz+WJC2cGtKrLs1Z75YgQ9wQsA9QC2d6hrVmj/Lr8="%string)
  ; (0xB7, "019obQ4g0eJozErHKiJez1ucNuwIeFyFYQnSXalcsaFecA9QC3yuKmyKrCRz0="%string)
  ; (0xB8, "01ShQSAxcy/62WC9Dmok9cWqWe76RkV+PlTN51KXvXsuIA9QC4quJSy9aJ30g="%string)
  ; (0xB9, "01Wc19Q0Cd+IxvNVuRSYmAWz43Mug6X7fE+ti25EFqy1gA9QC51VJACEewbX0="%string)
  ; (0xBA, "01KMpiG9A7T1Yc47RMaOHnmnAAt9LPTvBlKsRqoDlwACwA9QC6GgmG0lItkPQ="%string)
  ; (0xBB, "01mrrSn51GVH+hGhjze+IZRGLPRNjS9PjiBFLaBRHGbyAA9QC7sPcA4qy/8PQ="%string)
  ; (0xBC, "01eax3unXuamELKDUm63fP3tmGLggREvU/7q+7/+y96vMA9QC8sGbFvNPgRUI="%string)
  ; (0xBD, "01x4FrivUyjapkWhI5YlaOfzPdjDTvzekgYOk/M9719Q4A9QC9S4DKyhH5f0k="%string)
  ; (0xBE, "0104ZdwCBjjBdzIBVb39tu9yF72QpmQ3hSfnmQEjB3jBEA9QC+2UWa+PieQ3E="%string)
  ; (0xBF, "01XbLmZjejHJ52HGAuOXWgiv+X2cEBRUklZ1o456iGpg8A9QC/1d4IOlkOc+U="%string)
  ; (0xC0, "01uUemY6wT6n7eQgJsBP18yZwDXKg6XZmtZt8lr6sKYwkA9QDAGOFxtDbun04="%string)
  ; (0xC1, "01eBjY3cxEFHx6lRK7dkbU1NzaJ8ilmeqZw+CFuegWjl4A9QDBtNtsW8jynqk="%string)
  ; (0xC2, "01cxW1pFo/YnUs99C9B1sU+6QDb+SlWHhaoI5XSYZHRSUA9QDCxpcKztCUbPs="%string)
  ; (0xC3, "01tpxvOCMoZnRZwCx+C6GmvCEdCFcWz/odNEBIFngvVq4A9QDD2AMqsDogPaA="%string)
  ; (0xC4, "010BuvdF60cpb0eV7c7xvHztT6xeXUlqAktRj/OX8heRQA9QDEFa+Ow3uHfrg="%string)
  ; (0xC5, "017AnNA39T2mQXWclaxS8jQjoy1vCdeJBUlfXYpwSjveUA9QDFAGjKi0BKoP0="%string)
  ; (0xC6, "01U9Vs6MMYUZnjgrHdvTyXkPk09rOeSqTdhVvLgK9qyRgA9QDGowPx/4ouy2I="%string)
  ; (0xC7, "01BhEwlLeznoQcAvdfhXG5zP9DDzaA7nHFY0YsDx9VptEA9QDHr7Hrlfjjy1Q="%string)
  ; (0xC8, "01osA2G/JKPjtre3F/aLqzsV/5wFCWkMBlUTXPYQALpXwA9QDIsmjQVVIJOBY="%string)
  ; (0xC9, "01APTDRLesYQF8jF3T1e0mJviyaE8ZQbLhLHf0iSnNNL4A9QDJd9WrIOBCmPg="%string)
  ; (0xCA, "019ClfWtfCPPexu4jZCn8E3UJJUtcrO6XJUcJ8ot7/jOUA9QDKUP/cOj+9DwI="%string)
  ; (0xCB, "01GfnLcM56Ogqo5kuKna0knG4vHu01Aweb8o3shNk4kdwA9QDLxEJszADx5ro="%string)
  ; (0xCC, "01bzNCY11gQ4wfybfRow74waIzmSleHIQi9LUdc6aoBIQA9QDMdd6raTvQJJg="%string)
  ; (0xCD, "01XEqW2DcTnCIRuL39aj7AHJ15Xb/tSN+4obrNT2XBYB4A9QDNM2DxWRj3Vd4="%string)
  ; (0xCE, "0174wqqOXMCpSOnU2Lng9DysTI6XRgJOOzrmlpRFrW99cA9QDO2vLloq4qlrM="%string)
  ; (0xCF, "01F0kT+HUsHgdZMaPTiUA5VuiFb32J97l4CGnoLALf0noA9QDPdWV0HPcrZSg="%string)
  ; (0xD0, "01QAdMAu67r9Ts1CXACDVb4pi77bZ/5sCL218IKdkR+KsA9QDQ5ho2P+myrZI="%string)
  ; (0xD1, "01aIpLWofG15lhCdRkq4OVxFxyDNlY9AQe+Sxw8Ez1wgIA9QDRz2SgGRA9bpo="%string)
  ; (0xD2, "01cTN6mM8lLn+2JhXnXzFkf+1y6/i+AV2qgqj849dsZYoA9QDSISg4guxlros="%string)
  ; (0xD3, "010KSweNK36uIq5u2XnKdN1f6zJST6KfEV2eRLUj2gW+kA9QDTe+VN+pQvVN8="%string)
  ; (0xD4, "01BjPiWcWMFNEWVwMHRwRsU6FxYOhN/5s9C+s3hUbXuVsA9QDUqI8FVMKWTu4="%string)
  ; (0xD5, "01ZJxP8ch2/jFRfP7ZMAyVB3mOz0kmXHaa/49jr5uhyQIA9QDVV9YF9uwGoPQ="%string)
  ; (0xD6, "01aXkRq1sPci96K7nx96eG3EG36OhHrRjXk50YdMa8jRUA9QDWTFthm8bz9lc="%string)
  ; (0xD7, "010+SdM9+RFyzJF5EH0Y03lh+bZ8dkj575Q+1/rVpghEgA9QDXI4SCAokB1Ws="%string)
  ; (0xD8, "01LsX7y8EDu7e32p9kBD6/35HaTvCgU3j8DI291q9w+V4A9QDYOHLDSGt/p5E="%string)
  ; (0xD9, "01HerUqqMVjy7ElbhfSGhF7oQ2CwH4kSyKeYn+984GbZUA9QDZmZ12guW4nEc="%string)
  ; (0xDA, "01sq9ZTyg/uamwZKtb6G4pXbLU3imlV64GtEYVcIwc19EA9QDaCcPxBW8FT4A="%string)
  ; (0xDB, "01I4w5qZWAFfel8uJrpaB+0XGhNMJhlPLk2IOh2rPNSUEA9QDbGbAYVmT/74o="%string)
  ; (0xDC, "01W+jmCQJlvcLhAY3YPzKSflTjvrFr1G1tH/wWBeVL62IA9QDcAbVWB36nbx4="%string)
  ; (0xDD, "01XhynrWGgIS9v9bkwGxADdlSQBVVr0ezOvd3W6N/AS7cA9QDd8nrXhEMsgDc="%string)
  ; (0xDE, "01zTyvv9YtVss0eSJ6FACF6Nc+u+mL29mu6yYirmFRKi8A9QDe0AGAmR4fLcY="%string)
  ; (0xDF, "019+nob9ZiHwaRJU6Cx+lBBHufg+AJL6qe0u4cR0KHalwA9QDfFAilx9Vvb/w="%string)
  ; (0xE0, "01uYEF+dBwc+cT3ocldEYLoBMBL93xVBEXgMwW3pehDh0A9QDgZ0Xh+zTzW7o="%string)
  ; (0xE1, "01ZDThF9vrJybP/+a6YDg7zalHxdbcmL4M9XYCw29QemAA9QDhx7nDSnj85PM="%string)
  ; (0xE2, "01JclXHp1GSrbwjxLEZ+n0oJvoN3X9hKC/DmT9aJdvDdwA9QDiq+2YBSKAEkU="%string)
  ; (0xE3, "01ixep85GehkH5t6XKCR9i1joBJaFl5Sb36Rqgm8SXWxYA9QDj2mipDaGl0Yo="%string)
  ; (0xE4, "01WsQ/mFQL063c/lPLeB2zL1wD66E/YCfxSulEZ9hjfW4A9QDkp/as3+IlWXQ="%string)
  ; (0xE5, "01zcT3cwWBMMwi8qFKwsj9d7W9B1daoBDE6bkAm6WzA3MA9QDlbjOEmKaqlLs="%string)
  ; (0xE6, "01ED4oUlKfRcWnXeYsLtDILAy4Z1ouLwz6TOiHfDt6dTYA9QDmQQQ5XMOgMeY="%string)
  ; (0xE7, "015eZT2Fd8WyEvy0fDsYAob5E+Po2r8/kxvTAadGgbbHkA9QDn1rB0N8LDUds="%string)
  ; (0xE8, "01uEsKPiaL1JNI9CNydCzERDKuQ79D+HpW5RmBieRulrcA9QDoe+8R0cR+QsE="%string)
  ; (0xE9, "01df5o1LcRC82Td/QyZMJlMQTh4jc85FYQPYjcIGCnmMoA9QDpxGnG1V/A6vg="%string)
  ; (0xEA, "015TBq4z+cosSY48N8GppV3Lu1DMSTWj88bM0jjjKOIlYA9QDqKlZln2uOz8w="%string)
  ; (0xEB, "01bviPVwO2fDKdPpOFw5RHcTLyJHof6QR/zBwp0NB4MJsA9QDrctkpOSvXht0="%string)
  ; (0xEC, "01vKvPMw/EM86zYKsq9BZ8QmBJfHtbNUDhutGuR7JNh8UA9QDs2WF4UpDxTnA="%string)
  ; (0xED, "01cdSR7LduuhIk+zzyy4Th1XEfLfXhJMomGwkVs0x0PYkA9QDtWRjqUN4lcZY="%string)
  ; (0xEE, "01uVUomAEtq1qddKAcG8aqK+AcAZamcUMLNvc37/8rY8oA9QDu7LVPSX0VBNU="%string)
  ; (0xEF, "01a1czIEm3yGyYo0IJAlbUq/1QVDgHVBiJZTSkfGyLqqkA9QDvbmmByRUO3SE="%string)
  ; (0xF0, "01oCBLAlH/QbSb4/1TWRgiLWfyc3Yy/7qWIJ2tM+KuME8A9QDwIqj782i9/UI="%string)
  ; (0xF1, "01vU8CaeDWeMZDAFXBbKaa/K8QcuCkeL3K3gchOjL42AUA9QDxCk1T7SkbABQ="%string)
  ; (0xF2, "01jD0Qsf8o2RccMeMxzSZbKP/tbPlI+cS3WDXiLoVg0C0A9QDyvBsFxZc0A/0="%string)
  ; (0xF3, "01Ak8k1QkhzYljBn2s3e94s9ygNT/JgDqpcS3HAfTECS8A9QDzHcLPRVsfvIA="%string)
  ; (0xF4, "01ELuR0V3hEUolnluml7M0hreCE108wWovyNFWnLqPi+kA9QD0mYpSp1k5vY0="%string)
  ; (0xF5, "01FgFvAwpvHIyGSgMYVsdOz/vOIsR4eS/FL6OAxRYxtsUA9QD1y79DhQv/AzU="%string)
  ; (0xF6, "01Eo/ZMNSg6X52WhJm6rOYjq6ErPbxyfexTfeJhCnHpWEA9QD22ztm8EYQCrc="%string)
  ; (0xF7, "01g+nXfw49hCpE4Vx9TUDgj/vuJjW60FxU2CZCBUVoGocA9QD3sVqGXRgJFW4="%string)
  ; (0xF8, "015HiHfJHq8s3QSQMdnlVPU/P6CAlKD7ujZ7VF/OzXuigA9QD4WX48ixdxKfA="%string)
  ; (0xF9, "01q7iOmQhpf03wMdb/Dld9l/X3CdOpotqrATEOqHTDg9IA9QD5NJmIF54BgK8="%string)
  ; (0xFA, "01s/mtJ9+u6EvImIs8fmg1FZpAboyfZFWJmiFtYaD+zqEA9QD6YiTsvrUxtF8="%string)
  ; (0xFB, "01pWPbxhRwXYv20S0sqytFVQRdCii1Bth9ElqrEyHZo4AA9QD7Ka/VJ53mBxc="%string)
  ; (0xFC, "01t70j5dCz8OtNP2suXH9jX4By923A8qZ/HlfIoKJyIscA9QD8QBFD+j0DNc4="%string)
  ; (0xFD, "01HQpS7K+PhuBN1Y8x2r6o297fv8RJ7oOO4gCWp/LoRqMA9QD90Mzd2IGm3Dg="%string)
  ; (0xFE, "01zO5Wjn2SVYsTRUVBjTxZQBmQZF6aHLzod82ddiHJkCgA9QD+bWRPEgaXH9Y="%string)
  ; (0xFF, "01tRpkm8gqDi4NkXtkog3jClp79tHI1/tKjAwTgMvE37IA9QD/pwJnkexTRWY="%string)
  ].

Definition PASSWORD_MAP : gmap Z string := list_to_map PASSWORD_TABLE.

(** ** Blob codec *)

Record PasswordRecord : Type := {
  secret : bytes;
  min_seed : Z;
  algo_id : Z
}.

Definition parse_password_blob (blob : string) : result PasswordRecord :=
  let blob := list_ascii_of_string blob in
  if Nat.ltb (length blob) 62 then Err BlobTooShort
  else
    let prefix := take 2 blob in
    if negb (bool_decide (prefix = list_ascii_of_string "01")
             || bool_decide (prefix = list_ascii_of_string "03"))
    then Err UnsupportedPrefix
    else
      let payload := drop 2 blob in
      if negb (Nat.eqb (length payload) 60) then Err PayloadLength
      else
        match Base64.b64decode payload with
        | None => Err Base64Invalid
        | Some raw =>
            if negb (Nat.eqb (length raw) 44) then Err DecodedLength
            else
              let secret := take 32 raw in
              let min_seed := int_from_bytes_big (slice 32 34 raw) in
              let algo_id := int_from_bytes_big (slice 34 36 raw) in
              let digest := take 8 (Sha256.sha256 (take 36 raw)) in
              if negb (bool_decide (digest = slice 36 44 raw))
              then Err AuthenticityError
              else Ok {| secret := secret; min_seed := min_seed;
                         algo_id := algo_id |}
        end.

(** ** Hash chain *)

Definition run_hash_chain (secret : bytes) (iterations : Z) : bytes :=
  fold_left (fun digest _ => Sha256.sha256 digest)
            (seq 0 (Z.to_nat iterations)) secret.

(** The same loop, also counting the calls of [hashlib.sha256] it makes. *)
Definition run_hash_chain_counted (secret : bytes) (iterations : Z)
    : bytes * nat :=
  fold_left (fun '(digest, calls) _ => (Sha256.sha256 digest, S calls))
            (seq 0 (Z.to_nat iterations)) (secret, 0%nat).

(** ** Derivation pipeline *)

Definition derive_key_from_blob (blob : string) (seed : bytes) (algo : Z)
    : result (bytes * Z * bytes) :=
  record <- parse_password_blob blob;;;
  if negb (Z.eqb algo (algo_id record)) then Err AlgorithmMismatch
  else if negb (Nat.eqb (length seed) 5) then Err InvalidSeedLength
  else
    let seed_tail := Z_of_byte (nth 4 seed x00) in
    let max_seed := 255 - seed_tail in
    if Z.ltb max_seed (min_seed record) then Err SeedRejected
    else
      let iterations := max_seed - min_seed record in
      let digest := run_hash_chain (secret record) iterations in
      let aes_key := take 16 digest in
      let block := replicate 16 xff in
      let block := take 11 block ++ seed ++ drop 16 block in
      ct <- aes_encrypt_block aes_key block;;;
      Ok (take 5 ct, iterations, aes_key).

(** [password_map=None] selects the built-in table; [not blob] holds for a
    missing entry and for an entry that is the empty string. *)
Definition derive_key_from_algo (algo : Z) (seed : bytes)
    (password_map : option (gmap Z string)) : result (bytes * Z * bytes) :=
  let password_map :=
    match password_map with
    | None => PASSWORD_MAP
    | Some m => m
    end in
  match password_map !! algo with
  | None => Err UnknownAlgorithm
  | Some blob =>
      if String.eqb blob "" then Err UnknownAlgorithm
      else derive_key_from_blob blob seed algo
  end.

Definition result_hex (r : result (bytes * Z * bytes))
    : result (string * Z * string) :=
  match r with
  | Ok (mac, iterations, aes_key) => Ok (hex mac, iterations, hex aes_key)
  | Err e => Err e
  end.

(** * Properties *)

(** ** Bytes *)

Definition is_byte (v : Z) : Prop := 0 <= v < 256.

Lemma Z_of_byte_range (b : byte) : is_byte (Z_of_byte b).
Proof.
  unfold is_byte, Z_of_byte. pose proof (Byte.to_N_bounded b). lia.
Qed.

Lemma of_N_Z_of_byte (b : byte) : Byte.of_N (Z.to_N (Z_of_byte b)) = Some b.
Proof. unfold Z_of_byte. rewrite N2Z.id. apply Byte.of_to_N. Qed.

Lemma byte_of_Z_checked_of_byte (b : byte) :
  byte_of_Z_checked (Z_of_byte b) = Some b.
Proof.
  unfold byte_of_Z_checked. pose proof (Z_of_byte_range b) as [H0 H1].
  apply Z.leb_le in H0. apply Z.ltb_lt in H1. rewrite H0, H1. simpl.
  apply of_N_Z_of_byte.
Qed.

Lemma byte_of_Z_checked_total (v : Z) :
  is_byte v -> exists b, byte_of_Z_checked v = Some b /\ Z_of_byte b = v.
Proof.
  intros [H0 H1]. unfold byte_of_Z_checked.
  rewrite (proj2 (Z.leb_le 0 v) H0), (proj2 (Z.ltb_lt v 256) H1). simpl.
  pose proof (Byte.to_of_N_option_map (Z.to_N v)) as E.
  destruct (Byte.of_N (Z.to_N v)) as [b|] eqn:Hb; simpl in E.
  - exists b. split; [reflexivity|].
    destruct (N.leb (Z.to_N v) 255); [|discriminate].
    injection E as E. unfold Z_of_byte. rewrite E. lia.
  - destruct (N.leb_spec (Z.to_N v) 255); [discriminate|lia].
Qed.

Lemma is_byte_land (v : Z) : is_byte (Z.land v 255).
Proof.
  unfold is_byte. change 255 with (Z.ones 8). rewrite Z.land_ones by lia.
  apply Z.mod_pos_bound. lia.
Qed.

Lemma is_byte_land_id (v : Z) : is_byte v -> Z.land v 255 = v.
Proof.
  unfold is_byte. intros H. change 255 with (Z.ones 8).
  rewrite Z.land_ones by lia. apply Z.mod_small. lia.
Qed.

Lemma is_byte_lxor (a b : Z) : is_byte a -> is_byte b -> is_byte (Z.lxor a b).
Proof.
  intros Ha Hb.
  rewrite <- (is_byte_land_id a Ha), <- (is_byte_land_id b Hb).
  replace (Z.lxor (Z.land a 255) (Z.land b 255))
    with (Z.land (Z.lxor a b) 255) by (Z.bitblast).
  apply is_byte_land.
Qed.

Lemma byte_of_Z_of_byte (b : byte) : byte_of_Z (Z_of_byte b) = b.
Proof.
  unfold byte_of_Z. rewrite (is_byte_land_id _ (Z_of_byte_range b)).
  now rewrite of_N_Z_of_byte.
Qed.

Lemma ints_of_bytes_ok (bs : bytes) : Forall is_byte (ints_of_bytes bs).
Proof.
  unfold ints_of_bytes. induction bs; simpl; constructor; auto using Z_of_byte_range.
Qed.

Lemma bytes_of_ints_total (l : list Z) :
  Forall is_byte l ->
  exists bs, bytes_of_ints l = Some bs /\ ints_of_bytes bs = l.
Proof.
  induction 1 as [|v l Hv _ IH]; simpl.
  - exists []. auto.
  - destruct (byte_of_Z_checked_total v Hv) as (b & -> & Eb).
    destruct IH as (bs & -> & Ebs). exists (b :: bs). simpl.
    split; [reflexivity|]. unfold ints_of_bytes in *. simpl. congruence.
Qed.

Lemma zth_ok (l : list Z) (i : nat) : Forall is_byte l -> is_byte (zth l i).
Proof.
  intros H. unfold zth. destruct (Nat.lt_ge_cases i (length l)) as [Hi|Hi].
  - rewrite Forall_forall in H. apply H. apply list_elem_of_In. now apply nth_In.
  - rewrite nth_overflow by lia. unfold is_byte. lia.
Qed.

Lemma fold_left_inv {S A} (P : S -> Prop) (f : S -> A -> S) (l : list A) (s : S) :
  P s -> (forall s a, P s -> P (f s a)) -> P (fold_left f l s).
Proof.
  intros Hs Hf. revert s Hs. induction l; simpl; auto.
Qed.

(** ** SHA-256 digests have 32 bytes *)

Lemma sha256_length (m : bytes) : length (Sha256.sha256 m) = 32%nat.
Proof. reflexivity. Qed.

(** ** AES-128: every cell stays a byte and every index stays in range *)

Definition row_ok (r : list Z) : Prop := length r = 4%nat /\ Forall is_byte r.
Definition state_ok (s : state) : Prop := length s = 4%nat /\ Forall row_ok s.
Definition key_ok (rk : list Z) : Prop := length rk = 16%nat /\ Forall is_byte rk.

Lemma SBOX_ok : Forall is_byte SBOX.
Proof.
  apply Forall_forall. intros v Hv. apply list_elem_of_In in Hv.
  assert (H : forallb (fun v => (0 <=? v) && (v <? 256)) SBOX = true)
    by (vm_compute; reflexivity).
  rewrite forallb_forall in H. specialize (H v Hv).
  apply andb_prop in H as [H0 H1]. unfold is_byte. lia.
Qed.

Lemma sbox_ok (v : Z) : is_byte (sbox v).
Proof. apply zth_ok, SBOX_ok. Qed.

Lemma RCON_ok : Forall is_byte RCON.
Proof. unfold RCON, is_byte. repeat constructor; lia. Qed.

Lemma nth_row_ok (s : state) (row : nat) :
  state_ok s -> (row < 4)%nat -> row_ok (nth row s []).
Proof.
  intros [Hl Hs] Hr. rewrite Forall_forall in Hs. apply Hs.
  apply list_elem_of_In, nth_In. lia.
Qed.

Lemma get2_ok (s : state) (row col : nat) :
  Forall row_ok s -> is_byte (get2 s row col).
Proof.
  intros Hs. unfold get2. apply zth_ok.
  destruct (Nat.lt_ge_cases row (length s)) as [Hr|Hr].
  - rewrite Forall_forall in Hs.
    apply (Hs (nth row s [])), list_elem_of_In, nth_In, Hr.
  - rewrite nth_overflow by lia. constructor.
Qed.

Lemma row_insert_ok (r : list Z) (col : nat) (v : Z) :
  row_ok r -> is_byte v -> row_ok (<[col := v]> r).
Proof.
  intros [Hl Hr] Hv. split.
  - now rewrite length_insert.
  - now apply Forall_insert.
Qed.

Lemma state_insert_ok (s : state) (row : nat) (r : list Z) :
  state_ok s -> row_ok r -> state_ok (<[row := r]> s).
Proof.
  intros [Hl Hs] Hr. split.
  - now rewrite length_insert.
  - now apply Forall_insert.
Qed.

Lemma set2_ok (s : state) (row col : nat) (v : Z) :
  state_ok s -> is_byte v -> state_ok (set2 s row col v).
Proof.
  intros Hs Hv. unfold set2.
  destruct (Nat.lt_ge_cases row 4) as [Hr|Hr].
  - apply state_insert_ok; [assumption|].
    apply row_insert_ok; [|assumption]. now apply nth_row_ok.
  - destruct Hs as [Hl Hs]. rewrite list_insert_ge by lia. now split.
Qed.

Create HintDb aes.
#[local] Hint Resolve get2_ok set2_ok sbox_ok zth_ok is_byte_lxor is_byte_land
  : aes.

Lemma for_cells_inv {S} (P : S -> Prop) (body : S -> nat -> nat -> S) (s : S) :
  P s -> (forall s row col, P s -> P (body s row col)) -> P (for_cells body s).
Proof.
  intros Hs Hb. unfold for_cells.
  apply fold_left_inv; [assumption|]. intros s' row Hs'.
  apply fold_left_inv; auto.
Qed.

Lemma bytes_to_state_ok (block : list Z) :
  Forall is_byte block -> state_ok (bytes_to_state block).
Proof.
  intros Hb. unfold bytes_to_state. simpl.
  split; [reflexivity|].
  repeat first [apply Forall_nil_2 | apply Forall_cons_2];
    (split; [reflexivity|]);
    repeat first [apply Forall_nil_2 | apply Forall_cons_2]; auto with aes.
Qed.

Lemma sub_bytes_ok (s : state) : state_ok s -> state_ok (sub_bytes s).
Proof.
  intros Hs. unfold sub_bytes. apply for_cells_inv; auto with aes.
Qed.

Lemma shift_rows_ok (s : state) : state_ok s -> state_ok (shift_rows s).
Proof.
  intros Hs0. unfold shift_rows.
  apply (fold_left_inv state_ok); [assumption|]. clear. intros s row Hs.
  destruct (Nat.lt_ge_cases row 4) as [Hr|Hr].
  - apply state_insert_ok; [assumption|].
    destruct (nth_row_ok s row Hs Hr) as [Hl Hf]. split.
    + rewrite length_app, length_drop, length_take. lia.
    + apply Forall_app. split; [now apply Forall_drop | now apply Forall_take].
  - destruct Hs as [Hl Hs]. rewrite list_insert_ge by lia. now split.
Qed.

Lemma xtime_ok (v : Z) : is_byte (xtime v).
Proof. unfold xtime. apply is_byte_land. Qed.

Lemma gf_mul_ok (a b : Z) : is_byte a -> is_byte (gf_mul a b).
Proof.
  intros Ha. unfold gf_mul.
  set (step := fun '(result, a, b) (_ : nat) =>
                 (if Z.land b 1 =? 0 then result else Z.lxor result a,
                  xtime a, Z.shiftr b 1)).
  set (inv := fun st : Z * Z * Z => is_byte (fst (fst st)) /\ is_byte (snd (fst st))).
  assert (H : inv (fold_left step (seq 0 8) (0, a, b))).
  { apply (fold_left_inv inv).
    - split; [unfold is_byte; simpl; lia | assumption].
    - intros [[r a'] b'] i [Hr Ha']. simpl in Hr, Ha'. unfold inv. simpl.
      split; [destruct (Z.land b' 1 =? 0); auto with aes | apply xtime_ok]. }
  destruct (fold_left step (seq 0 8) (0, a, b)) as [[r a'] b']. apply H.
Qed.

Lemma mix_single_column_ok (col : list Z) :
  Forall is_byte col -> Forall is_byte (mix_single_column col).
Proof.
  intros H. unfold mix_single_column.
  destruct col as [|a0 [|a1 [|a2 [|a3 [|]]]]]; try assumption.
  inversion H as [|? ? H0 H']; subst. inversion H' as [|? ? H1 H'']; subst.
  inversion H'' as [|? ? H2 H''']; subst. inversion H''' as [|? ? H3 _]; subst.
  assert (X : forall a b c d, is_byte a -> is_byte b -> is_byte c ->
                is_byte d -> is_byte (Z.lxor (Z.lxor (Z.lxor a b) c) d))
    by auto using is_byte_lxor.
  repeat first [apply Forall_nil_2 | apply Forall_cons_2];
    apply X; auto using gf_mul_ok.
Qed.

Lemma mix_columns_ok (s : state) : state_ok s -> state_ok (mix_columns s).
Proof.
  intros Hs0. unfold mix_columns.
  apply (fold_left_inv state_ok); [assumption|]. clear. intros s col Hs.
  assert (Hc : Forall is_byte
                 (mix_single_column (map (fun row => get2 s row col) (seq 0 4)))).
  { apply mix_single_column_ok. destruct Hs as [_ Hs]. simpl.
    repeat first [apply Forall_nil_2 | apply Forall_cons_2]; auto with aes. }
  apply fold_left_inv; auto with aes.
Qed.

Lemma add_round_key_ok (s : state) (round_key : list Z) :
  state_ok s -> Forall is_byte round_key ->
  state_ok (add_round_key s round_key).
Proof.
  intros Hs Hk. unfold add_round_key.
  apply fold_left_inv; [assumption|]. intros s1 col Hs1.
  apply fold_left_inv; [assumption|]. intros s2 row Hs2.
  apply set2_ok; [assumption|]. destruct Hs2 as [_ Hs2]. auto with aes.
Qed.

Lemma fold_left_snoc_length {A B} (g : list A -> B -> A) (l : list B)
    (ws : list A) :
  length (fold_left (fun ws i => ws ++ [g ws i]) l ws)
  = (length ws + length l)%nat.
Proof.
  revert ws. induction l as [|i l IH]; intros ws; simpl; [lia|].
  rewrite IH, length_app. simpl. lia.
Qed.

Lemma nth_ok {A} (P : A -> Prop) (l : list A) (i : nat) (d : A) :
  Forall P l -> P d -> P (nth i l d).
Proof.
  intros Hl Hd. destruct (Nat.lt_ge_cases i (length l)) as [Hi|Hi].
  - rewrite Forall_forall in Hl. apply Hl, list_elem_of_In, nth_In, Hi.
  - now rewrite nth_overflow by lia.
Qed.

Lemma nth_in_range_ok {A} (P : A -> Prop) (l : list A) (i : nat) (d : A) :
  Forall P l -> (i < length l)%nat -> P (nth i l d).
Proof.
  intros Hl Hi. rewrite Forall_forall in Hl.
  apply Hl, list_elem_of_In, nth_In, Hi.
Qed.

(** The key schedule of a 16-byte key: eleven round keys of sixteen bytes. *)
Lemma expand_key_ok (key : bytes) :
  length key = 16%nat ->
  exists rks, expand_key key = Ok rks /\ length rks = 11%nat /\
              Forall key_ok rks.
Proof.
  intros Hk. unfold expand_key. rewrite Hk. cbn [Nat.eqb negb].
  match goal with
  | |- exists rks, Ok (map ?f (seq 0 11)) = Ok rks /\ _ =>
      exists (map f (seq 0 11))
  end.
  split; [reflexivity|]. split; [now rewrite length_map, length_seq|].
  match goal with
  | |- context [fold_left ?step (seq 4 40) ?init] =>
      set (words := fold_left step (seq 4 40) init);
      assert (Hlen : length words = 44%nat);
      [ | assert (Hws : Forall row_ok words) ]
  end.
  - subst words. rewrite fold_left_snoc_length. reflexivity.
  - subst words. apply (fold_left_inv (Forall row_ok)).
    + cbn [map seq].
      repeat first [apply Forall_nil_2 | apply Forall_cons_2];
        (split; [ unfold ints_of_bytes, slice;
                  rewrite length_map, length_take, length_drop; lia
                | apply ints_of_bytes_ok ]).
    + intros ws i Hws. apply Forall_app. split; [assumption|].
      apply Forall_cons_2; [|apply Forall_nil_2]. split.
      * now rewrite length_map, length_seq.
      * cbn [map seq].
        repeat first [apply Forall_nil_2 | apply Forall_cons_2];
          apply is_byte_land.
  - apply Forall_forall. intros rk Hrk.
    apply list_elem_of_In, in_map_iff in Hrk as (k & <- & Hin).
    apply in_seq in Hin. cbn [map seq concat].
    assert (Hw : forall j, (j < 4)%nat -> row_ok (nth (4 * k + j) words []))
      by (intros j Hj; apply nth_in_range_ok; [assumption | lia]).
    destruct (Hw 0%nat) as [L0 B0]; [lia|].
    destruct (Hw 1%nat) as [L1 B1]; [lia|].
    destruct (Hw 2%nat) as [L2 B2]; [lia|].
    destruct (Hw 3%nat) as [L3 B3]; [lia|].
    split.
    + rewrite !length_app, L0, L1, L2, L3. reflexivity.
    + repeat (apply Forall_app; split); auto using Forall_nil_2.
Qed.

Lemma round_key_bytes (rks : list (list Z)) (rnd : nat) :
  Forall key_ok rks -> Forall is_byte (nth rnd rks []).
Proof.
  intros H.
  apply (nth_ok (fun rk => Forall is_byte rk)); [|apply Forall_nil_2].
  eapply Forall_impl; [exact H|]. intros rk [_ Hrk]. exact Hrk.
Qed.

Lemma aes_round_ok (rks : list (list Z)) (s : state) (rnd : nat) :
  Forall key_ok rks -> state_ok s -> state_ok (aes_round rks s rnd).
Proof.
  intros Hk Hs. unfold aes_round.
  auto using add_round_key_ok, mix_columns_ok, shift_rows_ok, sub_bytes_ok,
    round_key_bytes.
Qed.

Lemma state_to_bytes_total (s : state) :
  state_ok s ->
  exists bs, state_to_bytes s = Ok bs /\ length bs = 16%nat.
Proof.
  intros [_ Hs]. unfold state_to_bytes.
  match goal with
  | |- context [bytes_of_ints ?o] => set (out := o)
  end.
  assert (Hout : length out = 16%nat /\ Forall is_byte out).
  { subst out.
    apply (for_cells_inv (fun o => length o = 16%nat /\ Forall is_byte o)).
    - split; [reflexivity|]. apply Forall_replicate. unfold is_byte. lia.
    - intros o row col [Hl Ho]. split.
      + now rewrite length_insert.
      + apply Forall_insert; [assumption | now apply get2_ok]. }
  destruct Hout as [Hl Ho].
  destruct (bytes_of_ints_total out Ho) as (bs & -> & Ebs).
  exists bs. split; [reflexivity|].
  rewrite <- Hl, <- Ebs. unfold ints_of_bytes. now rewrite length_map.
Qed.

(** On a 16-byte key and a 16-byte block the cipher returns 16 bytes. *)
Lemma aes_encrypt_block_total (key block : bytes) :
  length key = 16%nat -> length block = 16%nat ->
  exists ct, aes_encrypt_block key block = Ok ct /\ length ct = 16%nat.
Proof.
  intros Hk Hb. unfold aes_encrypt_block. rewrite Hb. cbn [Nat.eqb negb].
  destruct (expand_key_ok key Hk) as (rks & -> & _ & Hrks). cbn [bind].
  apply state_to_bytes_total.
  apply add_round_key_ok; [|now apply round_key_bytes].
  apply shift_rows_ok, sub_bytes_ok.
  apply (fold_left_inv state_ok); [|intros; now apply aes_round_ok].
  apply add_round_key_ok; [|now apply round_key_bytes].
  apply bytes_to_state_ok, ints_of_bytes_ok.
Qed.

(** The cipher checks the block length first, then the key length, and
    raises nothing else. *)
Lemma expand_key_bad_length (key : bytes) :
  length key <> 16%nat -> expand_key key = Err InvalidKeyLength.
Proof.
  intros Hk. unfold expand_key.
  destruct (Nat.eqb_spec (length key) 16) as [E|E]; [contradiction|reflexivity].
Qed.

Lemma aes_encrypt_block_bad_block (key block : bytes) :
  length block <> 16%nat ->
  aes_encrypt_block key block = Err InvalidBlockLength.
Proof.
  intros Hb. unfold aes_encrypt_block.
  destruct (Nat.eqb_spec (length block) 16) as [E|E]; [contradiction|reflexivity].
Qed.

Lemma aes_encrypt_block_bad_key (key block : bytes) :
  length block = 16%nat -> length key <> 16%nat ->
  aes_encrypt_block key block = Err InvalidKeyLength.
Proof.
  intros Hb Hk. unfold aes_encrypt_block. rewrite Hb.
  rewrite (expand_key_bad_length key Hk). reflexivity.
Qed.

Lemma aes_encrypt_block_key_error (key block : bytes) :
  aes_encrypt_block key block = Err InvalidKeyLength ->
  length block = 16%nat /\ length key <> 16%nat.
Proof.
  intros H.
  destruct (Nat.eq_dec (length block) 16%nat) as [Hb|Hb].
  - split; [assumption|]. intros Hk.
    destruct (aes_encrypt_block_total key block Hk Hb) as (ct & E & _).
    congruence.
  - rewrite (aes_encrypt_block_bad_block key block Hb) in H. discriminate.
Qed.

Lemma aes_encrypt_block_block_error (key block : bytes) :
  aes_encrypt_block key block = Err InvalidBlockLength ->
  length block <> 16%nat.
Proof.
  intros H Hb.
  destruct (Nat.eq_dec (length key) 16%nat) as [Hk|Hk].
  - destruct (aes_encrypt_block_total key block Hk Hb) as (ct & E & _).
    congruence.
  - rewrite (aes_encrypt_block_bad_key key block Hb Hk) in H. discriminate.
Qed.

(** ** Blob codec: what a successful parse tells *)

Definition valid_prefix (cs : list ascii) : Prop :=
  take 2 cs = list_ascii_of_string "01" \/ take 2 cs = list_ascii_of_string "03".

Definition checksum_ok (raw : bytes) : Prop :=
  take 8 (Sha256.sha256 (take 36 raw)) = slice 36 44 raw.

Definition record_of (raw : bytes) : PasswordRecord :=
  {| secret := take 32 raw;
     min_seed := int_from_bytes_big (slice 32 34 raw);
     algo_id := int_from_bytes_big (slice 34 36 raw) |}.

Lemma valid_prefix_decide (cs : list ascii) :
  bool_decide (take 2 cs = list_ascii_of_string "01")
  || bool_decide (take 2 cs = list_ascii_of_string "03") = true
  <-> valid_prefix cs.
Proof.
  unfold valid_prefix. rewrite orb_true_iff, !bool_decide_eq_true. tauto.
Qed.

(** The result of [parse_password_blob] once the checks before the
    checksum comparison have passed. *)
Lemma parse_after_checks (blob : string) (raw : bytes) :
  let cs := list_ascii_of_string blob in
  (62 <= length cs)%nat -> valid_prefix cs -> length (drop 2 cs) = 60%nat ->
  Base64.b64decode (drop 2 cs) = Some raw -> length raw = 44%nat ->
  parse_password_blob blob =
    if bool_decide (checksum_ok raw) then Ok (record_of raw)
    else Err AuthenticityError.
Proof.
  intros cs Hlen Hpre Hpay Hdec Hraw. unfold parse_password_blob.
  fold cs.
  destruct (Nat.ltb_spec (length cs) 62) as [Hlt|_]; [lia|].
  rewrite (proj2 (valid_prefix_decide cs) Hpre). cbn [negb].
  rewrite Hpay. cbn [Nat.eqb negb]. rewrite Hdec, Hraw. cbn [Nat.eqb negb].
  unfold checksum_ok, record_of.
  destruct (bool_decide _); reflexivity.
Qed.

Lemma parse_ok_inv (blob : string) (r : PasswordRecord) :
  parse_password_blob blob = Ok r ->
  let cs := list_ascii_of_string blob in
  exists raw,
    length cs = 62%nat /\ valid_prefix cs /\
    Base64.b64decode (drop 2 cs) = Some raw /\ length raw = 44%nat /\
    checksum_ok raw /\ r = record_of raw.
Proof.
  intros H cs. unfold parse_password_blob in H. fold cs in H.
  destruct (Nat.ltb_spec (length cs) 62) as [Hlt|Hge]; [discriminate|].
  destruct (bool_decide (take 2 cs = list_ascii_of_string "01")
            || bool_decide (take 2 cs = list_ascii_of_string "03")) eqn:Hpre;
    [|discriminate].
  apply valid_prefix_decide in Hpre.
  destruct (Nat.eqb_spec (length (drop 2 cs)) 60) as [Hpay|Hpay];
    [|discriminate].
  destruct (Base64.b64decode (drop 2 cs)) as [raw|] eqn:Hdec; [|discriminate].
  destruct (Nat.eqb_spec (length raw) 44) as [Hraw|Hraw]; [|discriminate].
  destruct (bool_decide (take 8 (Sha256.sha256 (take 36 raw)) = slice 36 44 raw))
    eqn:Hsum; [|discriminate].
  apply bool_decide_eq_true in Hsum. exists raw.
  rewrite length_drop in Hpay.
  repeat split; try assumption; try lia. now inversion H.
Qed.

(** The errors [parse_password_blob] can raise. *)
Definition parse_error (e : error) : Prop :=
  e = BlobTooShort \/ e = UnsupportedPrefix \/ e = PayloadLength \/
  e = Base64Invalid \/ e = DecodedLength \/ e = AuthenticityError.

Lemma parse_err_inv (blob : string) (e : error) :
  parse_password_blob blob = Err e -> parse_error e.
Proof.
  unfold parse_password_blob, parse_error.
  repeat match goal with
         | |- (if ?c then _ else _) = _ -> _ => destruct c
         | |- match ?c with Some _ => _ | None => _ end = _ -> _ => destruct c
         end; intros H; inversion H; tauto.
Qed.

Lemma int_from_bytes_big_2 (bs : bytes) :
  length bs = 2%nat -> 0 <= int_from_bytes_big bs < 65536.
Proof.
  destruct bs as [|a [|b [|]]]; try discriminate. intros _.
  unfold int_from_bytes_big. simpl.
  pose proof (Z_of_byte_range a). pose proof (Z_of_byte_range b).
  unfold is_byte in *. lia.
Qed.

(** A parsed record has a 32-byte secret and 16-bit fields. *)
Lemma parse_ok_record (blob : string) (r : PasswordRecord) :
  parse_password_blob blob = Ok r ->
  length (secret r) = 32%nat /\ 0 <= min_seed r < 65536 /\
  0 <= algo_id r < 65536.
Proof.
  intros H. destruct (parse_ok_inv blob r H) as (raw & _ & _ & _ & Hraw & _ & ->).
  unfold record_of. cbn [secret min_seed algo_id].
  split; [rewrite length_take; lia|].
  split; apply int_from_bytes_big_2; unfold slice;
    rewrite length_take, length_drop; lia.
Qed.

(** ** Hash chain *)

Lemma fold_left_const_iter {A B} (f : A -> A) (l : list B) (a : A) :
  fold_left (fun d _ => f d) l a = Nat.iter (length l) f a.
Proof.
  revert a. induction l as [|x l IH]; intros a; simpl; [reflexivity|].
  rewrite IH. clear IH. induction (length l); simpl; congruence.
Qed.

Lemma run_hash_chain_iter (secret : bytes) (iterations : Z) :
  run_hash_chain secret iterations
  = Nat.iter (Z.to_nat iterations) Sha256.sha256 secret.
Proof.
  unfold run_hash_chain. now rewrite fold_left_const_iter, length_seq.
Qed.

Lemma counted_fold {B} (l : list B) (digest : bytes) (calls : nat) :
  fold_left (fun '(digest, calls) (_ : B) => (Sha256.sha256 digest, S calls))
            l (digest, calls)
  = (fold_left (fun digest _ => Sha256.sha256 digest) l digest,
     (calls + length l)%nat).
Proof.
  revert digest calls. induction l as [|x l IH]; intros digest calls.
  - cbn [fold_left length]. f_equal. lia.
  - cbn [fold_left length]. rewrite IH. f_equal. lia.
Qed.

Lemma run_hash_chain_counted_eq (secret : bytes) (iterations : Z) :
  run_hash_chain_counted secret iterations
  = (run_hash_chain secret iterations, Z.to_nat iterations).
Proof.
  unfold run_hash_chain_counted, run_hash_chain.
  now rewrite counted_fold, length_seq.
Qed.

Lemma run_hash_chain_length (secret : bytes) (iterations : Z) :
  length secret = 32%nat ->
  length (run_hash_chain secret iterations) = 32%nat.
Proof.
  intros Hs. unfold run_hash_chain.
  apply (fold_left_inv (fun d : bytes => length d = 32%nat)); [assumption|].
  intros d i _. apply sha256_length.
Qed.

(** ** Derivation pipeline: the four outcomes after a successful parse *)

Definition seed_tail (seed : bytes) : Z := Z_of_byte (nth 4 seed x00).

Definition seed_block (seed : bytes) : bytes :=
  take 11 (replicate 16 xff) ++ seed ++ drop 16 (replicate 16 xff).

Lemma seed_block_eq (seed : bytes) : seed_block seed = replicate 11 xff ++ seed.
Proof. unfold seed_block. cbn [replicate take drop]. now rewrite app_nil_r. Qed.

Lemma seed_block_length (seed : bytes) :
  length seed = 5%nat -> length (seed_block seed) = 16%nat.
Proof.
  intros H. rewrite seed_block_eq, length_app, length_replicate. lia.
Qed.

Lemma seed_tail_range (seed : bytes) : 0 <= seed_tail seed < 256.
Proof. apply Z_of_byte_range. Qed.

Lemma derive_after_parse (blob : string) (seed : bytes) (algo : Z)
    (r : PasswordRecord) :
  parse_password_blob blob = Ok r ->
  derive_key_from_blob blob seed algo =
    if negb (Z.eqb algo (algo_id r)) then Err AlgorithmMismatch
    else if negb (Nat.eqb (length seed) 5) then Err InvalidSeedLength
    else if Z.ltb (255 - seed_tail seed) (min_seed r) then Err SeedRejected
    else
      let iterations := 255 - seed_tail seed - min_seed r in
      let aes_key := take 16 (run_hash_chain (secret r) iterations) in
      ct <- aes_encrypt_block aes_key (seed_block seed);;;
      Ok (take 5 ct, iterations, aes_key).
Proof.
  intros H. unfold derive_key_from_blob. rewrite H. reflexivity.
Qed.

Lemma derive_parse_failed (blob : string) (seed : bytes) (algo : Z) (e : error) :
  parse_password_blob blob = Err e ->
  derive_key_from_blob blob seed algo = Err e.
Proof.
  intros H. unfold derive_key_from_blob. rewrite H. reflexivity.
Qed.

Lemma derive_key_length (r : PasswordRecord) (iterations : Z) :
  length (secret r) = 32%nat ->
  length (take 16 (run_hash_chain (secret r) iterations)) = 16%nat.
Proof.
  intros H. rewrite length_take, (run_hash_chain_length _ _ H). reflexivity.
Qed.

(** When every check passes, the cipher is called on a 16-byte key and a
    16-byte block and the triple is built from its result. *)
Lemma derive_success (blob : string) (seed : bytes) (algo : Z)
    (r : PasswordRecord) :
  parse_password_blob blob = Ok r -> algo = algo_id r ->
  length seed = 5%nat -> min_seed r <= 255 - seed_tail seed ->
  let iterations := 255 - seed_tail seed - min_seed r in
  let aes_key := take 16 (run_hash_chain (secret r) iterations) in
  exists ct,
    aes_encrypt_block aes_key (seed_block seed) = Ok ct /\
    length ct = 16%nat /\
    derive_key_from_blob blob seed algo = Ok (take 5 ct, iterations, aes_key).
Proof.
  intros Hp Ha Hs Hm iterations aes_key.
  destruct (parse_ok_record blob r Hp) as (Hsec & _ & _).
  destruct (aes_encrypt_block_total aes_key (seed_block seed)) as (ct & Hct & Hl).
  { now apply derive_key_length. }
  { now apply seed_block_length. }
  exists ct. split; [assumption|]. split; [assumption|].
  rewrite (derive_after_parse blob seed algo r Hp).
  rewrite (proj2 (Z.eqb_eq algo (algo_id r)) Ha), Hs. cbn [negb Nat.eqb].
  destruct (Z.ltb_spec (255 - seed_tail seed) (min_seed r)) as [Hlt|_]; [lia|].
  cbv zeta. fold iterations. fold aes_key. rewrite Hct. reflexivity.
Qed.

(** Every outcome of [derive_key_from_blob]. *)
Inductive derive_outcome (blob : string) (seed : bytes) (algo : Z)
    : result (bytes * Z * bytes) -> Prop :=
| DeriveParseError e :
    parse_password_blob blob = Err e -> parse_error e ->
    derive_outcome blob seed algo (Err e)
| DeriveMismatch r :
    parse_password_blob blob = Ok r -> algo <> algo_id r ->
    derive_outcome blob seed algo (Err AlgorithmMismatch)
| DeriveSeedLength r :
    parse_password_blob blob = Ok r -> algo = algo_id r ->
    length seed <> 5%nat ->
    derive_outcome blob seed algo (Err InvalidSeedLength)
| DeriveRejected r :
    parse_password_blob blob = Ok r -> algo = algo_id r ->
    length seed = 5%nat -> min_seed r > 255 - seed_tail seed ->
    derive_outcome blob seed algo (Err SeedRejected)
| DeriveOk r ct :
    parse_password_blob blob = Ok r -> algo = algo_id r ->
    length seed = 5%nat -> min_seed r <= 255 - seed_tail seed ->
    aes_encrypt_block
      (take 16 (run_hash_chain (secret r) (255 - seed_tail seed - min_seed r)))
      (seed_block seed) = Ok ct ->
    length ct = 16%nat ->
    derive_outcome blob seed algo
      (Ok (take 5 ct, 255 - seed_tail seed - min_seed r,
           take 16 (run_hash_chain (secret r)
                      (255 - seed_tail seed - min_seed r)))).

Lemma derive_key_from_blob_outcome (blob : string) (seed : bytes) (algo : Z) :
  derive_outcome blob seed algo (derive_key_from_blob blob seed algo).
Proof.
  destruct (parse_password_blob blob) as [r|e] eqn:Hp.
  - destruct (Z.eqb_spec algo (algo_id r)) as [Ha|Ha].
    + destruct (Nat.eq_dec (length seed) 5%nat) as [Hs|Hs].
      * destruct (Z.ltb_spec (255 - seed_tail seed) (min_seed r)) as [Hm|Hm].
        -- rewrite (derive_after_parse blob seed algo r Hp).
           rewrite (proj2 (Z.eqb_eq _ _) Ha), Hs. cbn [negb Nat.eqb].
           rewrite (proj2 (Z.ltb_lt _ _) Hm).
           eapply DeriveRejected; eauto. lia.
        -- destruct (derive_success blob seed algo r Hp Ha Hs Hm)
             as (ct & Hct & Hl & ->).
           now apply DeriveOk.
      * rewrite (derive_after_parse blob seed algo r Hp).
        rewrite (proj2 (Z.eqb_eq _ _) Ha). cbn [negb].
        rewrite (proj2 (Nat.eqb_neq _ _) Hs). cbn [negb].
        eapply DeriveSeedLength; eauto.
    + rewrite (derive_after_parse blob seed algo r Hp).
      rewrite (proj2 (Z.eqb_neq _ _) Ha). cbn [negb].
      eapply DeriveMismatch; eauto.
  - rewrite (derive_parse_failed blob seed algo e Hp).
    apply DeriveParseError; [assumption|]. eapply parse_err_inv; eauto.
Qed.

(** ** Base64: decoding an encoded payload gives the payload back *)

Module Base64Facts.
Import Base64.

Lemma list_ind3 {A} (P : list A -> Prop) :
  P [] -> (forall a, P [a]) -> (forall a b, P [a; b]) ->
  (forall a b c l, P l -> P (a :: b :: c :: l)) ->
  forall l, P l.
Proof.
  intros H0 H1 H2 H3.
  assert (H : forall l, P l /\ (forall a, P (a :: l)) /\
                        (forall a b, P (a :: b :: l))).
  { induction l as [|x l (IH0 & IH1 & IH2)]; [now auto|].
    split; [apply IH1|]. split; [intros; apply IH2|]. intros; now apply H3. }
  intros l. apply H.
Qed.

Definition sextet (v : Z) : Prop := 0 <= v < 64.

Lemma sextet_land (v : Z) : sextet (Z.land v 63).
Proof.
  unfold sextet. change 63 with (Z.ones 6). rewrite Z.land_ones by lia.
  apply Z.mod_pos_bound. lia.
Qed.

(** Every 6-bit value has its own alphabet character, none of them [=]. *)
Lemma b64_char_value (v : Z) :
  sextet v ->
  b64_value (b64_char v) = Some v /\ Ascii.eqb (b64_char v) pad_char = false.
Proof.
  intros Hv.
  assert (H : forallb
                (fun n =>
                   match b64_value (b64_char (Z.of_nat n)) with
                   | Some w => Z.eqb w (Z.of_nat n)
                   | None => false
                   end && negb (Ascii.eqb (b64_char (Z.of_nat n)) pad_char))
                (seq 0 64) = true) by (vm_compute; reflexivity).
  rewrite forallb_forall in H. unfold sextet in Hv.
  assert (Hin : In (Z.to_nat v) (seq 0 64)) by (apply in_seq; lia).
  specialize (H (Z.to_nat v) Hin). rewrite Z2Nat.id in H by lia.
  apply andb_prop in H as [H1 H2].
  destruct (b64_value (b64_char v)) as [w|]; [|discriminate].
  apply Z.eqb_eq in H1. subst w. split; [reflexivity|].
  now apply negb_true_iff.
Qed.

(** Facts about one or two bytes are checked on all of them. *)
Lemma forall_bytes2 (P : Z -> Z -> bool) :
  forallb (fun a => forallb (fun b => P (Z.of_nat a) (Z.of_nat b)) (seq 0 256))
          (seq 0 256) = true ->
  forall a b, is_byte a -> is_byte b -> P a b = true.
Proof.
  intros H a b Ha Hb. unfold is_byte in *.
  rewrite forallb_forall in H.
  assert (Hina : In (Z.to_nat a) (seq 0 256)) by (apply in_seq; lia).
  assert (Hinb : In (Z.to_nat b) (seq 0 256)) by (apply in_seq; lia).
  specialize (H _ Hina). rewrite forallb_forall in H. specialize (H _ Hinb).
  now rewrite !Z2Nat.id in H by lia.
Qed.

Definition c0 (b0 : Z) : Z := Z.shiftr b0 2.
Definition c1 (b0 b1 : Z) : Z := Z.lor (Z.shiftl (Z.land b0 3) 4) (Z.shiftr b1 4).
Definition c2 (b1 b2 : Z) : Z := Z.lor (Z.shiftl (Z.land b1 15) 2) (Z.shiftr b2 6).
Definition c3 (b2 : Z) : Z := Z.land b2 63.

Definition sextetb (v : Z) : bool := (0 <=? v) && (v <? 64).

Lemma sextetb_sextet (v : Z) : sextetb v = true -> sextet v.
Proof. unfold sextetb, sextet. intros H. apply andb_prop in H. lia. Qed.

Lemma forall_bytes1 (P : Z -> bool) :
  forallb (fun a => P (Z.of_nat a)) (seq 0 256) = true ->
  forall a, is_byte a -> P a = true.
Proof.
  intros H a Ha. unfold is_byte in *. rewrite forallb_forall in H.
  assert (Hina : In (Z.to_nat a) (seq 0 256)) by (apply in_seq; lia).
  specialize (H _ Hina). now rewrite Z2Nat.id in H by lia.
Qed.

Ltac by_bytes2 P :=
  apply (forall_bytes2 P); [vm_compute; reflexivity | assumption | assumption].

Ltac by_bytes1 P :=
  apply (forall_bytes1 P); [vm_compute; reflexivity | assumption].

Lemma c0_sextet b0 : is_byte b0 -> sextet (c0 b0).
Proof.
  intros B0. apply sextetb_sextet. by_bytes1 (fun b0 => sextetb (c0 b0)).
Qed.

Lemma c1_sextet b0 b1 : is_byte b0 -> is_byte b1 -> sextet (c1 b0 b1).
Proof.
  intros B0 B1. apply sextetb_sextet. by_bytes2 (fun b0 b1 => sextetb (c1 b0 b1)).
Qed.

Lemma c2_sextet b1 b2 : is_byte b1 -> is_byte b2 -> sextet (c2 b1 b2).
Proof.
  intros B1 B2. apply sextetb_sextet. by_bytes2 (fun b1 b2 => sextetb (c2 b1 b2)).
Qed.

Lemma c3_sextet b2 : sextet (c3 b2).
Proof. apply sextet_land. Qed.

Lemma out0_eq b0 b1 :
  is_byte b0 -> is_byte b1 ->
  Z.lor (Z.shiftl (c0 b0) 2) (Z.shiftr (c1 b0 b1) 4) = b0.
Proof.
  intros B0 B1. apply Z.eqb_eq.
  by_bytes2 (fun b0 b1 =>
               Z.eqb (Z.lor (Z.shiftl (c0 b0) 2) (Z.shiftr (c1 b0 b1) 4)) b0).
Qed.

Lemma out1_eq b0 b1 b2 :
  is_byte b1 -> is_byte b2 ->
  Z.lor (Z.shiftl (Z.land (c1 b0 b1) 15) 4) (Z.shiftr (c2 b1 b2) 2) = b1.
Proof.
  intros B1 B2.
  replace (Z.land (c1 b0 b1) 15) with (Z.shiftr b1 4).
  - apply Z.eqb_eq.
    by_bytes2 (fun b1 b2 =>
                 Z.eqb (Z.lor (Z.shiftl (Z.shiftr b1 4) 4)
                              (Z.shiftr (c2 b1 b2) 2)) b1).
  - unfold c1. rewrite Z.land_lor_distr_l.
    replace (Z.land (Z.shiftl (Z.land b0 3) 4) 15) with 0.
    + rewrite Z.lor_0_l. symmetry. apply Z.eqb_eq.
      by_bytes1 (fun b1 => Z.eqb (Z.land (Z.shiftr b1 4) 15) (Z.shiftr b1 4)).
    + symmetry. change 15 with (Z.ones 4). rewrite Z.land_ones by lia.
      rewrite Z.shiftl_mul_pow2 by lia. change (2 ^ 4) with 16.
      apply Z.mod_mul. lia.
Qed.

Lemma out2_eq b1 b2 :
  is_byte b2 ->
  Z.lor (Z.shiftl (Z.land (c2 b1 b2) 3) 6) (c3 b2) = b2.
Proof.
  intros B2.
  replace (Z.land (c2 b1 b2) 3) with (Z.shiftr b2 6).
  - apply Z.eqb_eq.
    by_bytes1 (fun b2 =>
                 Z.eqb (Z.lor (Z.shiftl (Z.shiftr b2 6) 6) (c3 b2)) b2).
  - unfold c2. rewrite Z.land_lor_distr_l.
    replace (Z.land (Z.shiftl (Z.land b1 15) 2) 3) with 0.
    + rewrite Z.lor_0_l. symmetry. apply Z.eqb_eq.
      by_bytes1 (fun b2 => Z.eqb (Z.land (Z.shiftr b2 6) 3) (Z.shiftr b2 6)).
    + symmetry. change 3 with (Z.ones 2). rewrite Z.land_ones by lia.
      rewrite Z.shiftl_mul_pow2 by lia. change (2 ^ 2) with 4.
      apply Z.mod_mul. lia.
Qed.

(** The last, shorter group of one or two bytes. *)
Lemma c1_short_sextet b0 : is_byte b0 -> sextet (c1 b0 0).
Proof. intros B0. apply c1_sextet; [assumption | unfold is_byte; lia]. Qed.

Lemma c2_short_sextet b1 : is_byte b1 -> sextet (c2 b1 0).
Proof. intros B1. apply c2_sextet; [assumption | unfold is_byte; lia]. Qed.

Lemma c1_short b0 : Z.shiftl (Z.land b0 3) 4 = c1 b0 0.
Proof. unfold c1. now rewrite Z.shiftr_0_l, Z.lor_0_r. Qed.

Lemma c2_short b1 : Z.shiftl (Z.land b1 15) 2 = c2 b1 0.
Proof. unfold c2. now rewrite Z.shiftr_0_l, Z.lor_0_r. Qed.

Lemma encode_ints_cons3 b0 b1 b2 rest :
  encode_ints (b0 :: b1 :: b2 :: rest)
  = b64_char (c0 b0) :: b64_char (c1 b0 b1) :: b64_char (c2 b1 b2)
      :: b64_char (c3 b2) :: encode_ints rest.
Proof. reflexivity. Qed.

Lemma encode_ints_1 b0 :
  encode_ints [b0]
  = [b64_char (c0 b0); b64_char (c1 b0 0); pad_char; pad_char].
Proof. cbn [encode_ints]. now rewrite c1_short. Qed.

Lemma encode_ints_2 b0 b1 :
  encode_ints [b0; b1]
  = [b64_char (c0 b0); b64_char (c1 b0 b1); b64_char (c2 b1 0); pad_char].
Proof. cbn [encode_ints]. now rewrite c2_short. Qed.

(** One step of the decoder on the character of a 6-bit value. *)
Lemma a2b_data (v : Z) cs quad_pos leftchar pads out :
  sextet v ->
  a2b (b64_char v :: cs) quad_pos leftchar pads out =
    match quad_pos with
    | 0%nat => a2b cs 1 v 0 out
    | 1%nat =>
        a2b cs 2 (Z.land v 0x0f) 0
            (out ++ [Z.lor (Z.shiftl leftchar 2) (Z.shiftr v 4)])
    | 2%nat =>
        a2b cs 3 (Z.land v 0x03) 0
            (out ++ [Z.lor (Z.shiftl leftchar 4) (Z.shiftr v 2)])
    | _ => a2b cs 0 0 0 (out ++ [Z.lor (Z.shiftl leftchar 6) v])
    end.
Proof.
  intros Hv. destruct (b64_char_value v Hv) as [Hval Hpad].
  cbn [a2b]. rewrite Hpad, Hval. reflexivity.
Qed.

Lemma zero_byte : is_byte 0.
Proof. unfold is_byte. lia. Qed.

Lemma a2b_encode_ints (l : list Z) :
  Forall is_byte l ->
  forall leftchar pads out,
    a2b (encode_ints l) 0 leftchar pads out = Some (out ++ l).
Proof.
  induction l as [|b0|b0 b1|b0 b1 b2 rest IH] using list_ind3;
    intros Hl leftchar pads out.
  - cbn [encode_ints a2b Nat.eqb]. now rewrite app_nil_r.
  - apply Forall_cons in Hl as [B0 _].
    rewrite encode_ints_1.
    rewrite a2b_data by now apply c0_sextet.
    rewrite a2b_data by (apply c1_sextet; auto using zero_byte).
    rewrite out0_eq by auto using zero_byte. reflexivity.
  - apply Forall_cons in Hl as [B0 Hl]. apply Forall_cons in Hl as [B1 _].
    rewrite encode_ints_2.
    rewrite a2b_data by now apply c0_sextet.
    rewrite a2b_data by now apply c1_sextet.
    rewrite a2b_data by (apply c2_sextet; auto using zero_byte).
    rewrite out0_eq, out1_eq by auto using zero_byte.
    cbn [a2b]. change (Ascii.eqb pad_char pad_char) with true.
    cbn [Nat.leb Nat.add]. now rewrite <- app_assoc.
  - apply Forall_cons in Hl as [B0 Hl]. apply Forall_cons in Hl as [B1 Hl].
    apply Forall_cons in Hl as [B2 Hl].
    rewrite encode_ints_cons3.
    rewrite a2b_data by now apply c0_sextet.
    rewrite a2b_data by now apply c1_sextet.
    rewrite a2b_data by now apply c2_sextet.
    rewrite a2b_data by apply c3_sextet.
    rewrite out0_eq, out1_eq, out2_eq by assumption.
    rewrite IH by assumption. now rewrite <- !app_assoc.
Qed.

Lemma skip_data_char (v : Z) cs :
  sextet v -> skip_data (b64_char v :: cs) = skip_data cs.
Proof.
  intros Hv. destruct (b64_char_value v Hv) as [Hval _].
  cbn [skip_data]. unfold is_b64_char. now rewrite Hval.
Qed.

Lemma valid_shape_encode_ints (l : list Z) :
  Forall is_byte l -> valid_shape (encode_ints l) = true.
Proof.
  unfold valid_shape.
  induction l as [|b0|b0 b1|b0 b1 b2 rest IH] using list_ind3; intros Hl.
  - reflexivity.
  - apply Forall_cons in Hl as [B0 _]. rewrite encode_ints_1.
    rewrite !skip_data_char
      by first [now apply c0_sextet | apply c1_sextet; auto using zero_byte].
    reflexivity.
  - apply Forall_cons in Hl as [B0 Hl]. apply Forall_cons in Hl as [B1 _].
    rewrite encode_ints_2.
    rewrite !skip_data_char
      by first [now apply c0_sextet | now apply c1_sextet
               | apply c2_sextet; auto using zero_byte].
    reflexivity.
  - apply Forall_cons in Hl as [B0 Hl]. apply Forall_cons in Hl as [B1 Hl].
    apply Forall_cons in Hl as [B2 Hl]. rewrite encode_ints_cons3.
    rewrite !skip_data_char
      by first [now apply c0_sextet | now apply c1_sextet
               | now apply c2_sextet | apply c3_sextet].
    now apply IH.
Qed.

Lemma encode_ints_length (l : list Z) :
  length (encode_ints l) = (4 * ((length l + 2) / 3))%nat.
Proof.
  induction l as [|b0|b0 b1|b0 b1 b2 rest IH] using list_ind3;
    try reflexivity.
  rewrite encode_ints_cons3. cbn [length]. rewrite IH.
  replace (S (S (S (length rest))) + 2)%nat
    with (length rest + 2 + 1 * 3)%nat by lia.
  rewrite Nat.div_add by lia. lia.
Qed.

(** [b64decode(b64encode(bs)) == bs]. *)
Lemma b64decode_b64encode (bs : bytes) : b64decode (b64encode bs) = Some bs.
Proof.
  unfold b64decode, b64encode.
  rewrite valid_shape_encode_ints by apply ints_of_bytes_ok.
  rewrite a2b_encode_ints by apply ints_of_bytes_ok.
  cbn [app]. f_equal. unfold ints_of_bytes. rewrite map_map.
  induction bs as [|b bs IH]; cbn [map]; [reflexivity|].
  now rewrite byte_of_Z_of_byte, IH.
Qed.

Lemma b64encode_length (bs : bytes) :
  length (b64encode bs) = (4 * ((length bs + 2) / 3))%nat.
Proof.
  unfold b64encode, ints_of_bytes. now rewrite encode_ints_length, length_map.
Qed.

End Base64Facts.

(** * The stated properties *)

(** ** Concrete inputs used below *)

(** The registered blob of algorithm [0x87] and the seed [8C E7 D1 FD 06]. *)
Definition blob_0x87 : string :=
  "01CQPSJqJAUF30kUuEh15kDdZqfqta9p2GrPtILEH8W7UA9QCHWt1m7fCkCFs=".

Definition seed_8ce7d1fd06 : bytes := [x8c; xe7; xd1; xfd; x06].

Definition record_0x87 : PasswordRecord :=
  Eval vm_compute in
    match parse_password_blob blob_0x87 with
    | Ok r => r
    | Err _ => {| secret := []; min_seed := 0; algo_id := 0 |}
    end.

Example parse_blob_0x87 : parse_password_blob blob_0x87 = Ok record_0x87.
Proof. vm_compute. reflexivity. Qed.

Example record_0x87_fields :
  min_seed record_0x87 = 245 /\ algo_id record_0x87 = 0x87 /\
  length (secret record_0x87) = 32%nat.
Proof. repeat split. Qed.

(** Every blob of the built-in table parses, carries the algorithm id it is
    registered under and the threshold 245. *)
Example password_table_parses :
  forallb (fun '(k, blob) =>
             match parse_password_blob blob with
             | Ok r => Z.eqb (algo_id r) k && Z.eqb (min_seed r) 245
             | Err _ => false
             end) PASSWORD_TABLE = true.
Proof. vm_compute. reflexivity. Qed.

Example derive_0x87 :
  result_hex (derive_key_from_algo 0x87 seed_8ce7d1fd06 None)
  = Ok ("efc97ca6a6"%string, 4, "df7f64d2dddac1a18f1b4d4a191610f9"%string).
Proof. vm_compute. reflexivity. Qed.

(** ** C1 *)

(** C1: on the FIPS-197 (appendix C.1) inputs, the 16-byte key
    000102030405060708090a0b0c0d0e0f and the 16-byte plaintext
    00112233445566778899aabbccddeeff, [aes_encrypt_block] returns exactly
    the ciphertext 69c4e0d86a7b0430d8cdb78070b4c55a. *)
Theorem aes_encrypt_block_fips197 :
  let key := [x00; x01; x02; x03; x04; x05; x06; x07;
              x08; x09; x0a; x0b; x0c; x0d; x0e; x0f] in
  let plaintext := [x00; x11; x22; x33; x44; x55; x66; x77;
                    x88; x99; xaa; xbb; xcc; xdd; xee; xff] in
  length key = 16%nat /\ length plaintext = 16%nat /\
  aes_encrypt_block key plaintext
  = Ok [x69; xc4; xe0; xd8; x6a; x7b; x04; x30;
        xd8; xcd; xb7; x80; x70; xb4; xc5; x5a].
Proof. vm_compute. repeat split. Qed.

Example fips197_hex :
  fromhex "000102030405060708090a0b0c0d0e0f"
  = [x00; x01; x02; x03; x04; x05; x06; x07;
     x08; x09; x0a; x0b; x0c; x0d; x0e; x0f] /\
  fromhex "69c4e0d86a7b0430d8cdb78070b4c55a"
  = [x69; xc4; xe0; xd8; x6a; x7b; x04; x30;
     xd8; xcd; xb7; x80; x70; xb4; xc5; x5a].
Proof. vm_compute. split; reflexivity. Qed.

(** ** C2 *)

(** C2: for every record obtained from a blob and every 5-byte seed that
    pass the algorithm and seed checks, [derive_key_from_blob] computes
    [digest = run_hash_chain(record.secret, iterations)], takes [aes_key]
    as the first 16 bytes of the digest, builds the 16-byte block made of
    eleven [0xFF] bytes followed by the seed, and returns as MAC the first
    5 bytes of [aes_encrypt_block(aes_key, block)], together with that
    iterations count and that key. *)
Theorem derive_key_from_blob_pipeline
    (blob : string) (seed : bytes) (algo : Z) (record : PasswordRecord) :
  parse_password_blob blob = Ok record ->
  algo = algo_id record ->
  length seed = 5%nat ->
  min_seed record <= 255 - Z_of_byte (nth 4 seed x00) ->
  let iterations := 255 - Z_of_byte (nth 4 seed x00) - min_seed record in
  let digest := run_hash_chain (secret record) iterations in
  let aes_key := take 16 digest in
  let block := replicate 11 xff ++ seed in
  length aes_key = 16%nat /\ length block = 16%nat /\
  take 11 block = replicate 11 xff /\ drop 11 block = seed /\
  exists ciphertext,
    aes_encrypt_block aes_key block = Ok ciphertext /\
    length (take 5 ciphertext) = 5%nat /\
    derive_key_from_blob blob seed algo
    = Ok (take 5 ciphertext, iterations, aes_key).
Proof.
  intros Hp Ha Hs Hm iterations digest aes_key block.
  destruct (derive_success blob seed algo record Hp Ha Hs Hm)
    as (ct & Hct & Hl & Hd).
  rewrite seed_block_eq in Hct. fold iterations digest aes_key block in Hct, Hd.
  destruct (parse_ok_record blob record Hp) as (Hsec & _ & _).
  split; [now apply derive_key_length|].
  split; [subst block; rewrite length_app, length_replicate; lia|].
  split; [reflexivity|]. split; [reflexivity|].
  exists ct. split; [assumption|]. split; [|assumption].
  rewrite length_take. lia.
Qed.

Lemma derive_key_from_blob_pipeline_witness :
  exists ciphertext,
    aes_encrypt_block
      (take 16 (run_hash_chain (secret record_0x87) 4))
      (replicate 11 xff ++ seed_8ce7d1fd06) = Ok ciphertext /\
    derive_key_from_blob blob_0x87 seed_8ce7d1fd06 0x87
    = Ok (take 5 ciphertext, 4,
          take 16 (run_hash_chain (secret record_0x87) 4)).
Proof.
  destruct (derive_key_from_blob_pipeline
              blob_0x87 seed_8ce7d1fd06 0x87 record_0x87)
    as (_ & _ & _ & _ & ct & Hct & _ & Hd).
  - vm_compute. reflexivity.
  - reflexivity.
  - reflexivity.
  - vm_compute. discriminate.
  - exists ct. split; [exact Hct | exact Hd].
Defined.

(** ** C3 *)

(** C3: for a blob that parses to a record with matching [algo_id] and a
    seed of exactly 5 bytes, [derive_key_from_blob] fails with
    [SeedRejected] if and only if [record.min_seed > 255 - seed[4]];
    otherwise it succeeds and the returned iterations equal
    [(255 - seed[4]) - record.min_seed].  In particular, when
    [seed[4] = 0xFF], a positive [min_seed] gives [SeedRejected] and
    [min_seed = 0] gives zero iterations. *)
Theorem derive_key_from_blob_seed_check
    (blob : string) (seed : bytes) (algo : Z) (record : PasswordRecord) :
  parse_password_blob blob = Ok record ->
  algo = algo_id record ->
  length seed = 5%nat ->
  let tail := Z_of_byte (nth 4 seed x00) in
  (derive_key_from_blob blob seed algo = Err SeedRejected
   <-> min_seed record > 255 - tail) /\
  (~ min_seed record > 255 - tail ->
   exists mac aes_key,
     derive_key_from_blob blob seed algo
     = Ok (mac, 255 - tail - min_seed record, aes_key)) /\
  (tail = 255 ->
   (min_seed record > 0 ->
    derive_key_from_blob blob seed algo = Err SeedRejected) /\
   (min_seed record = 0 ->
    exists mac aes_key,
      derive_key_from_blob blob seed algo = Ok (mac, 0, aes_key))).
Proof.
  intros Hp Ha Hs tail.
  destruct (Z.ltb_spec (255 - tail) (min_seed record)) as [Hlt|Hge].
  - assert (E : derive_key_from_blob blob seed algo = Err SeedRejected).
    { rewrite (derive_after_parse blob seed algo record Hp).
      rewrite (proj2 (Z.eqb_eq _ _) Ha), Hs. cbn [negb Nat.eqb].
      unfold seed_tail. fold tail. now rewrite (proj2 (Z.ltb_lt _ _) Hlt). }
    split; [split; [lia | intros _; exact E]|].
    split; [intros Hn; lia|].
    intros Ht. split; [intros _; exact E|]. intros H0. lia.
  - destruct (derive_success blob seed algo record Hp Ha Hs Hge)
      as (ct & _ & _ & E).
    unfold seed_tail in E. fold tail in E.
    split; [split; [rewrite E; discriminate | lia]|].
    split; [intros _; eauto|].
    intros Ht. split; [intros H0; lia|].
    intros H0. rewrite Ht, H0 in E. eauto.
Qed.

Lemma derive_key_from_blob_seed_check_witness :
  (derive_key_from_blob blob_0x87 [x00; x00; x00; x00; xff] 0x87
   = Err SeedRejected
   <-> min_seed record_0x87 > 255 - 255) /\
  derive_key_from_blob blob_0x87 [x00; x00; x00; x00; xff] 0x87
  = Err SeedRejected.
Proof.
  destruct (derive_key_from_blob_seed_check
              blob_0x87 [x00; x00; x00; x00; xff] 0x87 record_0x87)
    as (Hiff & _ & Htail).
  - vm_compute. reflexivity.
  - reflexivity.
  - reflexivity.
  - split; [exact Hiff|].
    destruct (Htail eq_refl) as [E _]. apply E. reflexivity.
Defined.

(** ** C4 *)

(** C4: for every byte string [secret], [run_hash_chain(secret, 0)] is
    [secret], [run_hash_chain(secret, 1)] is [SHA-256(secret)], and for
    every [n >= 0], [run_hash_chain(secret, n + 1)] is
    [SHA-256(run_hash_chain(secret, n))]. *)
Theorem run_hash_chain_recurrence (secret : bytes) :
  run_hash_chain secret 0 = secret /\
  run_hash_chain secret 1 = Sha256.sha256 secret /\
  forall n : Z, 0 <= n ->
    run_hash_chain secret (n + 1) = Sha256.sha256 (run_hash_chain secret n).
Proof.
  split; [reflexivity|]. split; [reflexivity|].
  intros n Hn. rewrite !run_hash_chain_iter.
  replace (Z.to_nat (n + 1)) with (S (Z.to_nat n)) by lia.
  reflexivity.
Qed.

Lemma run_hash_chain_recurrence_witness :
  0 <= 2 /\
  run_hash_chain [x61; x62; x63] (2 + 1)
  = Sha256.sha256 (run_hash_chain [x61; x62; x63] 2).
Proof.
  split; [lia|].
  apply (proj2 (proj2 (run_hash_chain_recurrence [x61; x62; x63])) 2). lia.
Defined.

(** ** C5 *)

(** [raw] with bit [j] of its byte [i] inverted. *)
Definition flip_bit (raw : bytes) (i j : nat) : bytes :=
  <[i := byte_of_Z (Z.lxor (Z_of_byte (nth i raw x00))
                           (Z.shiftl 1 (Z.of_nat j)))]> raw.

Lemma Z_of_byte_of_Z (v : Z) : Z_of_byte (byte_of_Z v) = Z.land v 255.
Proof.
  destruct (byte_of_Z_checked_total _ (is_byte_land v)) as (b & Hb & Eb).
  unfold byte_of_Z_checked in Hb. destruct (is_byte_land v) as [H0 H1].
  rewrite (proj2 (Z.leb_le _ _) H0), (proj2 (Z.ltb_lt _ _) H1) in Hb.
  cbn [andb] in Hb. unfold byte_of_Z. now rewrite Hb.
Qed.

Lemma flipped_byte_differs (b : byte) (j : nat) :
  (j < 8)%nat ->
  byte_of_Z (Z.lxor (Z_of_byte b) (Z.shiftl 1 (Z.of_nat j))) <> b.
Proof.
  intros Hj E. apply (f_equal Z_of_byte) in E. rewrite Z_of_byte_of_Z in E.
  set (m := Z.shiftl 1 (Z.of_nat j)) in *.
  assert (Hm : 0 < m < 256).
  { subst m. rewrite Z.shiftl_1_l. split; [apply Z.pow_pos_nonneg; lia|].
    change 256 with (2 ^ 8). apply Z.pow_lt_mono_r; lia. }
  assert (Hb := Z_of_byte_range b).
  rewrite is_byte_land_id in E by (apply is_byte_lxor; [assumption | unfold is_byte; lia]).
  assert (E' : Z.lxor (Z_of_byte b) (Z.lxor (Z_of_byte b) m) = 0)
    by (rewrite E; apply Z.lxor_nilpotent).
  rewrite <- Z.lxor_assoc, Z.lxor_nilpotent, Z.lxor_0_l in E'. lia.
Qed.

Lemma flip_bit_length (raw : bytes) (i j : nat) :
  length (flip_bit raw i j) = length raw.
Proof. unfold flip_bit. apply length_insert. Qed.

Lemma flip_bit_differs (raw : bytes) (i j : nat) :
  (i < length raw)%nat -> (j < 8)%nat -> flip_bit raw i j <> raw.
Proof.
  intros Hi Hj E.
  assert (H : flip_bit raw i j !! i = raw !! i) by now rewrite E.
  unfold flip_bit in H. rewrite list_lookup_insert_eq in H by assumption.
  symmetry in H. apply (nth_lookup_Some _ _ x00) in H.
  symmetry in H. now apply flipped_byte_differs in H.
Qed.

Lemma flip_bit_checksum_differs (raw : bytes) (i j : nat) :
  length raw = 44%nat -> (36 <= i < 44)%nat -> (j < 8)%nat ->
  take 36 (flip_bit raw i j) = take 36 raw /\
  slice 36 44 (flip_bit raw i j) <> slice 36 44 raw.
Proof.
  intros Hl Hi Hj.
  assert (Ht : take 36 (flip_bit raw i j) = take 36 raw)
    by (unfold flip_bit; apply take_insert_ge; lia).
  split; [assumption|]. intros Hs. unfold slice in Hs.
  rewrite !take_ge in Hs by (rewrite length_drop, ?flip_bit_length; lia).
  apply (flip_bit_differs raw i j); [lia | assumption |].
  transitivity (take 36 (flip_bit raw i j) ++ drop 36 (flip_bit raw i j));
    [symmetry; apply take_drop|].
  rewrite Ht, Hs. apply take_drop.
Qed.

(** C5: for a blob that passes the length, prefix, Base64 and 44-byte
    checks, [parse_password_blob] fails with [AuthenticityError] if and
    only if the last 8 bytes of the decoded payload differ from the first
    8 bytes of SHA-256 over its first 36 bytes; hence, when the blob
    parses, inverting any single bit of those 8 bytes and writing the
    payload back into the blob makes the parse fail with
    [AuthenticityError]. *)
Theorem parse_password_blob_checksum (blob : string) (raw : bytes) :
  let cs := list_ascii_of_string blob in
  ~ (length cs < 62)%nat ->
  valid_prefix cs ->
  length (drop 2 cs) = 60%nat ->
  Base64.b64decode (drop 2 cs) = Some raw ->
  length raw = 44%nat ->
  (parse_password_blob blob = Err AuthenticityError
   <-> slice 36 44 raw <> take 8 (Sha256.sha256 (take 36 raw))) /\
  (forall record, parse_password_blob blob = Ok record ->
   forall i j : nat, (36 <= i < 44)%nat -> (j < 8)%nat ->
     let raw' := flip_bit raw i j in
     let blob' := string_of_list_ascii (take 2 cs ++ Base64.b64encode raw') in
     Base64.b64decode (drop 2 (list_ascii_of_string blob')) = Some raw' /\
     parse_password_blob blob' = Err AuthenticityError).
Proof.
  intros cs Hlen Hpre Hpay Hdec Hraw.
  assert (Hparse := parse_after_checks blob raw ltac:(fold cs; lia)
                      Hpre Hpay Hdec Hraw).
  split.
  - rewrite Hparse. unfold checksum_ok.
    destruct (bool_decide_reflect
                (take 8 (Sha256.sha256 (take 36 raw)) = slice 36 44 raw))
      as [E|E].
    + split; [discriminate | intros H; now rewrite E in H].
    + split; [intros _ H; now symmetry in H | reflexivity].
  - intros record Hok i j Hi Hj raw' blob'.
    rewrite Hparse in Hok.
    destruct (bool_decide_reflect (checksum_ok raw)) as [Hsum|]; [|discriminate].
    destruct (flip_bit_checksum_differs raw i j Hraw Hi Hj) as [Ht Hs].
    fold raw' in Ht, Hs.
    assert (Hraw' : length raw' = 44%nat)
      by (subst raw'; now rewrite flip_bit_length).
    assert (Hcs : length cs = 62%nat) by (rewrite length_drop in Hpay; lia).
    destruct cs as [|p [|q rest]] eqn:Ecs; try (cbn in Hcs; lia).
    assert (Hcs' : list_ascii_of_string blob'
                   = p :: q :: Base64.b64encode raw')
      by (subst blob'; now rewrite list_ascii_of_string_of_list_ascii).
    assert (Hdec' : Base64.b64decode (drop 2 (list_ascii_of_string blob'))
                    = Some raw')
      by (rewrite Hcs'; apply Base64Facts.b64decode_b64encode).
    split; [assumption|].
    rewrite (parse_after_checks blob' raw'); cbv zeta.
    + destruct (bool_decide_reflect (checksum_ok raw')) as [Hsum'|];
        [|reflexivity].
      exfalso. apply Hs. unfold checksum_ok in Hsum, Hsum'.
      now rewrite <- Hsum', Ht, Hsum.
    + rewrite Hcs'. cbn [length].
      rewrite Base64Facts.b64encode_length, Hraw'. cbn. lia.
    + rewrite Hcs'. exact Hpre.
    + rewrite Hcs'. change (length (Base64.b64encode raw') = 60%nat).
      now rewrite Base64Facts.b64encode_length, Hraw'.
    + assumption.
    + assumption.
Qed.

Definition raw_0x87 : bytes :=
  Eval vm_compute in
    match Base64.b64decode (drop 2 (list_ascii_of_string blob_0x87)) with
    | Some raw => raw
    | None => []
    end.

Lemma parse_password_blob_checksum_witness :
  parse_password_blob
    (string_of_list_ascii
       (take 2 (list_ascii_of_string blob_0x87)
        ++ Base64.b64encode (flip_bit raw_0x87 43 0)))
  = Err AuthenticityError.
Proof.
  assert (H : ~ (length (list_ascii_of_string blob_0x87) < 62)%nat)
    by (vm_compute; lia).
  destruct (parse_password_blob_checksum blob_0x87 raw_0x87 H) as [_ Hflip].
  - left. vm_compute. reflexivity.
  - vm_compute. reflexivity.
  - vm_compute. reflexivity.
  - vm_compute. reflexivity.
  - destruct (Hflip record_0x87 parse_blob_0x87 43%nat 0%nat) as [_ E];
      [lia | lia | exact E].
Defined.

Example flipped_blob_0x87 :
  string_of_list_ascii
    (take 2 (list_ascii_of_string blob_0x87)
     ++ Base64.b64encode (flip_bit raw_0x87 43 0))
  = "01CQPSJqJAUF30kUuEh15kDdZqfqta9p2GrPtILEH8W7UA9QCHWt1m7fCkCFo="%string.
Proof. vm_compute. reflexivity. Qed.

(** ** C6 *)

(** A blob of 63 characters: the registered blob of [0x87] followed by one
    more character. *)
Definition blob_63_chars : string := (blob_0x87 ++ "A")%string.

(** C6, as stated, fails: a blob of 63 characters with a valid prefix,
    whose following 60 characters decode to 44 bytes with a correct
    checksum, is not shorter than 62 characters and is still rejected, for
    its length. *)
Lemma parse_password_blob_rejects_63_chars :
  let cs := list_ascii_of_string blob_63_chars in
  (62 <= length cs)%nat /\
  valid_prefix cs /\
  Base64.b64decode (take 60 (drop 2 cs)) = Some raw_0x87 /\
  length raw_0x87 = 44%nat /\
  checksum_ok raw_0x87 /\
  parse_password_blob blob_63_chars = Err PayloadLength.
Proof.
  cbv zeta. split; [vm_compute; lia|].
  split; [left; vm_compute; reflexivity|].
  repeat split; vm_compute; reflexivity.
Qed.

(** C6, amended: [parse_password_blob] rejects a blob for its length
    exactly when the blob does not have 62 characters: with
    [BlobTooShort] when it is shorter, and, once the prefix is accepted,
    with the payload-length error when it is longer.  Every blob of
    exactly 62 characters whose first 2 characters are a valid prefix and
    whose following 60 characters are valid Base64 decoding to 44 bytes
    with a correct checksum parses successfully. *)
Theorem parse_password_blob_length (blob : string) :
  let cs := list_ascii_of_string blob in
  (parse_password_blob blob = Err BlobTooShort <-> (length cs < 62)%nat) /\
  (parse_password_blob blob = Err PayloadLength
   <-> (62 < length cs)%nat /\ valid_prefix cs) /\
  (length cs = 62%nat -> valid_prefix cs ->
   forall raw, Base64.b64decode (drop 2 cs) = Some raw ->
     length raw = 44%nat -> checksum_ok raw ->
     parse_password_blob blob = Ok (record_of raw)).
Proof.
  intros cs. split; [|split].
  - unfold parse_password_blob. fold cs.
    destruct (Nat.ltb_spec (length cs) 62) as [Hlt|Hge].
    + split; [intros _; assumption | reflexivity].
    + split; [|lia].
      repeat match goal with
             | |- (if ?c then _ else _) = _ -> _ => destruct c
             | |- match ?c with Some _ => _ | None => _ end = _ -> _ =>
                 destruct c
             end; discriminate.
  - unfold parse_password_blob. fold cs.
    destruct (Nat.ltb_spec (length cs) 62) as [Hlt|Hge].
    + split; [discriminate | lia].
    + destruct (bool_decide (take 2 cs = list_ascii_of_string "01")
                || bool_decide (take 2 cs = list_ascii_of_string "03"))
        eqn:Hpre; cbn [negb].
      * apply valid_prefix_decide in Hpre.
        destruct (Nat.eqb_spec (length (drop 2 cs)) 60) as [Hpay|Hpay];
          cbn [negb]; rewrite length_drop in Hpay.
        -- split; [|lia].
           repeat match goal with
                  | |- (if ?c then _ else _) = _ -> _ => destruct c
                  | |- match ?c with Some _ => _ | None => _ end = _ -> _ =>
                      destruct c
                  end; discriminate.
        -- split; [intros _; split; [lia | assumption] | reflexivity].
      * split; [discriminate|]. intros [_ Hv].
        apply valid_prefix_decide in Hv. congruence.
  - intros Hlen Hpre raw Hdec Hraw Hsum.
    rewrite (parse_after_checks blob raw); fold cs;
      try assumption; try lia; [|rewrite length_drop; lia].
    now rewrite (bool_decide_eq_true_2 _ Hsum).
Qed.

Lemma parse_password_blob_length_witness :
  parse_password_blob blob_0x87 = Ok (record_of raw_0x87).
Proof.
  destruct (parse_password_blob_length blob_0x87) as (_ & _ & H).
  refine (H _ _ raw_0x87 _ _ _).
  - vm_compute. reflexivity.
  - left. vm_compute. reflexivity.
  - vm_compute. reflexivity.
  - vm_compute. reflexivity.
  - vm_compute. reflexivity.
Defined.

(** ** C7 *)

Lemma derive_key_from_blob_errors (blob : string) (seed : bytes) (algo : Z)
    (e : error) :
  derive_key_from_blob blob seed algo = Err e ->
  parse_error e \/ e = AlgorithmMismatch \/ e = InvalidSeedLength \/
  e = SeedRejected.
Proof.
  intros H. pose proof (derive_key_from_blob_outcome blob seed algo) as Ho.
  rewrite H in Ho. inversion Ho; subst; tauto.
Qed.

Lemma derive_key_from_blob_not_unknown (blob : string) (seed : bytes)
    (algo : Z) :
  derive_key_from_blob blob seed algo <> Err UnknownAlgorithm.
Proof.
  intros H. apply derive_key_from_blob_errors in H.
  unfold parse_error in H. intuition discriminate.
Qed.

(** A registry that maps algorithm [0] to the empty string. *)
Definition registry_with_empty_blob : gmap Z string := {[ 0 := ""%string ]}.

(** C7, as stated, fails: an id that is present in the registry, bound to
    the empty string, gives [UnknownAlgorithm]. *)
Lemma derive_key_from_algo_empty_blob :
  registry_with_empty_blob !! 0 = Some ""%string /\
  derive_key_from_algo 0 seed_8ce7d1fd06 (Some registry_with_empty_blob)
  = Err UnknownAlgorithm.
Proof. split; vm_compute; reflexivity. Qed.

(** C7, amended: [derive_key_from_algo] fails with [UnknownAlgorithm] if
    and only if the algorithm id is absent from the registry or bound to
    the empty string; whenever the id is bound to a non-empty blob, the
    result is that of [derive_key_from_blob] on that blob, the seed and
    the id: a blob that does not parse gives the parse error, and no
    failure of that call is [UnknownAlgorithm]. *)
Theorem derive_key_from_algo_lookup
    (algo : Z) (seed : bytes) (registry : gmap Z string) :
  (derive_key_from_algo algo seed (Some registry) = Err UnknownAlgorithm
   <-> registry !! algo = None \/ registry !! algo = Some ""%string) /\
  (forall blob, registry !! algo = Some blob -> blob <> ""%string ->
     derive_key_from_algo algo seed (Some registry)
     = derive_key_from_blob blob seed algo /\
     (forall e, parse_password_blob blob = Err e ->
        derive_key_from_algo algo seed (Some registry) = Err e) /\
     derive_key_from_blob blob seed algo <> Err UnknownAlgorithm).
Proof.
  unfold derive_key_from_algo. split.
  - destruct (registry !! algo) as [blob|] eqn:Hl.
    + destruct (String.eqb_spec blob "") as [->|Hne].
      * split; [intros _; now right | reflexivity].
      * split.
        -- intros H. now apply derive_key_from_blob_not_unknown in H.
        -- intros [H|H]; [discriminate | congruence].
    + split; [intros _; now left | reflexivity].
  - intros blob Hl Hne. rewrite Hl.
    destruct (String.eqb_spec blob "") as [E|_]; [contradiction|].
    split; [reflexivity|]. split; [|apply derive_key_from_blob_not_unknown].
    intros e Hp. now apply derive_parse_failed.
Qed.

Lemma derive_key_from_algo_lookup_witness :
  derive_key_from_algo 0x87 seed_8ce7d1fd06 (Some {[ 0x87 := blob_0x87 ]})
  = derive_key_from_blob blob_0x87 seed_8ce7d1fd06 0x87.
Proof.
  destruct (derive_key_from_algo_lookup 0x87 seed_8ce7d1fd06
              {[ 0x87 := blob_0x87 ]}) as [_ H].
  destruct (H blob_0x87) as [E _].
  - apply lookup_singleton_eq.
  - discriminate.
  - exact E.
Defined.

(** ** C8 *)

Lemma derive_key_from_algo_errors (algo : Z) (seed : bytes)
    (password_map : option (gmap Z string)) (e : error) :
  derive_key_from_algo algo seed password_map = Err e ->
  e = UnknownAlgorithm \/ parse_error e \/ e = AlgorithmMismatch \/
  e = InvalidSeedLength \/ e = SeedRejected.
Proof.
  unfold derive_key_from_algo.
  destruct (_ !! algo) as [blob|]; [|intros [= <-]; now left].
  destruct (String.eqb blob ""); [intros [= <-]; now left|].
  intros H. right. eapply derive_key_from_blob_errors, H.
Qed.

(** C8: when the blob parses and the algorithm, seed-length and
    [min_seed] checks pass, the key passed to [aes_encrypt_block] has
    exactly 16 bytes and the block has exactly 16 bytes; the
    [InvalidKeyLength] and [InvalidBlockLength] errors cannot come out of
    [derive_key_from_blob] or [derive_key_from_algo]. *)
Theorem aes_length_errors_unreachable
    (blob : string) (seed : bytes) (algo : Z) :
  (forall record,
     parse_password_blob blob = Ok record ->
     algo = algo_id record ->
     length seed = 5%nat ->
     min_seed record <= 255 - Z_of_byte (nth 4 seed x00) ->
     let iterations := 255 - Z_of_byte (nth 4 seed x00) - min_seed record in
     let aes_key := take 16 (run_hash_chain (secret record) iterations) in
     let block := take 11 (replicate 16 xff) ++ seed
                  ++ drop 16 (replicate 16 xff) in
     length aes_key = 16%nat /\ length block = 16%nat /\
     derive_key_from_blob blob seed algo
     = (ciphertext <- aes_encrypt_block aes_key block;;;
        Ok (take 5 ciphertext, iterations, aes_key)) /\
     aes_encrypt_block aes_key block <> Err InvalidKeyLength /\
     aes_encrypt_block aes_key block <> Err InvalidBlockLength) /\
  derive_key_from_blob blob seed algo <> Err InvalidKeyLength /\
  derive_key_from_blob blob seed algo <> Err InvalidBlockLength /\
  (forall password_map,
     derive_key_from_algo algo seed password_map <> Err InvalidKeyLength /\
     derive_key_from_algo algo seed password_map <> Err InvalidBlockLength).
Proof.
  split; [|split; [|split]].
  - intros record Hp Ha Hs Hm iterations aes_key block.
    destruct (parse_ok_record blob record Hp) as (Hsec & _ & _).
    assert (Hk : length aes_key = 16%nat) by now apply derive_key_length.
    assert (Hb : length block = 16%nat) by now apply seed_block_length.
    destruct (aes_encrypt_block_total aes_key block Hk Hb) as (ct & Hct & _).
    split; [assumption|]. split; [assumption|].
    split; [|rewrite Hct; split; discriminate].
    rewrite (derive_after_parse blob seed algo record Hp).
    rewrite (proj2 (Z.eqb_eq _ _) Ha), Hs. cbn [negb Nat.eqb].
    destruct (Z.ltb_spec (255 - seed_tail seed) (min_seed record)) as [Hlt|_];
      [unfold seed_tail in Hlt; lia | reflexivity].
  - intros H. apply derive_key_from_blob_errors in H.
    unfold parse_error in H. intuition discriminate.
  - intros H. apply derive_key_from_blob_errors in H.
    unfold parse_error in H. intuition discriminate.
  - intros password_map.
    split; intros H; apply derive_key_from_algo_errors in H;
      unfold parse_error in H; intuition discriminate.
Qed.

Lemma aes_length_errors_unreachable_witness :
  length (take 16 (run_hash_chain (secret record_0x87) 4)) = 16%nat /\
  length (take 11 (replicate 16 xff) ++ seed_8ce7d1fd06
          ++ drop 16 (replicate 16 xff)) = 16%nat.
Proof.
  destruct (aes_length_errors_unreachable blob_0x87 seed_8ce7d1fd06 0x87)
    as [H _].
  destruct (H record_0x87) as (Hk & Hb & _).
  - vm_compute. reflexivity.
  - reflexivity.
  - reflexivity.
  - vm_compute. discriminate.
  - split; [exact Hk | exact Hb].
Defined.

(** ** C9 *)

(** *** The registry as a shared object

    [algo] and [seed] are immutable values ([int], [bytes]); a registry is
    a dict object, which a caller may share and change, and the default
    registry is whatever the module-level name [PASSWORD_MAP] is bound to
    at the time of the call.  The heap holds the content of every dict
    object and that binding; a registry argument is a reference into
    it. *)
Definition ref : Type := nat.

Record heap : Type := {
  dicts : ref -> gmap Z string;
  PASSWORD_MAP_ref : ref
}.

(** A step of the interpreter: a value and the heap it leaves. *)
Definition action (A : Type) : Type := heap -> A * heap.

Definition action_ret {A} (a : A) : action A := fun h => (a, h).

Definition action_bind {A B} (m : action A) (k : A -> action B) : action B :=
  fun h => let (a, h') := m h in k a h'.

(** Reading the module-level name [PASSWORD_MAP]. *)
Definition load_PASSWORD_MAP : action ref :=
  fun h => (PASSWORD_MAP_ref h, h).

(** [d.get(key)]. *)
Definition dict_get (d : ref) (key : Z) : action (option string) :=
  fun h => (dicts h d !! key, h).

(** [d[key] = value]: no function of [keylib.py] does it; it is what a
    caller may do to a registry between two calls. *)
Definition dict_setitem (d : ref) (key : Z) (value : string) : action unit :=
  fun h =>
    (tt, {| dicts := fun r => if Nat.eqb r d then <[key := value]> (dicts h r)
                              else dicts h r;
            PASSWORD_MAP_ref := PASSWORD_MAP_ref h |}).

(** [derive_key_from_algo], line by line, on the heap.  The call of
    [derive_key_from_blob] receives immutable values only ([str],
    [bytes], [int]); the lists it builds (AES state, round keys, block)
    are its own and do not outlive it. *)
Definition derive_key_from_algo_on_heap (algo : Z) (seed : bytes)
    (password_map : option ref) : action (result (bytes * Z * bytes)) :=
  action_bind
    (match password_map with
     | None => load_PASSWORD_MAP
     | Some d => action_ret d
     end)
    (fun password_map =>
       action_bind (dict_get password_map algo)
         (fun blob =>
            match blob with
            | None => action_ret (Err UnknownAlgorithm)
            | Some blob =>
                if String.eqb blob "" then action_ret (Err UnknownAlgorithm)
                else action_ret (derive_key_from_blob blob seed algo)
            end)).

(** The mapping a call works with: the content of the dict it was given,
    or of the dict [PASSWORD_MAP] names. *)
Definition registry_in_effect (h : heap) (password_map : option ref)
    : gmap Z string :=
  dicts h (match password_map with
           | None => PASSWORD_MAP_ref h
           | Some d => d
           end).


(** Its result is that of the pure function on the mapping in effect. *)
Lemma derive_key_from_algo_on_heap_result (algo : Z) (seed : bytes)
    (password_map : option ref) (h : heap) :
  fst (derive_key_from_algo_on_heap algo seed password_map h)
  = derive_key_from_algo algo seed (Some (registry_in_effect h password_map)).
Proof.
  unfold derive_key_from_algo_on_heap, derive_key_from_algo,
    registry_in_effect, action_bind, load_PASSWORD_MAP, dict_get, action_ret.
  destruct password_map as [d|]; cbn [fst snd].
  - destruct (dicts h d !! algo) as [blob|]; [|reflexivity].
    destruct (String.eqb blob ""); reflexivity.
  - destruct (dicts h (PASSWORD_MAP_ref h) !! algo) as [blob|]; [|reflexivity].
    destruct (String.eqb blob ""); reflexivity.
Qed.

(** While [PASSWORD_MAP] names the table of the source, a call without
    registry is the call on the built-in table. *)
Lemma derive_key_from_algo_on_heap_builtin (algo : Z) (seed : bytes)
    (h : heap) :
  dicts h (PASSWORD_MAP_ref h) = PASSWORD_MAP ->
  fst (derive_key_from_algo_on_heap algo seed None h)
  = derive_key_from_algo algo seed None.
Proof.
  intros H. rewrite derive_key_from_algo_on_heap_result.
  unfold registry_in_effect. rewrite H. reflexivity.
Qed.

(** The heap after import: object 0 is the table of the source, bound to
    [PASSWORD_MAP]; object 1 is a copy of it ([dict(PASSWORD_MAP)]); the
    other objects are empty dicts. *)
Definition heap_after_import : heap :=
  {| dicts := fun r => match r with
                       | 0%nat | 1%nat => PASSWORD_MAP
                       | _ => empty
                       end;
     PASSWORD_MAP_ref := 0%nat |}.

(** The result does depend on the content of the registry: once
    [PASSWORD_MAP[0x87] = ''] has run, the call that succeeded fails. *)
Example derive_key_from_algo_after_setitem :
  result_hex (fst (derive_key_from_algo_on_heap 0x87 seed_8ce7d1fd06 None
                     heap_after_import))
  = Ok ("efc97ca6a6", 4, "df7f64d2dddac1a18f1b4d4a191610f9")%string /\
  fst (derive_key_from_algo_on_heap 0x87 seed_8ce7d1fd06 None
         (snd (dict_setitem 0%nat 0x87 "" heap_after_import)))
  = Err UnknownAlgorithm.
Proof. split; vm_compute; reflexivity. Qed.



(** The result only depends on what the registry holds for the id. *)
Lemma derive_key_from_algo_same_entry
    (algo : Z) (seed : bytes) (registry1 registry2 : gmap Z string) :
  registry1 !! algo = registry2 !! algo ->
  derive_key_from_algo algo seed (Some registry1)
  = derive_key_from_algo algo seed (Some registry2).
Proof. intros H. unfold derive_key_from_algo. now rewrite H. Qed.

(** ** C10 *)

(** *** Counting the calls of [hashlib.sha256]

    A computation that may raise and that advances the number of
    [hashlib.sha256] calls made so far.  An exception leaves the count
    where it stood when it was raised. *)
Definition hashing (A : Type) : Type := nat -> result A * nat.

Definition hashing_ret {A} (a : A) : hashing A := fun calls => (Ok a, calls).

Definition hashing_raise {A} (e : error) : hashing A :=
  fun calls => (Err e, calls).

Definition hashing_bind {A B} (m : hashing A) (k : A -> hashing B)
    : hashing B :=
  fun calls =>
    match m calls with
    | (Ok a, calls') => k a calls'
    | (Err e, calls') => (Err e, calls')
    end.

(** A call that hashes nothing. *)
Definition hashing_lift {A} (r : result A) : hashing A :=
  fun calls => (r, calls).

(** [hashlib.sha256(data).digest()]: one call. *)
Definition sha256_digest (data : bytes) : hashing bytes :=
  fun calls => (Ok (Sha256.sha256 data), S calls).

Notation "x <-- m ;;; k" := (hashing_bind m (fun x => k))
  (at level 100, m at next level, right associativity).

(** [parse_password_blob], line by line, with its one digest counted. *)
Definition parse_password_blob_hashing (blob : string)
    : hashing PasswordRecord :=
  let blob := list_ascii_of_string blob in
  if Nat.ltb (length blob) 62 then hashing_raise BlobTooShort
  else
    let prefix := take 2 blob in
    if negb (bool_decide (prefix = list_ascii_of_string "01")
             || bool_decide (prefix = list_ascii_of_string "03"))
    then hashing_raise UnsupportedPrefix
    else
      let payload := drop 2 blob in
      if negb (Nat.eqb (length payload) 60) then hashing_raise PayloadLength
      else
        match Base64.b64decode payload with
        | None => hashing_raise Base64Invalid
        | Some raw =>
            if negb (Nat.eqb (length raw) 44) then hashing_raise DecodedLength
            else
              let secret := take 32 raw in
              let min_seed := int_from_bytes_big (slice 32 34 raw) in
              let algo_id := int_from_bytes_big (slice 34 36 raw) in
              full <-- sha256_digest (take 36 raw);;;
              let digest := take 8 full in
              if negb (bool_decide (digest = slice 36 44 raw))
              then hashing_raise AuthenticityError
              else hashing_ret {| secret := secret; min_seed := min_seed;
                                  algo_id := algo_id |}
        end.

(** [for _ in range(iterations): digest = hashlib.sha256(digest).digest()]. *)
Fixpoint hashing_for {A B} (l : list B) (body : A -> B -> hashing A) (a : A)
    : hashing A :=
  match l with
  | [] => hashing_ret a
  | x :: l' => a' <-- body a x;;; hashing_for l' body a'
  end.

Definition run_hash_chain_hashing (secret : bytes) (iterations : Z)
    : hashing bytes :=
  hashing_for (seq 0 (Z.to_nat iterations))
              (fun digest _ => sha256_digest digest) secret.

(** [derive_key_from_blob], line by line, over the two counted callees;
    [aes_encrypt_block] does not hash. *)
Definition derive_key_from_blob_hashing (blob : string) (seed : bytes)
    (algo : Z) : hashing (bytes * Z * bytes) :=
  record <-- parse_password_blob_hashing blob;;;
  if negb (Z.eqb algo (algo_id record)) then hashing_raise AlgorithmMismatch
  else if negb (Nat.eqb (length seed) 5) then hashing_raise InvalidSeedLength
  else
    let seed_tail := Z_of_byte (nth 4 seed x00) in
    let max_seed := 255 - seed_tail in
    if Z.ltb max_seed (min_seed record) then hashing_raise SeedRejected
    else
      let iterations := max_seed - min_seed record in
      digest <-- run_hash_chain_hashing (secret record) iterations;;;
      let aes_key := take 16 digest in
      let block := replicate 16 xff in
      let block := take 11 block ++ seed ++ drop 16 block in
      ct <-- hashing_lift (aes_encrypt_block aes_key block);;;
      hashing_ret (take 5 ct, iterations, aes_key).

(** The digests a call of [parse_password_blob] has made when it ends
    with the given result: the checksum is computed once every check of
    the format has passed. *)
Definition parse_digests (r : result PasswordRecord) : nat :=
  match r with
  | Ok _ | Err AuthenticityError => 1
  | Err _ => 0
  end.

Lemma parse_password_blob_hashing_eq (blob : string) (calls : nat) :
  parse_password_blob_hashing blob calls
  = (parse_password_blob blob,
     (calls + parse_digests (parse_password_blob blob))%nat).
Proof.
  unfold parse_password_blob_hashing, parse_password_blob.
  cbv beta zeta delta [hashing_bind hashing_raise hashing_ret sha256_digest].
  repeat match goal with
         | |- context [if ?c then _ else _] => destruct c
         | |- context [match ?c with Some _ => _ | None => _ end] => destruct c
         end; cbn [parse_digests]; f_equal; lia.
Qed.

Lemma hashing_for_digests {B} (l : list B) (digest : bytes) (calls : nat) :
  hashing_for l (fun digest _ => sha256_digest digest) digest calls
  = (Ok (fold_left (fun digest _ => Sha256.sha256 digest) l digest),
     (calls + length l)%nat).
Proof.
  revert digest calls. induction l as [|x l IH]; intros digest calls.
  - cbn [hashing_for fold_left length]. unfold hashing_ret. f_equal. lia.
  - cbn [hashing_for fold_left length].
    unfold hashing_bind, sha256_digest at 1. rewrite IH. f_equal. lia.
Qed.

Lemma run_hash_chain_hashing_eq (secret : bytes) (iterations : Z)
    (calls : nat) :
  run_hash_chain_hashing secret iterations calls
  = (Ok (run_hash_chain secret iterations),
     (calls + Z.to_nat iterations)%nat).
Proof.
  unfold run_hash_chain_hashing, run_hash_chain.
  now rewrite hashing_for_digests, length_seq.
Qed.

(** The counted pipeline after a successful parse. *)
Lemma derive_hashing_after_parse (blob : string) (seed : bytes) (algo : Z)
    (r : PasswordRecord) (calls : nat) :
  parse_password_blob blob = Ok r ->
  derive_key_from_blob_hashing blob seed algo calls =
    if negb (Z.eqb algo (algo_id r)) then (Err AlgorithmMismatch, S calls)
    else if negb (Nat.eqb (length seed) 5) then (Err InvalidSeedLength, S calls)
    else if Z.ltb (255 - seed_tail seed) (min_seed r)
    then (Err SeedRejected, S calls)
    else
      let iterations := 255 - seed_tail seed - min_seed r in
      let aes_key := take 16 (run_hash_chain (secret r) iterations) in
      (ct <- aes_encrypt_block aes_key (seed_block seed);;;
       Ok (take 5 ct, iterations, aes_key),
       S (calls + Z.to_nat iterations)).
Proof.
  intros H. unfold derive_key_from_blob_hashing.
  unfold hashing_bind at 1. rewrite parse_password_blob_hashing_eq, H.
  cbn [parse_digests]. rewrite Nat.add_1_r.
  destruct (negb (Z.eqb algo (algo_id r))); [reflexivity|].
  destruct (negb (Nat.eqb (length seed) 5)); [reflexivity|].
  cbv zeta. fold (seed_tail seed).
  destruct (Z.ltb (255 - seed_tail seed) (min_seed r)); [reflexivity|].
  unfold hashing_bind at 1. rewrite run_hash_chain_hashing_eq.
  fold (seed_block seed). unfold hashing_bind, hashing_lift, hashing_ret.
  destruct (aes_encrypt_block _ _); reflexivity.
Qed.

(** Forgetting the count gives [derive_key_from_blob]. *)
Lemma derive_key_from_blob_hashing_result (blob : string) (seed : bytes)
    (algo : Z) (calls : nat) :
  fst (derive_key_from_blob_hashing blob seed algo calls)
  = derive_key_from_blob blob seed algo.
Proof.
  destruct (parse_password_blob blob) as [r|e] eqn:Hp.
  - rewrite (derive_hashing_after_parse blob seed algo r calls Hp).
    rewrite (derive_after_parse blob seed algo r Hp).
    destruct (negb (Z.eqb algo (algo_id r))); [reflexivity|].
    destruct (negb (Nat.eqb (length seed) 5)); [reflexivity|].
    destruct (Z.ltb (255 - seed_tail seed) (min_seed r)); reflexivity.
  - rewrite (derive_parse_failed blob seed algo e Hp).
    unfold derive_key_from_blob_hashing, hashing_bind.
    rewrite parse_password_blob_hashing_eq, Hp. reflexivity.
Qed.

(** A blob with [min_seed = 0]: 32 zero bytes of secret, [min_seed] 0,
    [algo_id] 0, and the first 8 bytes of the SHA-256 of these 36 bytes. *)
Definition blob_min_seed_0 : string :=
  "01AAAAAAAAAAAAAAAAAAAAAAAAAAAAAAAAAAAAAAAAAAAAAAAAbbZf1Z/TVvY=".

Definition seed_0000000000 : bytes := [x00; x00; x00; x00; x00].

Example parse_blob_min_seed_0 :
  parse_password_blob blob_min_seed_0
  = Ok {| secret := replicate 32 x00; min_seed := 0; algo_id := 0 |}.
Proof. vm_compute. reflexivity. Qed.

(** C10, as stated, fails: on a blob with [min_seed = 0] and a seed whose
    last byte is 0 the call succeeds with 255 iterations and has then
    made 256 calls of SHA-256, one for the checksum of the blob and 255
    in the chain. *)
Lemma derive_key_from_blob_256_hashes :
  result_hex (derive_key_from_blob blob_min_seed_0 seed_0000000000 0)
  = Ok ("d0f3ef2a21", 255, "49b85ae5536901b2da5e912fd05a8892")%string /\
  fst (derive_key_from_blob_hashing blob_min_seed_0 seed_0000000000 0 0%nat)
  = derive_key_from_blob blob_min_seed_0 seed_0000000000 0 /\
  snd (derive_key_from_blob_hashing blob_min_seed_0 seed_0000000000 0 0%nat)
  = 256%nat /\
  ~ (256 <= 255)%nat.
Proof.
  split; [vm_compute; reflexivity|].
  split; [vm_compute; reflexivity|].
  split; [vm_compute; reflexivity | lia].
Qed.

(** C10, amended: for every successful call of [derive_key_from_blob]
    the returned iterations lie between 0 and 255 and the hash chain
    applies SHA-256 exactly that many times to the record's secret; with
    the one SHA-256 call that [parse_password_blob] makes for the checksum
    of the blob, the call performs exactly [iterations + 1] hash
    operations, hence at most 256. *)
Theorem derive_key_from_blob_iterations
    (blob : string) (seed : bytes) (algo : Z)
    (mac : bytes) (iterations : Z) (aes_key : bytes) :
  derive_key_from_blob blob seed algo = Ok (mac, iterations, aes_key) ->
  0 <= iterations <= 255 /\
  (exists record,
     parse_password_blob blob = Ok record /\
     aes_key = take 16 (run_hash_chain (secret record) iterations) /\
     run_hash_chain (secret record) iterations
     = Nat.iter (Z.to_nat iterations) Sha256.sha256 (secret record) /\
     run_hash_chain_counted (secret record) iterations
     = (run_hash_chain (secret record) iterations, Z.to_nat iterations) /\
     run_hash_chain_hashing (secret record) iterations 0%nat
     = (Ok (run_hash_chain (secret record) iterations),
        Z.to_nat iterations) /\
     (Z.to_nat iterations <= 255)%nat) /\
  derive_key_from_blob_hashing blob seed algo 0%nat
  = (Ok (mac, iterations, aes_key), S (Z.to_nat iterations)) /\
  (S (Z.to_nat iterations) <= 256)%nat.
Proof.
  intros H. pose proof (derive_key_from_blob_outcome blob seed algo) as Ho.
  rewrite H in Ho. inversion Ho as [| | | |r ct Hp Ha Hs Hm Hct Hl]; subst.
  destruct (parse_ok_record blob r Hp) as (_ & Hmin & _).
  pose proof (seed_tail_range seed) as Ht.
  split; [lia|]. split.
  - exists r. split; [assumption|]. split; [reflexivity|].
    split; [apply run_hash_chain_iter|].
    split; [apply run_hash_chain_counted_eq|].
    split; [apply run_hash_chain_hashing_eq | lia].
  - split; [|lia].
    rewrite (derive_hashing_after_parse blob seed (algo_id r) r 0 Hp).
    rewrite Z.eqb_refl, Hs. cbn [negb Nat.eqb].
    destruct (Z.ltb_spec (255 - seed_tail seed) (min_seed r)) as [Hlt|_];
      [lia|].
    cbv zeta. rewrite Hct. reflexivity.
Qed.

Lemma derive_key_from_blob_iterations_witness :
  0 <= 4 <= 255 /\
  run_hash_chain_counted (secret record_0x87) 4
  = (run_hash_chain (secret record_0x87) 4, 4%nat) /\
  snd (derive_key_from_blob_hashing blob_0x87 seed_8ce7d1fd06 0x87 0%nat)
  = 5%nat.
Proof.
  destruct (derive_key_from_blob_iterations
              blob_0x87 seed_8ce7d1fd06 0x87
              (fromhex "efc97ca6a6") 4
              (fromhex "df7f64d2dddac1a18f1b4d4a191610f9"))
    as (Hb & (r & Hp & _ & _ & Hc & _) & Hn & _).
  - vm_compute. reflexivity.
  - split; [exact Hb|]. split.
    + rewrite parse_blob_0x87 in Hp. injection Hp as <-. exact Hc.
    + rewrite Hn. reflexivity.
Defined.

(** * Further properties of [keylib.py] *)

(** ** The AES state and its four transformations *)

(** A state of four rows of four cells. *)
Definition shape4 (s : state) : Prop :=
  length s = 4%nat /\ Forall (fun r : list Z => length r = 4%nat) s.

Lemma length4_inv {A} (l : list A) :
  length l = 4%nat -> exists a b c d, l = [a; b; c; d].
Proof.
  destruct l as [|a [|b [|c [|d [|]]]]]; try discriminate. intros _. eauto.
Qed.

Lemma shape4_inv (s : state) :
  shape4 s ->
  exists a0 a1 a2 a3 b0 b1 b2 b3 c0 c1 c2 c3 d0 d1 d2 d3,
    s = [[a0; a1; a2; a3]; [b0; b1; b2; b3];
         [c0; c1; c2; c3]; [d0; d1; d2; d3]].
Proof.
  intros [Hl Hr]. destruct (length4_inv s Hl) as (r0 & r1 & r2 & r3 & ->).
  apply Forall_cons in Hr as [H0 Hr]. apply Forall_cons in Hr as [H1 Hr].
  apply Forall_cons in Hr as [H2 Hr]. apply Forall_cons in Hr as [H3 _].
  destruct (length4_inv r0 H0) as (a0 & a1 & a2 & a3 & ->).
  destruct (length4_inv r1 H1) as (b0 & b1 & b2 & b3 & ->).
  destruct (length4_inv r2 H2) as (c0 & c1 & c2 & c3 & ->).
  destruct (length4_inv r3 H3) as (d0 & d1 & d2 & d3 & ->).
  repeat eexists.
Qed.

Lemma state_ok_shape4 (s : state) : state_ok s -> shape4 s.
Proof.
  intros [Hl Hr]. split; [assumption|].
  eapply Forall_impl; [exact Hr|]. now intros r [H _].
Qed.

Ltac explicit_state s H :=
  let a0 := fresh "a0" in let a1 := fresh "a1" in
  let a2 := fresh "a2" in let a3 := fresh "a3" in
  let b0 := fresh "b0" in let b1 := fresh "b1" in
  let b2 := fresh "b2" in let b3 := fresh "b3" in
  let c0 := fresh "c0" in let c1 := fresh "c1" in
  let c2 := fresh "c2" in let c3 := fresh "c3" in
  let d0 := fresh "d0" in let d1 := fresh "d1" in
  let d2 := fresh "d2" in let d3 := fresh "d3" in
  destruct (shape4_inv s H)
    as (a0 & a1 & a2 & a3 & b0 & b1 & b2 & b3 &
        c0 & c1 & c2 & c3 & d0 & d1 & d2 & d3 & ->).

Ltac cell_cases row col Hr Hc :=
  destruct row as [|[|[|[|row]]]]; try (exfalso; lia);
  destruct col as [|[|[|[|col]]]]; try (exfalso; lia).

Ltac shape4_solve :=
  vm_compute; split;
  [ reflexivity
  | repeat first [apply Forall_nil_2 | apply Forall_cons_2]; reflexivity ].

(** Two 4x4 states with the same cells are equal. *)
Lemma shape4_ext (s t : state) :
  shape4 s -> shape4 t ->
  (forall row col, (row < 4)%nat -> (col < 4)%nat ->
     get2 s row col = get2 t row col) ->
  s = t.
Proof.
  intros Hs Ht H. explicit_state s Hs. explicit_state t Ht.
  pose proof (H 0 0 ltac:(lia) ltac:(lia))%nat as E00.
  pose proof (H 0 1 ltac:(lia) ltac:(lia))%nat as E01.
  pose proof (H 0 2 ltac:(lia) ltac:(lia))%nat as E02.
  pose proof (H 0 3 ltac:(lia) ltac:(lia))%nat as E03.
  pose proof (H 1 0 ltac:(lia) ltac:(lia))%nat as E10.
  pose proof (H 1 1 ltac:(lia) ltac:(lia))%nat as E11.
  pose proof (H 1 2 ltac:(lia) ltac:(lia))%nat as E12.
  pose proof (H 1 3 ltac:(lia) ltac:(lia))%nat as E13.
  pose proof (H 2 0 ltac:(lia) ltac:(lia))%nat as E20.
  pose proof (H 2 1 ltac:(lia) ltac:(lia))%nat as E21.
  pose proof (H 2 2 ltac:(lia) ltac:(lia))%nat as E22.
  pose proof (H 2 3 ltac:(lia) ltac:(lia))%nat as E23.
  pose proof (H 3 0 ltac:(lia) ltac:(lia))%nat as E30.
  pose proof (H 3 1 ltac:(lia) ltac:(lia))%nat as E31.
  pose proof (H 3 2 ltac:(lia) ltac:(lia))%nat as E32.
  pose proof (H 3 3 ltac:(lia) ltac:(lia))%nat as E33.
  cbv [get2 zth nth] in *. congruence.
Qed.

(** The cells of the four transformations.  The S-box, the xor and the
    column mixing are kept abstract while the loops are run. *)
Lemma sub_bytes_get2 (s : state) :
  shape4 s ->
  shape4 (sub_bytes s) /\
  forall row col, (row < 4)%nat -> (col < 4)%nat ->
    get2 (sub_bytes s) row col = sbox (get2 s row col).
Proof.
  intros H. explicit_state s H. unfold sub_bytes.
  generalize sbox. intros f.
  split; [shape4_solve|].
  intros row col Hr Hc. cell_cases row col Hr Hc; vm_compute; reflexivity.
Qed.

Lemma add_round_key_get2 (s : state) (round_key : list Z) :
  shape4 s ->
  shape4 (add_round_key s round_key) /\
  forall row col, (row < 4)%nat -> (col < 4)%nat ->
    get2 (add_round_key s round_key) row col
    = Z.lxor (get2 s row col) (zth round_key (row + 4 * col)).
Proof.
  intros H. explicit_state s H. unfold add_round_key.
  generalize Z.lxor. intros f. generalize (zth round_key). intros k.
  split; [shape4_solve|].
  intros row col Hr Hc. cell_cases row col Hr Hc; vm_compute; reflexivity.
Qed.

Lemma mix_columns_get2 (s : state) :
  shape4 s ->
  shape4 (mix_columns s) /\
  forall row col, (row < 4)%nat -> (col < 4)%nat ->
    get2 (mix_columns s) row col
    = zth (mix_single_column
             [get2 s 0 col; get2 s 1 col; get2 s 2 col; get2 s 3 col]) row.
Proof.
  intros H. explicit_state s H. unfold mix_columns.
  generalize mix_single_column. intros m.
  split; [shape4_solve|].
  intros row col Hr Hc. cell_cases row col Hr Hc; vm_compute; reflexivity.
Qed.

Lemma shift_rows_get2 (s : state) :
  shape4 s ->
  shape4 (shift_rows s) /\
  forall row col, (row < 4)%nat -> (col < 4)%nat ->
    get2 (shift_rows s) row col = get2 s row ((col + row) mod 4).
Proof.
  intros H. explicit_state s H.
  split; [shape4_solve|].
  intros row col Hr Hc. cell_cases row col Hr Hc; vm_compute; reflexivity.
Qed.

(** X1: on a state of four rows of four bytes, [sub_bytes] replaces every
    cell by the entry of [SBOX] the cell indexes, an index between 0 and
    255, and gives four rows of four bytes again. *)
Theorem sub_bytes_cells (s : state) :
  state_ok s ->
  state_ok (sub_bytes s) /\
  forall row col, (row < 4)%nat -> (col < 4)%nat ->
    0 <= get2 s row col < 256 /\
    get2 (sub_bytes s) row col = zth SBOX (Z.to_nat (get2 s row col)).
Proof.
  intros H. split; [now apply sub_bytes_ok|].
  intros row col Hr Hc. split; [apply get2_ok, H|].
  destruct (sub_bytes_get2 s (state_ok_shape4 s H)) as [_ Hcell].
  now apply Hcell.
Qed.

(** X2: [shift_rows] rotates row [r] of a 4x4 state to the left by [r]
    cells, so that column [c] receives column [(c + r) mod 4]; four
    applications give the state back. *)
Theorem shift_rows_cells (s : state) :
  shape4 s ->
  shape4 (shift_rows s) /\
  (forall row col, (row < 4)%nat -> (col < 4)%nat ->
     get2 (shift_rows s) row col = get2 s row ((col + row) mod 4)) /\
  shift_rows (shift_rows (shift_rows (shift_rows s))) = s.
Proof.
  intros H. destruct (shift_rows_get2 s H) as [H1 Hc].
  split; [assumption|]. split; [assumption|].
  explicit_state s H. vm_compute. reflexivity.
Qed.

(** X3: [mix_columns] replaces each column of a 4x4 state by
    [mix_single_column] of that column and keeps the shape. *)
Theorem mix_columns_cells (s : state) :
  shape4 s ->
  shape4 (mix_columns s) /\
  forall row col, (row < 4)%nat -> (col < 4)%nat ->
    get2 (mix_columns s) row col
    = zth (mix_single_column
             [get2 s 0 col; get2 s 1 col; get2 s 2 col; get2 s 3 col]) row.
Proof. exact (mix_columns_get2 s). Qed.

(** X4: with a round key of at least 16 entries, [add_round_key] xors
    cell [(row, col)] of a 4x4 state with entry [row + 4 * col] of the
    round key, an index the round key has, and adding the same round key
    twice gives the state back. *)
Theorem add_round_key_cells (s : state) (round_key : list Z) :
  shape4 s -> (16 <= length round_key)%nat ->
  shape4 (add_round_key s round_key) /\
  (forall row col, (row < 4)%nat -> (col < 4)%nat ->
     (row + 4 * col < length round_key)%nat /\
     get2 (add_round_key s round_key) row col
     = Z.lxor (get2 s row col) (zth round_key (row + 4 * col))) /\
  add_round_key (add_round_key s round_key) round_key = s.
Proof.
  intros H Hk. destruct (add_round_key_get2 s round_key H) as [H1 Hc].
  split; [assumption|]. split.
  { intros row col Hr Hcol. split; [lia | now apply Hc]. }
  destruct (add_round_key_get2 _ round_key H1) as [H2 Hc2].
  apply shape4_ext; [assumption | assumption |].
  intros row col Hr Hcol. rewrite Hc2, Hc by assumption.
  now rewrite Z.lxor_assoc, Z.lxor_nilpotent, Z.lxor_0_r.
Qed.

Definition state_1_to_16 : state :=
  [[1; 2; 3; 4]; [5; 6; 7; 8]; [9; 10; 11; 12]; [13; 14; 15; 16]].

Lemma state_1_to_16_shape : shape4 state_1_to_16.
Proof. shape4_solve. Qed.

Lemma state_1_to_16_ok : state_ok state_1_to_16.
Proof.
  split; [reflexivity|].
  repeat first [apply Forall_nil_2 | apply Forall_cons_2];
    (split; [reflexivity|]);
    repeat first [apply Forall_nil_2 | apply Forall_cons_2];
    unfold is_byte; lia.
Qed.

Lemma sub_bytes_cells_witness :
  get2 (sub_bytes state_1_to_16) 1 2
  = zth SBOX (Z.to_nat (get2 state_1_to_16 1 2)).
Proof.
  destruct (sub_bytes_cells state_1_to_16 state_1_to_16_ok) as [_ H].
  destruct (H 1%nat 2%nat) as [_ E]; [lia | lia | exact E].
Defined.

Lemma shift_rows_cells_witness :
  get2 (shift_rows state_1_to_16) 1 3 = get2 state_1_to_16 1 ((3 + 1) mod 4).
Proof.
  destruct (shift_rows_cells state_1_to_16 state_1_to_16_shape) as (_ & H & _).
  apply H; lia.
Defined.

Lemma mix_columns_cells_witness :
  get2 (mix_columns state_1_to_16) 2 1
  = zth (mix_single_column
           [get2 state_1_to_16 0 1; get2 state_1_to_16 1 1;
            get2 state_1_to_16 2 1; get2 state_1_to_16 3 1]) 2.
Proof.
  destruct (mix_columns_cells state_1_to_16 state_1_to_16_shape) as [_ H].
  apply H; lia.
Defined.

(** The cipher key of FIPS-197, Appendix B, as a round key. *)
Definition round_key_2b7e : list Z :=
  [0x2b; 0x7e; 0x15; 0x16; 0x28; 0xae; 0xd2; 0xa6;
   0xab; 0xf7; 0x15; 0x88; 0x09; 0xcf; 0x4f; 0x3c].

Lemma add_round_key_cells_witness :
  get2 (add_round_key state_1_to_16 round_key_2b7e) 1 2
  = Z.lxor (get2 state_1_to_16 1 2) (zth round_key_2b7e (1 + 4 * 2)) /\
  add_round_key (add_round_key state_1_to_16 round_key_2b7e) round_key_2b7e
  = state_1_to_16.
Proof.
  destruct (add_round_key_cells state_1_to_16 round_key_2b7e
              state_1_to_16_shape) as (_ & Hc & H).
  { vm_compute. lia. }
  split; [|exact H].
  destruct (Hc 1%nat 2%nat) as [_ E]; [lia | lia | exact E].
Defined.

(** ** Blocks and states *)

Lemma length16_inv {A} (l : list A) :
  length l = 16%nat ->
  exists x0 x1 x2 x3 x4 x5 x6 x7 x8 x9 x10 x11 x12 x13 x14 x15,
    l = [x0; x1; x2; x3; x4; x5; x6; x7; x8; x9; x10; x11; x12; x13; x14; x15].
Proof.
  do 17 (destruct l as [|? l]; try discriminate). intros _. repeat eexists.
Qed.

Lemma bytes_of_ints_of_bytes (bs : bytes) :
  bytes_of_ints (ints_of_bytes bs) = Some bs.
Proof.
  induction bs as [|b bs IH]; [reflexivity|].
  unfold ints_of_bytes in *. cbn [map bytes_of_ints].
  now rewrite byte_of_Z_checked_of_byte, IH.
Qed.

(** X5: a 16-byte block is laid out column by column, byte [k] in row
    [k mod 4] and column [k / 4], and [state_to_bytes] reads it back:
    [state_to_bytes(bytes_to_state(block)) == block]. *)
Theorem state_to_bytes_to_state (block : bytes) :
  length block = 16%nat ->
  (forall row col, (row < 4)%nat -> (col < 4)%nat ->
     get2 (bytes_to_state (ints_of_bytes block)) row col
     = Z_of_byte (nth (row + 4 * col) block x00)) /\
  state_to_bytes (bytes_to_state (ints_of_bytes block)) = Ok block.
Proof.
  intros H.
  destruct (length16_inv block H)
    as (x0 & x1 & x2 & x3 & x4 & x5 & x6 & x7 & x8 & x9 & x10 & x11 & x12
        & x13 & x14 & x15 & ->).
  split.
  - intros row col Hr Hc. unfold ints_of_bytes. generalize Z_of_byte.
    intros f. cell_cases row col Hr Hc; vm_compute; reflexivity.
  - unfold state_to_bytes.
    match goal with
    | |- context [bytes_of_ints ?o] =>
        replace o
          with (ints_of_bytes [x0; x1; x2; x3; x4; x5; x6; x7; x8; x9; x10;
                               x11; x12; x13; x14; x15])
    end.
    + now rewrite bytes_of_ints_of_bytes.
    + unfold ints_of_bytes. generalize Z_of_byte. intros f.
      vm_compute. reflexivity.
Qed.

Lemma state_to_bytes_to_state_witness :
  state_to_bytes (bytes_to_state (ints_of_bytes (fromhex "00112233445566778899aabbccddeeff")))
  = Ok (fromhex "00112233445566778899aabbccddeeff").
Proof.
  destruct (state_to_bytes_to_state (fromhex "00112233445566778899aabbccddeeff"))
    as [_ H]; [reflexivity | exact H].
Defined.

Lemma state_ok_inv (s : state) :
  state_ok s ->
  exists a0 a1 a2 a3 b0 b1 b2 b3 c0 c1 c2 c3 d0 d1 d2 d3,
    s = [[a0; a1; a2; a3]; [b0; b1; b2; b3];
         [c0; c1; c2; c3]; [d0; d1; d2; d3]] /\
    Forall is_byte [a0; b0; c0; d0; a1; b1; c1; d1;
                    a2; b2; c2; d2; a3; b3; c3; d3].
Proof.
  intros Hs. pose proof (state_ok_shape4 s Hs) as H. explicit_state s H.
  do 16 eexists. split; [reflexivity|].
  destruct Hs as [_ Hr].
  apply Forall_cons in Hr as [[_ R0] Hr]. apply Forall_cons in Hr as [[_ R1] Hr].
  apply Forall_cons in Hr as [[_ R2] Hr]. apply Forall_cons in Hr as [[_ R3] _].
  apply Forall_cons in R0 as [? R0]. apply Forall_cons in R0 as [? R0].
  apply Forall_cons in R0 as [? R0]. apply Forall_cons in R0 as [? _].
  apply Forall_cons in R1 as [? R1]. apply Forall_cons in R1 as [? R1].
  apply Forall_cons in R1 as [? R1]. apply Forall_cons in R1 as [? _].
  apply Forall_cons in R2 as [? R2]. apply Forall_cons in R2 as [? R2].
  apply Forall_cons in R2 as [? R2]. apply Forall_cons in R2 as [? _].
  apply Forall_cons in R3 as [? R3]. apply Forall_cons in R3 as [? R3].
  apply Forall_cons in R3 as [? R3]. apply Forall_cons in R3 as [? _].
  repeat first [apply Forall_nil_2 | apply Forall_cons_2]; assumption.
Qed.

(** X6: a 4x4 state whose cells are bytes is written out as 16 bytes, and
    [bytes_to_state] of those bytes is the state again. *)
Theorem bytes_to_state_to_bytes (s : state) :
  state_ok s ->
  exists block,
    state_to_bytes s = Ok block /\ length block = 16%nat /\
    bytes_to_state (ints_of_bytes block) = s.
Proof.
  intros Hs.
  destruct (state_ok_inv s Hs)
    as (a0 & a1 & a2 & a3 & b0 & b1 & b2 & b3 & c0 & c1 & c2 & c3
        & d0 & d1 & d2 & d3 & -> & Hb).
  destruct (bytes_of_ints_total _ Hb) as (block & Hblock & Eb).
  exists block. unfold state_to_bytes.
  match goal with
  | |- context [bytes_of_ints ?o] =>
      replace o with [a0; b0; c0; d0; a1; b1; c1; d1;
                      a2; b2; c2; d2; a3; b3; c3; d3]
        by (vm_compute; reflexivity)
  end.
  rewrite Hblock. split; [reflexivity|]. split.
  - apply (f_equal (@length Z)) in Eb. unfold ints_of_bytes in Eb.
    rewrite length_map in Eb. exact Eb.
  - rewrite Eb. vm_compute. reflexivity.
Qed.

Lemma bytes_to_state_to_bytes_witness :
  exists block,
    state_to_bytes state_1_to_16 = Ok block /\
    bytes_to_state (ints_of_bytes block) = state_1_to_16.
Proof.
  destruct (bytes_to_state_to_bytes state_1_to_16 state_1_to_16_ok)
    as (block & H1 & _ & H2).
  exists block. split; [exact H1 | exact H2].
Defined.

(** ** The S-box and the field arithmetic *)

(** X7: the S-box is a bijection of the byte values: it maps bytes to
    bytes, two different bytes have different entries, and every byte is
    the entry of some byte. *)
Theorem sbox_bijective :
  (forall v, is_byte v -> is_byte (sbox v)) /\
  (forall a b, is_byte a -> is_byte b -> sbox a = sbox b -> a = b) /\
  (forall w, is_byte w -> exists v, is_byte v /\ sbox v = w).
Proof.
  split; [intros v _; apply sbox_ok|]. split.
  - intros a b Ha Hb E.
    assert (H : implb (Z.eqb (sbox a) (sbox b)) (Z.eqb a b) = true)
      by (apply (Base64Facts.forall_bytes2
                   (fun a b => implb (Z.eqb (sbox a) (sbox b)) (Z.eqb a b)));
          [vm_compute; reflexivity | assumption | assumption]).
    rewrite E, Z.eqb_refl in H. cbn [implb] in H. now apply Z.eqb_eq.
  - intros w Hw.
    assert (H : existsb (fun n => Z.eqb (sbox (Z.of_nat n)) w) (seq 0 256)
                = true)
      by (apply (Base64Facts.forall_bytes1
                   (fun w => existsb (fun n => Z.eqb (sbox (Z.of_nat n)) w)
                                     (seq 0 256)));
          [vm_compute; reflexivity | assumption]).
    apply existsb_exists in H as (n & Hn & E). apply in_seq in Hn.
    exists (Z.of_nat n). split; [unfold is_byte; lia | now apply Z.eqb_eq].
Qed.

Lemma sbox_bijective_witness :
  is_byte (sbox 0x53) /\ exists v, is_byte v /\ sbox v = 0x53.
Proof.
  destruct sbox_bijective as (H1 & _ & H3).
  split; [apply H1 | apply H3]; unfold is_byte; lia.
Defined.

Lemma xtime_lxor (a b : Z) :
  is_byte a -> is_byte b -> xtime (Z.lxor a b) = Z.lxor (xtime a) (xtime b).
Proof.
  intros Ha Hb. apply Z.eqb_eq.
  apply (Base64Facts.forall_bytes2
           (fun a b => Z.eqb (xtime (Z.lxor a b)) (Z.lxor (xtime a) (xtime b))));
    [vm_compute; reflexivity | assumption | assumption].
Qed.

(** One pass of the loop of [gf_mul]. *)
Definition gf_step (st : Z * Z * Z) (i : nat) : Z * Z * Z :=
  let '(result, a, b) := st in
  (if Z.eqb (Z.land b 1) 0 then result else Z.lxor result a,
   xtime a, Z.shiftr b 1).

Lemma gf_mul_fold (a b : Z) :
  gf_mul a b = fst (fst (fold_left gf_step (seq 0 8) (0, a, b))).
Proof.
  unfold gf_mul.
  assert (E : forall st : Z * Z * Z,
             (let '(result, _, _) := st in result) = fst (fst st))
    by (intros [[? ?] ?]; reflexivity).
  rewrite E. reflexivity.
Qed.

Lemma lxor_swap (r1 r2 a1 a2 : Z) :
  Z.lxor (Z.lxor r1 r2) (Z.lxor a1 a2) = Z.lxor (Z.lxor r1 a1) (Z.lxor r2 a2).
Proof.
  rewrite !Z.lxor_assoc. f_equal.
  rewrite <- !Z.lxor_assoc. f_equal. apply Z.lxor_comm.
Qed.

Lemma lxor4_swap (x1 y1 x2 y2 x3 y3 x4 y4 : Z) :
  Z.lxor (Z.lxor (Z.lxor (Z.lxor x1 y1) (Z.lxor x2 y2)) (Z.lxor x3 y3))
         (Z.lxor x4 y4)
  = Z.lxor (Z.lxor (Z.lxor (Z.lxor x1 x2) x3) x4)
           (Z.lxor (Z.lxor (Z.lxor y1 y2) y3) y4).
Proof.
  rewrite (lxor_swap x1 y1 x2 y2).
  rewrite (lxor_swap (Z.lxor x1 x2) (Z.lxor y1 y2) x3 y3).
  apply lxor_swap.
Qed.

Lemma gf_step_lxor (l : list nat) (r1 r2 a1 a2 b : Z) :
  is_byte a1 -> is_byte a2 ->
  let s1 := fold_left gf_step l (r1, a1, b) in
  let s2 := fold_left gf_step l (r2, a2, b) in
  fold_left gf_step l (Z.lxor r1 r2, Z.lxor a1 a2, b)
  = (Z.lxor (fst (fst s1)) (fst (fst s2)),
     Z.lxor (snd (fst s1)) (snd (fst s2)), snd s1).
Proof.
  revert r1 r2 a1 a2 b.
  induction l as [|i l IH]; intros r1 r2 a1 a2 b H1 H2; [reflexivity|].
  cbn [fold_left gf_step]. cbv zeta.
  rewrite xtime_lxor by assumption.
  destruct (Z.land b 1 =? 0).
  - apply IH; apply xtime_ok.
  - rewrite <- lxor_swap. apply IH; apply xtime_ok.
Qed.

(** [gf_mul] distributes over xor in its first argument. *)
Lemma gf_mul_lxor_l (a1 a2 b : Z) :
  is_byte a1 -> is_byte a2 ->
  gf_mul (Z.lxor a1 a2) b = Z.lxor (gf_mul a1 b) (gf_mul a2 b).
Proof.
  intros H1 H2. rewrite !gf_mul_fold.
  change 0 with (Z.lxor 0 0) at 1.
  now rewrite gf_step_lxor by assumption.
Qed.

(** X8: on bytes, [xtime] doubles and reduces by [0x11B], and [gf_mul] is
    a commutative product with a byte result, with [0] absorbing, [1]
    neutral, [gf_mul a 2 = xtime a] and [gf_mul a 3 = xtime a xor a], that
    distributes over xor. *)
Theorem gf_mul_algebra (a b c : Z) :
  is_byte a -> is_byte b -> is_byte c ->
  xtime a = (if a <? 128 then 2 * a else Z.lxor (2 * a - 256) 0x1B) /\
  is_byte (gf_mul a b) /\
  gf_mul a b = gf_mul b a /\
  gf_mul a 0 = 0 /\ gf_mul a 1 = a /\
  gf_mul a 2 = xtime a /\ gf_mul a 3 = Z.lxor (xtime a) a /\
  gf_mul (Z.lxor a b) c = Z.lxor (gf_mul a c) (gf_mul b c) /\
  gf_mul c (Z.lxor a b) = Z.lxor (gf_mul c a) (gf_mul c b).
Proof.
  intros Ha Hb Hc.
  assert (Hcomm : forall x y, is_byte x -> is_byte y -> gf_mul x y = gf_mul y x).
  { intros x y Hx Hy. apply Z.eqb_eq.
    apply (Base64Facts.forall_bytes2 (fun x y => Z.eqb (gf_mul x y) (gf_mul y x)));
      [vm_compute; reflexivity | assumption | assumption]. }
  assert (H1 : (xtime a =? (if a <? 128 then 2 * a
                            else Z.lxor (2 * a - 256) 0x1B))
               && (gf_mul a 0 =? 0) && (gf_mul a 1 =? a)
               && (gf_mul a 2 =? xtime a)
               && (gf_mul a 3 =? Z.lxor (xtime a) a) = true).
  { apply (Base64Facts.forall_bytes1
             (fun a => (xtime a =? (if a <? 128 then 2 * a
                                    else Z.lxor (2 * a - 256) 0x1B))
                       && (gf_mul a 0 =? 0) && (gf_mul a 1 =? a)
                       && (gf_mul a 2 =? xtime a)
                       && (gf_mul a 3 =? Z.lxor (xtime a) a)));
      [vm_compute; reflexivity | assumption]. }
  rewrite !andb_true_iff, !Z.eqb_eq in H1.
  destruct H1 as ((((E0 & E1) & E2) & E3) & E4).
  split; [assumption|]. split; [now apply gf_mul_ok|].
  split; [now apply Hcomm|].
  do 4 (split; [assumption|]).
  split; [now apply gf_mul_lxor_l|].
  rewrite (Hcomm c (Z.lxor a b)), (Hcomm c a), (Hcomm c b)
    by auto using is_byte_lxor.
  now apply gf_mul_lxor_l.
Qed.

Lemma gf_mul_algebra_witness :
  gf_mul 0x57 0x83 = gf_mul 0x83 0x57 /\
  gf_mul (Z.lxor 0x57 0x83) 0x13
  = Z.lxor (gf_mul 0x57 0x13) (gf_mul 0x83 0x13).
Proof.
  destruct (gf_mul_algebra 0x57 0x83 0x13)
    as (_ & _ & H1 & _ & _ & _ & _ & H2 & _);
    [unfold is_byte; lia | unfold is_byte; lia | unfold is_byte; lia |].
  split; [exact H1 | exact H2].
Defined.

(** X9: [mix_single_column] is linear over xor on columns of four bytes:
    mixing the xor of two columns gives the xor of the mixed columns. *)
Theorem mix_single_column_lxor (a0 a1 a2 a3 b0 b1 b2 b3 : Z) :
  Forall is_byte [a0; a1; a2; a3] -> Forall is_byte [b0; b1; b2; b3] ->
  mix_single_column
    [Z.lxor a0 b0; Z.lxor a1 b1; Z.lxor a2 b2; Z.lxor a3 b3]
  = zip_with Z.lxor (mix_single_column [a0; a1; a2; a3])
                    (mix_single_column [b0; b1; b2; b3]).
Proof.
  intros Ha Hb.
  apply Forall_cons in Ha as [A0 Ha]. apply Forall_cons in Ha as [A1 Ha].
  apply Forall_cons in Ha as [A2 Ha]. apply Forall_cons in Ha as [A3 _].
  apply Forall_cons in Hb as [B0 Hb]. apply Forall_cons in Hb as [B1 Hb].
  apply Forall_cons in Hb as [B2 Hb]. apply Forall_cons in Hb as [B3 _].
  cbn [mix_single_column zip_with].
  rewrite !gf_mul_lxor_l by assumption.
  repeat (apply (f_equal2 cons); [apply lxor4_swap|]). reflexivity.
Qed.

Lemma mix_single_column_lxor_witness :
  mix_single_column [Z.lxor 1 5; Z.lxor 2 6; Z.lxor 3 7; Z.lxor 4 8]
  = zip_with Z.lxor (mix_single_column [1; 2; 3; 4])
                    (mix_single_column [5; 6; 7; 8]).
Proof.
  apply (mix_single_column_lxor 1 2 3 4 5 6 7 8);
    repeat first [apply Forall_nil_2 | apply Forall_cons_2];
    unfold is_byte; lia.
Defined.

(** ** Key schedule and block encryption: outcomes *)

Lemma fold_left_snoc_nth {A B} (g : list A -> B -> A) (l : list B)
    (ws : list A) (j : nat) (d : A) :
  (j < length ws)%nat ->
  nth j (fold_left (fun ws i => ws ++ [g ws i]) l ws) d = nth j ws d.
Proof.
  revert ws. induction l as [|i l IH]; intros ws Hj; [reflexivity|].
  cbn [fold_left]. rewrite IH by (rewrite length_app; lia).
  now apply app_nth1.
Qed.

Definition round_keys_of (r : result (list (list Z))) : list (list Z) :=
  match r with
  | Ok rks => rks
  | Err _ => []
  end.

Lemma expand_key_first (key : bytes) (rks : list (list Z)) :
  length key = 16%nat -> expand_key key = Ok rks ->
  nth 0 rks [] = ints_of_bytes key.
Proof.
  intros Hk E.
  replace rks with (round_keys_of (expand_key key)) by now rewrite E.
  clear E rks. unfold expand_key. rewrite Hk. cbn [Nat.eqb negb round_keys_of].
  match goal with
  | |- context [fold_left ?step (seq 4 40) ?init] =>
      set (words := fold_left step (seq 4 40) init);
      assert (Hw : forall j, (j < 4)%nat -> nth j words [] = nth j init [])
  end.
  { intros j Hj. subst words. apply fold_left_snoc_nth.
    rewrite length_map, length_seq. exact Hj. }
  cbn [seq map nth concat Nat.mul Nat.add].
  rewrite !Hw by lia. clear Hw words.
  destruct (length16_inv key Hk)
    as (x0 & x1 & x2 & x3 & x4 & x5 & x6 & x7 & x8 & x9 & x10 & x11 & x12
        & x13 & x14 & x15 & ->).
  reflexivity.
Qed.

(** X10: [expand_key] fails with [InvalidKeyLength] exactly when the key
    does not have 16 bytes; on a 16-byte key it returns eleven round keys
    of sixteen bytes each, the first of which is the key itself. *)
Theorem expand_key_outcome (key : bytes) :
  (expand_key key = Err InvalidKeyLength <-> length key <> 16%nat) /\
  (length key = 16%nat ->
   exists round_keys,
     expand_key key = Ok round_keys /\ length round_keys = 11%nat /\
     Forall key_ok round_keys /\
     nth 0 round_keys [] = ints_of_bytes key).
Proof.
  split.
  - split.
    + intros H Hk. destruct (expand_key_ok key Hk) as (rks & E & _). congruence.
    + apply expand_key_bad_length.
  - intros Hk. destruct (expand_key_ok key Hk) as (rks & E & Hl & Hrk).
    exists rks. do 3 (split; [assumption|]).
    now apply expand_key_first.
Qed.

Lemma expand_key_outcome_witness :
  exists round_keys,
    expand_key (fromhex "000102030405060708090a0b0c0d0e0f") = Ok round_keys /\
    nth 0 round_keys []
    = ints_of_bytes (fromhex "000102030405060708090a0b0c0d0e0f").
Proof.
  destruct (expand_key_outcome (fromhex "000102030405060708090a0b0c0d0e0f"))
    as [_ H].
  destruct (H eq_refl) as (rks & E & _ & _ & E0).
  exists rks. split; [exact E | exact E0].
Defined.

(** X11: [aes_encrypt_block] checks the block first and the key second:
    it fails with [InvalidBlockLength] exactly when the block does not
    have 16 bytes, with [InvalidKeyLength] exactly when the block has 16
    bytes and the key has not, and otherwise returns 16 bytes; it raises
    nothing else. *)
Theorem aes_encrypt_block_outcome (key block : bytes) :
  (aes_encrypt_block key block = Err InvalidBlockLength
   <-> length block <> 16%nat) /\
  (aes_encrypt_block key block = Err InvalidKeyLength
   <-> length block = 16%nat /\ length key <> 16%nat) /\
  ((exists ciphertext, aes_encrypt_block key block = Ok ciphertext)
   <-> length block = 16%nat /\ length key = 16%nat) /\
  (forall ciphertext, aes_encrypt_block key block = Ok ciphertext ->
     length ciphertext = 16%nat) /\
  (forall e, aes_encrypt_block key block = Err e ->
     e = InvalidBlockLength \/ e = InvalidKeyLength).
Proof.
  destruct (Nat.eq_dec (length block) 16%nat) as [Hb|Hb].
  - destruct (Nat.eq_dec (length key) 16%nat) as [Hk|Hk].
    + destruct (aes_encrypt_block_total key block Hk Hb) as (ct & E & Hl).
      rewrite E. split; [split; [discriminate | contradiction]|].
      split; [split; [discriminate | tauto]|].
      split; [split; [tauto | eauto]|].
      split; [intros ct' [= <-]; assumption | discriminate].
    + rewrite (aes_encrypt_block_bad_key key block Hb Hk).
      split; [split; [discriminate | contradiction]|].
      split; [tauto|].
      split; [split; [intros [ct' ?]; discriminate | tauto]|].
      split; [discriminate | intros e [= <-]; now right].
  - rewrite (aes_encrypt_block_bad_block key block Hb).
    split; [tauto|].
    split; [split; [discriminate | tauto]|].
    split; [split; [intros [ct' ?]; discriminate | tauto]|].
    split; [discriminate | intros e [= <-]; now left].
Qed.

Lemma aes_encrypt_block_outcome_witness :
  length (fromhex "69c4e0d86a7b0430d8cdb78070b4c55a") = 16%nat.
Proof.
  destruct (aes_encrypt_block_outcome
              (fromhex "000102030405060708090a0b0c0d0e0f")
              (fromhex "00112233445566778899aabbccddeeff"))
    as (_ & _ & _ & H & _).
  apply H. vm_compute. reflexivity.
Defined.

(** ** [aes_encrypt_block] is injective in the block *)

From Stdlib Require Import Btauto.

(** The inverse of [mix_single_column] (FIPS-197, InvMixColumns); it is
    not part of [keylib.py] and only serves the proofs below. *)
Definition inv_mix_single_column (col : list Z) : list Z :=
  match col with
  | [a0; a1; a2; a3] =>
      [ Z.lxor (Z.lxor (Z.lxor (gf_mul a0 14) (gf_mul a1 11)) (gf_mul a2 13))
               (gf_mul a3 9);
        Z.lxor (Z.lxor (Z.lxor (gf_mul a0 9) (gf_mul a1 14)) (gf_mul a2 11))
               (gf_mul a3 13);
        Z.lxor (Z.lxor (Z.lxor (gf_mul a0 13) (gf_mul a1 9)) (gf_mul a2 14))
               (gf_mul a3 11);
        Z.lxor (Z.lxor (Z.lxor (gf_mul a0 11) (gf_mul a1 13)) (gf_mul a2 9))
               (gf_mul a3 14) ]
  | _ => col
  end.

(** Sixteen terms xored row by row are the same xored column by column. *)
Lemma lxor_transpose (p1 q1 r1 s1 p2 q2 r2 s2 p3 q3 r3 s3 p4 q4 r4 s4 : Z) :
  Z.lxor (Z.lxor (Z.lxor (Z.lxor (Z.lxor (Z.lxor p1 q1) r1) s1)
                         (Z.lxor (Z.lxor (Z.lxor p2 q2) r2) s2))
                 (Z.lxor (Z.lxor (Z.lxor p3 q3) r3) s3))
         (Z.lxor (Z.lxor (Z.lxor p4 q4) r4) s4)
  = Z.lxor (Z.lxor (Z.lxor (Z.lxor (Z.lxor (Z.lxor p1 p2) p3) p4)
                           (Z.lxor (Z.lxor (Z.lxor q1 q2) q3) q4))
                   (Z.lxor (Z.lxor (Z.lxor r1 r2) r3) r4))
           (Z.lxor (Z.lxor (Z.lxor s1 s2) s3) s4).
Proof.
  apply Z.bits_inj'. intros n Hn. rewrite !Z.lxor_spec. btauto.
Qed.

Lemma gf_mul_lxor4 (x y z w c : Z) :
  is_byte x -> is_byte y -> is_byte z -> is_byte w ->
  gf_mul (Z.lxor (Z.lxor (Z.lxor x y) z) w) c
  = Z.lxor (Z.lxor (Z.lxor (gf_mul x c) (gf_mul y c)) (gf_mul z c))
           (gf_mul w c).
Proof.
  intros Hx Hy Hz Hw.
  rewrite !gf_mul_lxor_l by auto using is_byte_lxor. reflexivity.
Qed.

(** The products of the two matrices, one byte at a time: the diagonal
    coefficient is 1 and the others are 0. *)
Definition diag (a k1 k2 k3 k4 : Z) : Z :=
  Z.lxor (Z.lxor (Z.lxor (gf_mul (gf_mul a 2) k1) (gf_mul a k2)) (gf_mul a k3))
         (gf_mul (gf_mul a 3) k4).
Definition off1 (a k1 k2 k3 k4 : Z) : Z :=
  Z.lxor (Z.lxor (Z.lxor (gf_mul (gf_mul a 3) k1) (gf_mul (gf_mul a 2) k2))
                 (gf_mul a k3))
         (gf_mul a k4).
Definition off2 (a k1 k2 k3 k4 : Z) : Z :=
  Z.lxor (Z.lxor (Z.lxor (gf_mul a k1) (gf_mul (gf_mul a 3) k2))
                 (gf_mul (gf_mul a 2) k3))
         (gf_mul a k4).
Definition off3 (a k1 k2 k3 k4 : Z) : Z :=
  Z.lxor (Z.lxor (Z.lxor (gf_mul a k1) (gf_mul a k2)) (gf_mul (gf_mul a 3) k3))
         (gf_mul (gf_mul a 2) k4).

Definition inv_mix_coefficients (a : Z) : bool :=
  (diag a 14 11 13 9 =? a) && (off1 a 14 11 13 9 =? 0)
  && (off2 a 14 11 13 9 =? 0) && (off3 a 14 11 13 9 =? 0)
  && (diag a 9 14 11 13 =? 0) && (off1 a 9 14 11 13 =? a)
  && (off2 a 9 14 11 13 =? 0) && (off3 a 9 14 11 13 =? 0)
  && (diag a 13 9 14 11 =? 0) && (off1 a 13 9 14 11 =? 0)
  && (off2 a 13 9 14 11 =? a) && (off3 a 13 9 14 11 =? 0)
  && (diag a 11 13 9 14 =? 0) && (off1 a 11 13 9 14 =? 0)
  && (off2 a 11 13 9 14 =? 0) && (off3 a 11 13 9 14 =? a).

Lemma inv_mix_coefficients_ok (a : Z) :
  is_byte a -> inv_mix_coefficients a = true.
Proof.
  intros Ha. apply (Base64Facts.forall_bytes1 inv_mix_coefficients);
    [vm_compute; reflexivity | assumption].
Qed.

Lemma inv_mix_row (a0 a1 a2 a3 k1 k2 k3 k4 : Z) :
  is_byte a0 -> is_byte a1 -> is_byte a2 -> is_byte a3 ->
  Z.lxor
    (Z.lxor
       (Z.lxor
          (gf_mul (Z.lxor (Z.lxor (Z.lxor (gf_mul a0 2) (gf_mul a1 3)) a2) a3) k1)
          (gf_mul (Z.lxor (Z.lxor (Z.lxor a0 (gf_mul a1 2)) (gf_mul a2 3)) a3) k2))
       (gf_mul (Z.lxor (Z.lxor (Z.lxor a0 a1) (gf_mul a2 2)) (gf_mul a3 3)) k3))
    (gf_mul (Z.lxor (Z.lxor (Z.lxor (gf_mul a0 3) a1) a2) (gf_mul a3 2)) k4)
  = Z.lxor (Z.lxor (Z.lxor (diag a0 k1 k2 k3 k4) (off1 a1 k1 k2 k3 k4))
                   (off2 a2 k1 k2 k3 k4))
           (off3 a3 k1 k2 k3 k4).
Proof.
  intros H0 H1 H2 H3.
  rewrite !gf_mul_lxor4 by auto using gf_mul_ok.
  unfold diag, off1, off2, off3. apply lxor_transpose.
Qed.

Lemma inv_mix_single_column_mix (a0 a1 a2 a3 : Z) :
  is_byte a0 -> is_byte a1 -> is_byte a2 -> is_byte a3 ->
  inv_mix_single_column (mix_single_column [a0; a1; a2; a3])
  = [a0; a1; a2; a3].
Proof.
  intros H0 H1 H2 H3.
  cbn [mix_single_column inv_mix_single_column].
  rewrite !inv_mix_row by assumption.
  pose proof (inv_mix_coefficients_ok a0 H0) as C0.
  pose proof (inv_mix_coefficients_ok a1 H1) as C1.
  pose proof (inv_mix_coefficients_ok a2 H2) as C2.
  pose proof (inv_mix_coefficients_ok a3 H3) as C3.
  unfold inv_mix_coefficients in *.
  rewrite !andb_true_iff, !Z.eqb_eq in C0, C1, C2, C3.
  destruct C0 as (((((((((((((((D0 & ?) & ?) & ?) & D1) & ?) & ?) & ?) & D2)
                         & ?) & ?) & ?) & D3) & ?) & ?) & ?).
  destruct C1 as (((((((((((((((? & E0) & ?) & ?) & ?) & E1) & ?) & ?) & ?)
                         & E2) & ?) & ?) & ?) & E3) & ?) & ?).
  destruct C2 as (((((((((((((((? & ?) & F0) & ?) & ?) & ?) & F1) & ?) & ?)
                         & ?) & F2) & ?) & ?) & ?) & F3) & ?).
  destruct C3 as (((((((((((((((? & ?) & ?) & G0) & ?) & ?) & ?) & G1) & ?)
                         & ?) & ?) & G2) & ?) & ?) & ?) & G3).
  rewrite D0, D1, D2, D3, E0, E1, E2, E3, F0, F1, F2, F3, G0, G1, G2, G3.
  rewrite !Z.lxor_0_r, !Z.lxor_0_l. reflexivity.
Qed.

Lemma is_byte_cells (s : state) (row col : nat) :
  state_ok s -> is_byte (get2 s row col).
Proof. intros [_ H]. now apply get2_ok. Qed.

Lemma mix_single_column_inj (a b : list Z) :
  length a = 4%nat -> length b = 4%nat ->
  Forall is_byte a -> Forall is_byte b ->
  mix_single_column a = mix_single_column b -> a = b.
Proof.
  intros La Lb Ha Hb E.
  destruct (length4_inv a La) as (a0 & a1 & a2 & a3 & ->).
  destruct (length4_inv b Lb) as (b0 & b1 & b2 & b3 & ->).
  apply Forall_cons in Ha as [A0 Ha]. apply Forall_cons in Ha as [A1 Ha].
  apply Forall_cons in Ha as [A2 Ha]. apply Forall_cons in Ha as [A3 _].
  apply Forall_cons in Hb as [B0 Hb]. apply Forall_cons in Hb as [B1 Hb].
  apply Forall_cons in Hb as [B2 Hb]. apply Forall_cons in Hb as [B3 _].
  rewrite <- (inv_mix_single_column_mix a0 a1 a2 a3) by assumption.
  rewrite <- (inv_mix_single_column_mix b0 b1 b2 b3) by assumption.
  now rewrite E.
Qed.

Lemma zth4_ext (a b : list Z) :
  length a = 4%nat -> length b = 4%nat ->
  (forall i, (i < 4)%nat -> zth a i = zth b i) -> a = b.
Proof.
  intros La Lb H.
  destruct (length4_inv a La) as (a0 & a1 & a2 & a3 & ->).
  destruct (length4_inv b Lb) as (b0 & b1 & b2 & b3 & ->).
  pose proof (H 0%nat ltac:(lia)) as E0. pose proof (H 1%nat ltac:(lia)) as E1.
  pose proof (H 2%nat ltac:(lia)) as E2. pose proof (H 3%nat ltac:(lia)) as E3.
  cbv [zth nth] in *. congruence.
Qed.

Lemma mix_single_column_length (a0 a1 a2 a3 : Z) :
  length (mix_single_column [a0; a1; a2; a3]) = 4%nat.
Proof. reflexivity. Qed.

Lemma mix_columns_inj (s t : state) :
  state_ok s -> state_ok t -> mix_columns s = mix_columns t -> s = t.
Proof.
  intros Hs Ht E.
  pose proof (state_ok_shape4 s Hs) as Ss. pose proof (state_ok_shape4 t Ht) as St.
  destruct (mix_columns_get2 s Ss) as [_ Cs].
  destruct (mix_columns_get2 t St) as [_ Ct].
  assert (Hcol : forall col, (col < 4)%nat ->
            [get2 s 0 col; get2 s 1 col; get2 s 2 col; get2 s 3 col]
            = [get2 t 0 col; get2 t 1 col; get2 t 2 col; get2 t 3 col]).
  { intros col Hc. apply mix_single_column_inj; try reflexivity.
    - repeat first [apply Forall_nil_2 | apply Forall_cons_2];
        now apply is_byte_cells.
    - repeat first [apply Forall_nil_2 | apply Forall_cons_2];
        now apply is_byte_cells.
    - apply zth4_ext; try apply mix_single_column_length.
      intros i Hi. rewrite <- Cs, <- Ct by assumption. now rewrite E. }
  apply shape4_ext; try assumption.
  intros row col Hr Hc. specialize (Hcol col Hc).
  injection Hcol as E0 E1 E2 E3.
  destruct row as [|[|[|[|row]]]]; try lia; assumption.
Qed.

Lemma sub_bytes_inj (s t : state) :
  state_ok s -> state_ok t -> sub_bytes s = sub_bytes t -> s = t.
Proof.
  intros Hs Ht E.
  pose proof (state_ok_shape4 s Hs) as Ss. pose proof (state_ok_shape4 t Ht) as St.
  destruct (sub_bytes_get2 s Ss) as [_ Cs].
  destruct (sub_bytes_get2 t St) as [_ Ct].
  apply shape4_ext; try assumption.
  intros row col Hr Hc.
  assert (Eb : sbox (get2 s row col) = sbox (get2 t row col))
    by (rewrite <- Cs, <- Ct by assumption; now rewrite E).
  assert (H : implb (Z.eqb (sbox (get2 s row col)) (sbox (get2 t row col)))
                    (Z.eqb (get2 s row col) (get2 t row col)) = true)
    by (apply (Base64Facts.forall_bytes2
                 (fun a b => implb (Z.eqb (sbox a) (sbox b)) (Z.eqb a b)));
        [vm_compute; reflexivity | now apply is_byte_cells
        | now apply is_byte_cells]).
  rewrite Eb, Z.eqb_refl in H. cbn [implb] in H. now apply Z.eqb_eq.
Qed.

Lemma shift_rows_inj (s t : state) :
  shape4 s -> shape4 t -> shift_rows s = shift_rows t -> s = t.
Proof.
  intros Ss St E.
  destruct (shift_rows_get2 s Ss) as [_ Cs].
  destruct (shift_rows_get2 t St) as [_ Ct].
  apply shape4_ext; try assumption.
  intros row col Hr Hc.
  pose proof (Cs row ((col + 4 - row) mod 4)%nat Hr) as H1.
  pose proof (Ct row ((col + 4 - row) mod 4)%nat Hr) as H2.
  assert (Hm : ((col + 4 - row) mod 4 < 4)%nat) by (apply Nat.mod_upper_bound; lia).
  specialize (H1 Hm). specialize (H2 Hm).
  replace (((col + 4 - row) mod 4 + row) mod 4)%nat with col in H1, H2.
  - rewrite <- H1, <- H2. now rewrite E.
  - destruct row as [|[|[|[|row]]]]; try lia;
      destruct col as [|[|[|[|col]]]]; try lia; reflexivity.
Qed.

Lemma add_round_key_inj (s t : state) (round_key : list Z) :
  shape4 s -> shape4 t ->
  add_round_key s round_key = add_round_key t round_key -> s = t.
Proof.
  intros Ss St E.
  destruct (add_round_key_get2 s round_key Ss) as [_ Cs].
  destruct (add_round_key_get2 t round_key St) as [_ Ct].
  apply shape4_ext; try assumption.
  intros row col Hr Hc.
  assert (H : Z.lxor (get2 s row col) (zth round_key (row + 4 * col))
              = Z.lxor (get2 t row col) (zth round_key (row + 4 * col)))
    by (rewrite <- Cs, <- Ct by assumption; now rewrite E).
  apply (f_equal (fun v => Z.lxor v (zth round_key (row + 4 * col)))) in H.
  now rewrite !Z.lxor_assoc, !Z.lxor_nilpotent, !Z.lxor_0_r in H.
Qed.

Lemma aes_round_eq (rks : list (list Z)) (s : state) (rnd : nat) :
  aes_round rks s rnd
  = add_round_key (mix_columns (shift_rows (sub_bytes s))) (nth rnd rks []).
Proof. reflexivity. Qed.

Lemma aes_round_inj (rks : list (list Z)) (s t : state) (rnd : nat) :
  Forall key_ok rks -> state_ok s -> state_ok t ->
  aes_round rks s rnd = aes_round rks t rnd -> s = t.
Proof.
  intros Hk Hs Ht E. rewrite !aes_round_eq in E.
  apply add_round_key_inj in E;
    [|apply state_ok_shape4; auto using mix_columns_ok, shift_rows_ok, sub_bytes_ok ..].
  apply mix_columns_inj in E; [|auto using shift_rows_ok, sub_bytes_ok ..].
  apply shift_rows_inj in E;
    [|apply state_ok_shape4; auto using sub_bytes_ok ..].
  now apply sub_bytes_inj in E.
Qed.

Lemma fold_left_cons {A B} (f : A -> B -> A) (x : B) (l : list B) (a : A) :
  fold_left f (x :: l) a = fold_left f l (f a x).
Proof. reflexivity. Qed.

Lemma aes_rounds_inj (rks : list (list Z)) (rounds : list nat) (s t : state) :
  Forall key_ok rks -> state_ok s -> state_ok t ->
  fold_left (aes_round rks) rounds s = fold_left (aes_round rks) rounds t ->
  s = t.
Proof.
  intros Hk. revert s t. induction rounds as [|rnd rounds IH]; intros s t Hs Ht E.
  - exact E.
  - rewrite !fold_left_cons in E. apply IH in E; [|now apply aes_round_ok ..].
    now apply aes_round_inj in E.
Qed.

Lemma bytes_of_ints_inv (l : list Z) (bs : bytes) :
  bytes_of_ints l = Some bs -> ints_of_bytes bs = l.
Proof.
  revert bs. induction l as [|v l IH]; intros bs H; cbn [bytes_of_ints] in H.
  - now injection H as <-.
  - destruct (byte_of_Z_checked v) as [b|] eqn:Eb; [|discriminate].
    destruct (bytes_of_ints l) as [bs'|]; [|discriminate].
    injection H as <-. unfold ints_of_bytes in *. cbn [map].
    rewrite (IH bs' eq_refl). f_equal.
    unfold byte_of_Z_checked in Eb.
    destruct ((0 <=? v) && (v <? 256)) eqn:Er; [|discriminate].
    apply andb_prop in Er as [E0 E1].
    destruct (byte_of_Z_checked_total v) as (b' & Hb' & Ev); [unfold is_byte; lia|].
    unfold byte_of_Z_checked in Hb'. rewrite E0, E1 in Hb'. cbn [andb] in Hb'.
    congruence.
Qed.

Lemma state_to_bytes_inj (s t : state) (block : bytes) :
  state_ok s -> state_ok t ->
  state_to_bytes s = Ok block -> state_to_bytes t = Ok block -> s = t.
Proof.
  intros Hs Ht Es Et.
  destruct (state_ok_inv s Hs)
    as (a0 & a1 & a2 & a3 & b0 & b1 & b2 & b3 & c0 & c1 & c2 & c3
        & d0 & d1 & d2 & d3 & -> & _).
  destruct (state_ok_inv t Ht)
    as (a0' & a1' & a2' & a3' & b0' & b1' & b2' & b3' & c0' & c1' & c2' & c3'
        & d0' & d1' & d2' & d3' & -> & _).
  unfold state_to_bytes in Es, Et.
  match type of Es with
  | context [bytes_of_ints ?o] =>
      replace o with [a0; b0; c0; d0; a1; b1; c1; d1;
                      a2; b2; c2; d2; a3; b3; c3; d3] in Es
        by (vm_compute; reflexivity)
  end.
  match type of Et with
  | context [bytes_of_ints ?o] =>
      replace o with [a0'; b0'; c0'; d0'; a1'; b1'; c1'; d1';
                      a2'; b2'; c2'; d2'; a3'; b3'; c3'; d3'] in Et
        by (vm_compute; reflexivity)
  end.
  destruct (bytes_of_ints [a0; b0; c0; d0; a1; b1; c1; d1;
                           a2; b2; c2; d2; a3; b3; c3; d3]) as [bs|] eqn:E1;
    [|discriminate].
  destruct (bytes_of_ints [a0'; b0'; c0'; d0'; a1'; b1'; c1'; d1';
                           a2'; b2'; c2'; d2'; a3'; b3'; c3'; d3']) as [bs'|] eqn:E2;
    [|discriminate].
  injection Es as ->. injection Et as ->.
  apply bytes_of_ints_inv in E1, E2. congruence.
Qed.

Lemma Z_of_byte_inj (a b : byte) : Z_of_byte a = Z_of_byte b -> a = b.
Proof.
  intros E. rewrite <- (byte_of_Z_of_byte a), <- (byte_of_Z_of_byte b).
  now rewrite E.
Qed.

Lemma bytes_to_state_inj (b1 b2 : bytes) :
  length b1 = 16%nat -> length b2 = 16%nat ->
  bytes_to_state (ints_of_bytes b1) = bytes_to_state (ints_of_bytes b2) ->
  b1 = b2.
Proof.
  intros L1 L2 E.
  destruct (length16_inv b1 L1)
    as (x0 & x1 & x2 & x3 & x4 & x5 & x6 & x7 & x8 & x9 & x10 & x11 & x12
        & x13 & x14 & x15 & ->).
  destruct (length16_inv b2 L2)
    as (y0 & y1 & y2 & y3 & y4 & y5 & y6 & y7 & y8 & y9 & y10 & y11 & y12
        & y13 & y14 & y15 & ->).
  cbv [bytes_to_state ints_of_bytes map seq zth nth Nat.add Nat.mul] in E.
  injection E as ? ? ? ? ? ? ? ? ? ? ? ? ? ? ? ?.
  repeat match goal with
         | H : Z_of_byte _ = Z_of_byte _ |- _ => apply Z_of_byte_inj in H
         end.
  congruence.
Qed.

Lemma aes_encrypt_block_eq (key block : bytes) (rks : list (list Z)) :
  length block = 16%nat -> expand_key key = Ok rks ->
  aes_encrypt_block key block
  = state_to_bytes
      (add_round_key
         (shift_rows
            (sub_bytes
               (fold_left (aes_round rks) (seq 1 9)
                  (add_round_key (bytes_to_state (ints_of_bytes block))
                                 (nth 0 rks [])))))
         (nth 10 rks [])).
Proof.
  intros Hb Ek. unfold aes_encrypt_block. rewrite Hb, Ek. reflexivity.
Qed.

(** X12: for a fixed key [aes_encrypt_block] is injective: two blocks
    with the same ciphertext under the same key are the same block. *)
Theorem aes_encrypt_block_injective (key block1 block2 ciphertext : bytes) :
  aes_encrypt_block key block1 = Ok ciphertext ->
  aes_encrypt_block key block2 = Ok ciphertext ->
  block1 = block2.
Proof.
  intros E1 E2.
  assert (L1 : length block1 = 16%nat).
  { destruct (Nat.eq_dec (length block1) 16%nat) as [H|H]; [assumption|].
    rewrite (aes_encrypt_block_bad_block key block1 H) in E1. discriminate. }
  assert (L2 : length block2 = 16%nat).
  { destruct (Nat.eq_dec (length block2) 16%nat) as [H|H]; [assumption|].
    rewrite (aes_encrypt_block_bad_block key block2 H) in E2. discriminate. }
  assert (Lk : length key = 16%nat).
  { destruct (Nat.eq_dec (length key) 16%nat) as [H|H]; [assumption|].
    rewrite (aes_encrypt_block_bad_key key block1 L1 H) in E1. discriminate. }
  destruct (expand_key_ok key Lk) as (rks & Ek & _ & Hrks).
  rewrite (aes_encrypt_block_eq key block1 rks L1 Ek) in E1.
  rewrite (aes_encrypt_block_eq key block2 rks L2 Ek) in E2.
  pose proof (bytes_to_state_ok _ (ints_of_bytes_ok block1)) as S1.
  pose proof (bytes_to_state_ok _ (ints_of_bytes_ok block2)) as S2.
  pose proof (round_key_bytes rks 0 Hrks) as K0.
  pose proof (round_key_bytes rks 10 Hrks) as K10.
  pose proof (add_round_key_ok _ _ S1 K0) as A1.
  pose proof (add_round_key_ok _ _ S2 K0) as A2.
  assert (R1 := fold_left_inv state_ok (aes_round rks) (seq 1 9) _ A1
                  (fun s a Hs => aes_round_ok rks s a Hrks Hs)).
  assert (R2 := fold_left_inv state_ok (aes_round rks) (seq 1 9) _ A2
                  (fun s a Hs => aes_round_ok rks s a Hrks Hs)).
  pose proof (state_to_bytes_inj _ _ ciphertext
                (add_round_key_ok _ _ (shift_rows_ok _ (sub_bytes_ok _ R1)) K10)
                (add_round_key_ok _ _ (shift_rows_ok _ (sub_bytes_ok _ R2)) K10)
                E1 E2) as E.
  apply add_round_key_inj in E;
    [|apply state_ok_shape4; auto using shift_rows_ok, sub_bytes_ok ..].
  apply shift_rows_inj in E;
    [|apply state_ok_shape4; auto using sub_bytes_ok ..].
  apply sub_bytes_inj in E; [|assumption ..].
  apply aes_rounds_inj in E; [|assumption ..].
  apply add_round_key_inj in E; [|now apply state_ok_shape4 ..].
  now apply bytes_to_state_inj in E.
Qed.

Lemma aes_encrypt_block_injective_witness :
  fromhex "00112233445566778899aabbccddeeff"
  = [x00; x11; x22; x33; x44; x55; x66; x77;
     x88; x99; xaa; xbb; xcc; xdd; xee; xff].
Proof.
  apply (aes_encrypt_block_injective
           (fromhex "000102030405060708090a0b0c0d0e0f") _ _
           (fromhex "69c4e0d86a7b0430d8cdb78070b4c55a"));
    vm_compute; reflexivity.
Defined.

(** ** Blob codec: the two prefixes, the fields *)

(** X14: the prefixes [01] and [03] are interchangeable: the same payload
    behind either of them parses to the same record or fails with the
    same error. *)
Theorem parse_password_blob_prefix (payload : string) :
  parse_password_blob ("01" ++ payload) = parse_password_blob ("03" ++ payload).
Proof.
  unfold parse_password_blob.
  change (list_ascii_of_string ("01" ++ payload))
    with ("0"%char :: "1"%char :: list_ascii_of_string payload).
  change (list_ascii_of_string ("03" ++ payload))
    with ("0"%char :: "3"%char :: list_ascii_of_string payload).
  cbn [length]. destruct (Nat.ltb _ 62); [reflexivity|].
  change (take 2 ("0"%char :: "1"%char :: list_ascii_of_string payload))
    with (list_ascii_of_string "01").
  change (take 2 ("0"%char :: "3"%char :: list_ascii_of_string payload))
    with (list_ascii_of_string "03").
  rewrite !bool_decide_eq_true_2 by reflexivity.
  rewrite orb_true_r. reflexivity.
Qed.

Lemma slice2 {A} (l : list A) (i j : nat) (d : A) :
  j = (i + 2)%nat -> (j <= length l)%nat ->
  slice i j l = [nth i l d; nth (S i) l d].
Proof.
  intros ->. unfold slice. replace (i + 2 - i)%nat with 2%nat by lia.
  revert l. induction i as [|i IH]; intros l Hl.
  - destruct l as [|a [|b l]]; cbn in Hl; try lia. reflexivity.
  - destruct l as [|a l]; cbn in Hl; [lia|]. cbn [drop nth].
    apply IH. lia.
Qed.

(** X15: a record that [parse_password_blob] returns holds the first 32
    bytes of the decoded payload as secret and the big-endian 16-bit
    values of bytes 32..33 and 34..35 as [min_seed] and [algo_id]; the
    secret has 32 bytes, both numbers lie in 0..65535, and the last 8
    bytes of the payload are the first 8 of SHA-256 over its first 36. *)
Theorem parse_password_blob_record (blob : string) (record : PasswordRecord) :
  parse_password_blob blob = Ok record ->
  exists raw,
    Base64.b64decode (drop 2 (list_ascii_of_string blob)) = Some raw /\
    length raw = 44%nat /\
    secret record = take 32 raw /\
    min_seed record
    = 256 * Z_of_byte (nth 32 raw x00) + Z_of_byte (nth 33 raw x00) /\
    algo_id record
    = 256 * Z_of_byte (nth 34 raw x00) + Z_of_byte (nth 35 raw x00) /\
    drop 36 raw = take 8 (Sha256.sha256 (take 36 raw)) /\
    length (secret record) = 32%nat /\
    0 <= min_seed record <= 65535 /\ 0 <= algo_id record <= 65535.
Proof.
  intros H. destruct (parse_ok_record blob record H) as (Hs & Hm & Ha).
  destruct (parse_ok_inv blob record H) as (raw & _ & _ & Hdec & Hraw & Hsum & ->).
  exists raw. split; [assumption|]. split; [assumption|].
  split; [reflexivity|]. unfold record_of in *. cbn [min_seed algo_id secret] in *.
  rewrite (slice2 raw 32 34 x00) in Hm |- * by lia.
  rewrite (slice2 raw 34 36 x00) in Ha |- * by lia.
  split; [unfold int_from_bytes_big; cbn [fold_left]; lia|].
  split; [unfold int_from_bytes_big; cbn [fold_left]; lia|].
  split.
  - unfold checksum_ok, slice in Hsum. rewrite Hsum.
    rewrite take_ge by (rewrite length_drop; lia). reflexivity.
  - split; [assumption|]. split; lia.
Qed.

Lemma parse_password_blob_record_witness :
  length (secret record_0x87) = 32%nat /\ min_seed record_0x87 = 245.
Proof.
  destruct (parse_password_blob_record blob_0x87 record_0x87 parse_blob_0x87)
    as (raw & _ & _ & _ & _ & _ & _ & H & _).
  split; [exact H | reflexivity].
Defined.

(** A blob written from a 36-byte body: the prefix, then the Base64 text
    of the body followed by the first 8 bytes of its SHA-256. *)
Definition blob_of_body (prefix : string) (body : bytes) : string :=
  string_of_list_ascii
    (list_ascii_of_string prefix
     ++ Base64.b64encode (body ++ take 8 (Sha256.sha256 body))).

(** X16: every 36-byte body gives a blob that parses: behind the prefix
    [01] or [03], the Base64 text of the body followed by the first 8
    bytes of its SHA-256 parses to the record whose secret is the first 32
    bytes of the body and whose [min_seed] and [algo_id] are its bytes
    32..33 and 34..35. *)
Theorem parse_password_blob_of_body (prefix : string) (body : bytes) :
  prefix = "01"%string \/ prefix = "03"%string ->
  length body = 36%nat ->
  parse_password_blob (blob_of_body prefix body)
  = Ok {| secret := take 32 body;
          min_seed := int_from_bytes_big (slice 32 34 body);
          algo_id := int_from_bytes_big (slice 34 36 body) |}.
Proof.
  intros Hp Hb.
  set (raw := body ++ take 8 (Sha256.sha256 body)).
  assert (Hraw : length raw = 44%nat).
  { subst raw. rewrite length_app, length_take, sha256_length. lia. }
  assert (Hcs : exists p q,
             list_ascii_of_string (blob_of_body prefix body)
             = p :: q :: Base64.b64encode raw /\
             valid_prefix (p :: q :: Base64.b64encode raw)).
  { unfold blob_of_body. rewrite list_ascii_of_string_of_list_ascii.
    fold raw. destruct Hp as [-> | ->].
    - exists "0"%char, "1"%char. split; [reflexivity | now left].
    - exists "0"%char, "3"%char. split; [reflexivity | now right]. }
  destruct Hcs as (p & q & Hcs & Hv).
  rewrite (parse_after_checks (blob_of_body prefix body) raw); cbv zeta;
    rewrite ?Hcs.
  - rewrite bool_decide_eq_true_2.
    + unfold record_of, slice. subst raw. f_equal. f_equal.
      * now rewrite take_app_le by lia.
      * rewrite drop_app_le by lia.
        now rewrite take_app_le by (rewrite length_drop; lia).
      * rewrite drop_app_le by lia.
        now rewrite take_app_le by (rewrite length_drop; lia).
    + unfold checksum_ok, slice. subst raw.
      rewrite take_app_length' by lia. rewrite drop_app_length' by lia.
      symmetry. apply take_ge. rewrite length_take, sha256_length. lia.
  - cbn [length]. rewrite Base64Facts.b64encode_length, Hraw. cbn. lia.
  - exact Hv.
  - change (length (Base64.b64encode raw) = 60%nat).
    now rewrite Base64Facts.b64encode_length, Hraw.
  - apply Base64Facts.b64decode_b64encode.
  - exact Hraw.
Qed.

Lemma parse_password_blob_of_body_witness :
  parse_password_blob (blob_of_body "03" (take 36 raw_0x87))
  = Ok {| secret := take 32 (take 36 raw_0x87);
          min_seed := int_from_bytes_big (slice 32 34 (take 36 raw_0x87));
          algo_id := int_from_bytes_big (slice 34 36 (take 36 raw_0x87)) |}.
Proof.
  refine (parse_password_blob_of_body "03" (take 36 raw_0x87) _ _).
  - now right.
  - reflexivity.
Defined.

Example blob_of_body_0x87 :
  blob_of_body "01" (take 36 raw_0x87) = blob_0x87.
Proof. vm_compute. reflexivity. Qed.

(** ** The characters of a blob that parses *)

Module BlobShape.
Import Base64.

Lemma skip_data_split (cs : list ascii) :
  exists data,
    cs = data ++ skip_data cs /\ Forall (fun c => is_b64_char c = true) data.
Proof.
  induction cs as [|c cs (data & E & Hd)].
  - exists []. split; [reflexivity | constructor].
  - cbn [skip_data]. destruct (is_b64_char c) eqn:Hc.
    + exists (c :: data). split; [cbn; now f_equal | now constructor].
    + exists []. split; [reflexivity | constructor].
Qed.

Lemma valid_shape_pads (cs : list ascii) :
  valid_shape cs = true ->
  skip_data cs = [] \/ skip_data cs = [pad_char] \/
  skip_data cs = [pad_char; pad_char].
Proof.
  unfold valid_shape. destruct (skip_data cs) as [|p [|q [|r l]]]; intros H.
  - now left.
  - right; left. apply Ascii.eqb_eq in H. now subst.
  - right; right. apply andb_prop in H as [Hp Hq].
    apply Ascii.eqb_eq in Hp, Hq. now subst.
  - discriminate.
Qed.

(** The decoder of [a2b] with the bytes forgotten: only the kind of each
    character (padding or data) and the number of bytes written. *)
Fixpoint a2b_len (is_pad : list bool) (quad_pos pads written : nat)
    : option nat :=
  match is_pad with
  | [] => if Nat.eqb quad_pos 0 then Some written else None
  | true :: rest =>
      if Nat.leb 2 quad_pos then
        if Nat.leb 4 (quad_pos + S pads) then Some written
        else a2b_len rest quad_pos (S pads) written
      else a2b_len rest quad_pos pads written
  | false :: rest =>
      match quad_pos with
      | 0%nat => a2b_len rest 1 0 written
      | 1%nat => a2b_len rest 2 0 (S written)
      | 2%nat => a2b_len rest 3 0 (S written)
      | _ => a2b_len rest 0 0 (S written)
      end
  end.

Definition kind (c : ascii) : bool := Ascii.eqb c pad_char.

Lemma data_kind (c : ascii) : is_b64_char c = true -> kind c = false.
Proof.
  intros H. unfold kind. destruct (Ascii.eqb_spec c pad_char) as [->|];
    [|reflexivity].
  vm_compute in H. discriminate.
Qed.

Lemma a2b_written (cs : list ascii) :
  Forall (fun c => c = pad_char \/ is_b64_char c = true) cs ->
  forall quad_pos leftchar pads out,
    option_map (@length Z) (a2b cs quad_pos leftchar pads out)
    = a2b_len (map kind cs) quad_pos pads (length out).
Proof.
  induction 1 as [|c cs Hc _ IH]; intros quad_pos leftchar pads out.
  - cbn [a2b map a2b_len]. now destruct (Nat.eqb quad_pos 0).
  - cbn [a2b map a2b_len]. destruct Hc as [-> | Hc].
    + change (kind pad_char) with true.
      change (Ascii.eqb pad_char pad_char) with true. cbv iota.
      destruct (Nat.leb 2 quad_pos); [|apply IH].
      destruct (Nat.leb 4 (quad_pos + S pads)); [reflexivity | apply IH].
    + rewrite (data_kind c Hc). fold (kind c). rewrite (data_kind c Hc).
      unfold is_b64_char in Hc.
      destruct (b64_value c) as [v|]; [|discriminate].
      destruct quad_pos as [|[|[|quad_pos]]]; rewrite IH;
        rewrite ?length_app; cbn [length];
        rewrite ?Nat.add_1_r; reflexivity.
Qed.

Lemma map_kind_data (data : list ascii) :
  Forall (fun c => is_b64_char c = true) data ->
  map kind data = replicate (length data) false.
Proof.
  induction 1 as [|c data Hc _ IH]; [reflexivity|].
  cbn [map length replicate]. now rewrite (data_kind c Hc), IH.
Qed.

(** Sixty characters that decode to 44 bytes are 59 alphabet characters
    and one final padding character. *)
Lemma b64decode_60_44 (payload : list ascii) (raw : bytes) :
  length payload = 60%nat -> b64decode payload = Some raw ->
  length raw = 44%nat ->
  exists data,
    payload = data ++ [pad_char] /\ length data = 59%nat /\
    Forall (fun c => is_b64_char c = true) data.
Proof.
  intros Hl Hdec Hraw. unfold b64decode in Hdec.
  destruct (valid_shape payload) eqn:Hv; [|discriminate].
  destruct (a2b payload 0 0 0 []) as [out|] eqn:Ha; [|discriminate].
  injection Hdec as <-. rewrite length_map in Hraw.
  destruct (skip_data_split payload) as (data & E & Hd).
  assert (Hall : Forall (fun c => c = pad_char \/ is_b64_char c = true) payload).
  { rewrite E. apply Forall_app. split.
    - eapply Forall_impl; [exact Hd|]. intros c Hc. now right.
    - destruct (valid_shape_pads payload Hv) as [-> | [-> | ->]];
        repeat constructor. }
  pose proof (a2b_written payload Hall 0%nat 0 0%nat []) as Hw.
  rewrite Ha in Hw. cbn [option_map length] in Hw. rewrite Hraw in Hw.
  rewrite E, map_app, (map_kind_data data Hd) in Hw.
  assert (Hlen : length payload = (length data + length (skip_data payload))%nat)
    by (rewrite E at 1; apply length_app).
  destruct (valid_shape_pads payload Hv) as [Hp | [Hp | Hp]];
    rewrite Hp in *; cbn [length] in Hlen.
  - replace (length data) with 60%nat in Hw by lia.
    vm_compute in Hw. discriminate.
  - exists data. split; [assumption|]. split; [lia | assumption].
  - replace (length data) with 58%nat in Hw by lia.
    vm_compute in Hw. discriminate.
Qed.

Lemma index_of_in (c : ascii) (l : list ascii) (i v : Z) :
  index_of c l i = Some v -> In c l.
Proof.
  revert i. induction l as [|d l IH]; intros i H; [discriminate|].
  cbn [index_of] in H. destruct (Ascii.eqb_spec c d) as [->|_].
  - now left.
  - right. eapply IH, H.
Qed.

Lemma is_b64_char_in (c : ascii) : is_b64_char c = true -> In c alphabet.
Proof.
  unfold is_b64_char, b64_value. intros H.
  destruct (index_of c alphabet 0) as [v|] eqn:E; [|discriminate].
  eapply index_of_in, E.
Qed.

End BlobShape.

(** X17: a blob that parses has exactly 62 characters: the prefix [01]
    or [03], then 59 characters of the Base64 alphabet, then one [=]. *)
Theorem parse_password_blob_shape (blob : string) (record : PasswordRecord) :
  parse_password_blob blob = Ok record ->
  exists prefix data,
    list_ascii_of_string blob = prefix ++ data ++ ["="%char] /\
    (prefix = list_ascii_of_string "01" \/ prefix = list_ascii_of_string "03") /\
    length data = 59%nat /\
    Forall (fun c => In c Base64.alphabet) data.
Proof.
  intros H.
  pose proof (parse_ok_inv blob record H) as Hinv. cbv zeta in Hinv.
  destruct Hinv as (raw & Hl & Hp & Hdec & Hraw & _ & _).
  assert (Hpay : length (drop 2 (list_ascii_of_string blob)) = 60%nat)
    by (rewrite length_drop, Hl; reflexivity).
  destruct (BlobShape.b64decode_60_44 _ raw Hpay Hdec Hraw)
    as (data & E & Hd & Hall).
  exists (take 2 (list_ascii_of_string blob)), data.
  split; [|split; [exact Hp|split; [exact Hd|]]].
  - change ["="%char] with [Base64.pad_char]. rewrite <- E.
    symmetry. apply take_drop.
  - eapply Forall_impl; [exact Hall|]. intros c. apply BlobShape.is_b64_char_in.
Qed.

Lemma parse_password_blob_shape_witness :
  exists prefix data,
    list_ascii_of_string blob_0x87 = prefix ++ data ++ ["="%char] /\
    length data = 59%nat.
Proof.
  destruct (parse_password_blob_shape blob_0x87 record_0x87 parse_blob_0x87)
    as (prefix & data & E & _ & Hd & _).
  exists prefix, data. split; [exact E | exact Hd].
Defined.

(** ** Blob codec: the errors between the length check and the checksum *)

Module PayloadShape.
Import Base64.

Lemma index_of_found (c : ascii) (l : list ascii) (i : Z) :
  In c l -> exists v, index_of c l i = Some v.
Proof.
  revert i. induction l as [|d l IH]; intros i H; [destruct H|].
  cbn [index_of]. destruct (Ascii.eqb_spec c d) as [_|Hn]; [now eexists|].
  destruct H as [->|H]; [contradiction | now apply IH].
Qed.

Lemma in_is_b64_char (c : ascii) : In c alphabet -> is_b64_char c = true.
Proof.
  intros H. unfold is_b64_char, b64_value.
  now destruct (index_of_found c alphabet 0 H) as [v ->].
Qed.

Lemma all_is_b64_char (cs : list ascii) :
  Forall (fun c => In c alphabet) cs ->
  Forall (fun c => is_b64_char c = true) cs.
Proof.
  intros H. eapply Forall_impl; [exact H|]. intros c. apply in_is_b64_char.
Qed.

Lemma skip_data_app (data rest : list ascii) :
  Forall (fun c => is_b64_char c = true) data ->
  skip_data (data ++ rest) = skip_data rest.
Proof.
  induction 1 as [|c data Hc _ IH]; [reflexivity|].
  cbn [app skip_data]. now rewrite Hc.
Qed.

(** A character that is neither of the alphabet nor the padding character
    fails the shape check. *)
Lemma valid_shape_chars (cs : list ascii) :
  valid_shape cs = true ->
  Forall (fun c => c = pad_char \/ is_b64_char c = true) cs.
Proof.
  intros Hv. destruct (BlobShape.skip_data_split cs) as (data & E & Hd).
  rewrite E. apply Forall_app. split.
  - eapply Forall_impl; [exact Hd|]. intros c Hc. now right.
  - destruct (BlobShape.valid_shape_pads cs Hv) as [-> | [-> | ->]];
      repeat constructor.
Qed.

Lemma b64decode_foreign (cs : list ascii) :
  Exists (fun c => c <> pad_char /\ ~ In c alphabet) cs ->
  b64decode cs = None.
Proof.
  intros Hex. unfold b64decode.
  destruct (valid_shape cs) eqn:Hv; [|reflexivity].
  apply valid_shape_chars in Hv. apply Exists_exists in Hex.
  destruct Hex as (c & Hin & Hp & Ha).
  rewrite Forall_forall in Hv. destruct (Hv c Hin) as [->|Hc].
  - contradiction.
  - apply BlobShape.is_b64_char_in in Hc. contradiction.
Qed.

(** The bytes decoded from alphabet characters followed by at most two
    padding characters. *)
Lemma b64decode_data_pads (data pads : list ascii) :
  Forall (fun c => is_b64_char c = true) data ->
  pads = [] \/ pads = [pad_char] \/ pads = [pad_char; pad_char] ->
  option_map (@length byte) (b64decode (data ++ pads))
  = BlobShape.a2b_len (replicate (length data) false
                       ++ replicate (length pads) true) 0 0 0.
Proof.
  intros Hd Hp.
  assert (Hpads : skip_data pads = pads /\
                  map BlobShape.kind pads = replicate (length pads) true /\
                  Forall (fun c => c = pad_char \/ is_b64_char c = true) pads).
  { destruct Hp as [-> | [-> | ->]]; repeat split; repeat constructor. }
  destruct Hpads as (Hs & Hk & Hall).
  unfold b64decode.
  replace (valid_shape (data ++ pads)) with true.
  - assert (Hboth : Forall (fun c => c = pad_char \/ is_b64_char c = true)
                            (data ++ pads)).
    { apply Forall_app. split; [|exact Hall].
      eapply Forall_impl; [exact Hd|]. intros c Hc. now right. }
    pose proof (BlobShape.a2b_written (data ++ pads) Hboth 0%nat 0 0%nat [])
      as Hw.
    rewrite map_app, (BlobShape.map_kind_data data Hd), Hk in Hw.
    cbn [length] in Hw. rewrite <- Hw.
    destruct (a2b (data ++ pads) 0 0 0 []) as [out|]; [|reflexivity].
    cbn [option_map]. now rewrite length_map.
  - symmetry. unfold valid_shape. rewrite (skip_data_app data pads Hd), Hs.
    destruct Hp as [-> | [-> | ->]]; reflexivity.
Qed.

Lemma b64decode_60_data (payload : list ascii) :
  length payload = 60%nat -> Forall (fun c => In c alphabet) payload ->
  exists raw, b64decode payload = Some raw /\ length raw = 45%nat.
Proof.
  intros Hl Hd. apply all_is_b64_char in Hd.
  pose proof (b64decode_data_pads payload [] Hd ltac:(now left)) as H.
  rewrite app_nil_r, Hl in H.
  destruct (b64decode payload) as [raw|]; [|vm_compute in H; discriminate].
  exists raw. split; [reflexivity|].
  vm_compute in H. now injection H.
Qed.

Lemma b64decode_59_data (data : list ascii) :
  length data = 59%nat -> Forall (fun c => In c alphabet) data ->
  exists raw, b64decode (data ++ [pad_char]) = Some raw /\
              length raw = 44%nat.
Proof.
  intros Hl Hd. apply all_is_b64_char in Hd.
  pose proof (b64decode_data_pads data [pad_char] Hd
                ltac:(right; now left)) as H.
  rewrite Hl in H.
  destruct (b64decode (data ++ [pad_char])) as [raw|];
    [|vm_compute in H; discriminate].
  exists raw. split; [reflexivity|].
  vm_compute in H. now injection H.
Qed.

End PayloadShape.

(** The payload of a blob that can still parse: alphabet characters
    followed by one [=]. *)
Definition payload_shape (payload : list ascii) : Prop :=
  exists data,
    payload = data ++ ["="%char] /\
    Forall (fun c => In c Base64.alphabet) data.

(** What [parse_password_blob] returns once length and prefix are
    accepted, in terms of the decoder. *)
Lemma parse_after_prefix (blob : string) :
  let cs := list_ascii_of_string blob in
  length cs = 62%nat -> valid_prefix cs ->
  parse_password_blob blob =
    match Base64.b64decode (drop 2 cs) with
    | None => Err Base64Invalid
    | Some raw =>
        if negb (Nat.eqb (length raw) 44) then Err DecodedLength
        else if bool_decide (checksum_ok raw) then Ok (record_of raw)
             else Err AuthenticityError
    end.
Proof.
  intros cs Hl Hp. unfold parse_password_blob. fold cs.
  rewrite Hl. cbn [Nat.ltb Nat.leb].
  rewrite (proj2 (valid_prefix_decide cs) Hp). cbn [negb].
  rewrite length_drop, Hl. cbn [Nat.sub Nat.eqb negb].
  destruct (Base64.b64decode (drop 2 cs)) as [raw|]; [|reflexivity].
  destruct (negb (Nat.eqb (length raw) 44)); [reflexivity|].
  unfold checksum_ok, record_of. destruct (bool_decide _); reflexivity.
Qed.

(** The two errors of the decoding step come after the checks of length
    and prefix. *)
Lemma parse_decoding_error_inv (blob : string) :
  parse_password_blob blob = Err Base64Invalid \/
  parse_password_blob blob = Err DecodedLength ->
  let cs := list_ascii_of_string blob in
  length cs = 62%nat /\ valid_prefix cs.
Proof.
  intros H cs. unfold parse_password_blob in H. fold cs in H.
  destruct (Nat.ltb_spec (length cs) 62) as [Hlt|Hge];
    [destruct H; discriminate|].
  destruct (bool_decide (take 2 cs = list_ascii_of_string "01")
            || bool_decide (take 2 cs = list_ascii_of_string "03"))
    eqn:Hpre; cbn [negb] in H; [|destruct H; discriminate].
  apply valid_prefix_decide in Hpre.
  destruct (Nat.eqb_spec (length (drop 2 cs)) 60) as [Hpay|Hpay];
    cbn [negb] in H; [|destruct H; discriminate].
  rewrite length_drop in Hpay. split; [lia | assumption].
Qed.

(** X13: the errors of [parse_password_blob] between the length check and
    the checksum.  A blob of at least 62 characters fails with the prefix
    error exactly when its first two characters are neither [01] nor
    [03].  A blob fails in the decoding step, with the error of
    [b64decode] or with the decoded-length error, exactly when it has 62
    characters, a valid prefix and a payload that is not 59 alphabet
    characters followed by one [=].  Of these payloads, one with a
    character that is neither of the alphabet nor [=] gives the error of
    [b64decode], and one of 60 alphabet characters, which decodes to 45
    bytes, gives the decoded-length error.  (Which of the two errors the
    remaining payloads give, those with [=] elsewhere than as the last
    one or two characters, is left open: [b64decode] does not treat them
    alike in every release of CPython.) *)
Theorem parse_password_blob_format_errors (blob : string) :
  let cs := list_ascii_of_string blob in
  let payload := drop 2 cs in
  (parse_password_blob blob = Err UnsupportedPrefix
   <-> (62 <= length cs)%nat /\ ~ valid_prefix cs) /\
  (parse_password_blob blob = Err Base64Invalid \/
   parse_password_blob blob = Err DecodedLength
   <-> length cs = 62%nat /\ valid_prefix cs /\ ~ payload_shape payload) /\
  (length cs = 62%nat -> valid_prefix cs ->
   Exists (fun c => c <> "="%char /\ ~ In c Base64.alphabet) payload ->
   parse_password_blob blob = Err Base64Invalid) /\
  (length cs = 62%nat -> valid_prefix cs ->
   Forall (fun c => In c Base64.alphabet) payload ->
   parse_password_blob blob = Err DecodedLength).
Proof.
  intros cs payload. split; [|split; [|split]].
  - unfold parse_password_blob. fold cs.
    destruct (Nat.ltb_spec (length cs) 62) as [Hlt|Hge].
    { split; [discriminate | lia]. }
    destruct (bool_decide (take 2 cs = list_ascii_of_string "01")
              || bool_decide (take 2 cs = list_ascii_of_string "03"))
      eqn:Hpre; cbn [negb].
    + apply valid_prefix_decide in Hpre.
      split; [|tauto]. intros H. exfalso.
      repeat match type of H with
             | (if ?c then _ else _) = _ => destruct c
             | match ?c with Some _ => _ | None => _ end = _ => destruct c
             end; discriminate.
    + split; [|reflexivity]. intros _. split; [assumption|].
      intros Hv. apply valid_prefix_decide in Hv. congruence.
  - split.
    + intros H. destruct (parse_decoding_error_inv blob H) as [Hl Hp].
      fold cs in Hl, Hp. split; [assumption|]. split; [assumption|].
      intros (data & E & Hd).
      assert (Hdl : length data = 59%nat).
      { assert (Hpl : length payload = 60%nat)
          by (subst payload; rewrite length_drop; lia).
        rewrite E, length_app in Hpl. cbn [length] in Hpl. lia. }
      destruct (PayloadShape.b64decode_59_data data Hdl Hd)
        as (raw & Hdec & Hraw).
      change ["="%char] with [Base64.pad_char] in E.
      rewrite (parse_after_prefix blob Hl Hp) in H. fold cs payload in H.
      rewrite E, Hdec, Hraw in H. cbn [Nat.eqb negb] in H.
      destruct (bool_decide (checksum_ok raw)); destruct H; discriminate.
    + intros (Hl & Hp & Hn).
      rewrite (parse_after_prefix blob Hl Hp). fold cs payload.
      destruct (Base64.b64decode payload) as [raw|] eqn:Hdec; [|now left].
      destruct (Nat.eqb_spec (length raw) 44) as [Hraw|Hraw]; cbn [negb];
        [|now right].
      exfalso. apply Hn.
      destruct (BlobShape.b64decode_60_44 payload raw) as (data & E & _ & Hd);
        [subst payload; rewrite length_drop; lia | assumption ..|].
      exists data. split; [exact E|].
      eapply Forall_impl; [exact Hd|]. intros c. apply BlobShape.is_b64_char_in.
  - intros Hl Hp Hex. rewrite (parse_after_prefix blob Hl Hp).
    fold cs payload.
    now rewrite (PayloadShape.b64decode_foreign payload Hex).
  - intros Hl Hp Hall. rewrite (parse_after_prefix blob Hl Hp).
    fold cs payload.
    destruct (PayloadShape.b64decode_60_data payload) as (raw & -> & Hraw);
      [subst payload; rewrite length_drop; lia | assumption|].
    rewrite Hraw. reflexivity.
Qed.

Lemma parse_password_blob_format_errors_witness :
  parse_password_blob
    "02CQPSJqJAUF30kUuEh15kDdZqfqta9p2GrPtILEH8W7UA9QCHWt1m7fCkCFs="
  = Err UnsupportedPrefix /\
  parse_password_blob
    "01CQPSJqJAUF30kUuEh15kDdZqfqta9p2GrPtILEH8W7UA9QCHWt1m7fCkCF*="
  = Err Base64Invalid.
Proof.
  split.
  - destruct (parse_password_blob_format_errors
                "02CQPSJqJAUF30kUuEh15kDdZqfqta9p2GrPtILEH8W7UA9QCHWt1m7fCkCFs=")
      as [H _].
    apply H. split; [vm_compute; lia|].
    intros [E|E]; vm_compute in E; discriminate.
  - destruct (parse_password_blob_format_errors
                "01CQPSJqJAUF30kUuEh15kDdZqfqta9p2GrPtILEH8W7UA9QCHWt1m7fCkCF*=")
      as (_ & _ & H & _).
    apply H.
    + reflexivity.
    + left. reflexivity.
    + apply Exists_exists. exists "*"%char. split.
      * apply list_elem_of_In. vm_compute. tauto.
      * split; [discriminate|]. vm_compute. intuition discriminate.
Defined.

(** ** Derivation pipeline: order of the checks, sizes, the seed tail *)

(** X18: [derive_key_from_blob] checks in this order: a blob that does
    not parse gives its parse error whatever the seed and the id; for a
    parsed record the call fails with [AlgorithmMismatch] exactly when
    the requested id differs from the record's, whatever the seed, and
    with [InvalidSeedLength] exactly when the ids agree and the seed does
    not have 5 bytes. *)
Theorem derive_key_from_blob_check_order
    (blob : string) (seed : bytes) (algo : Z) :
  (forall e, parse_password_blob blob = Err e ->
     derive_key_from_blob blob seed algo = Err e) /\
  (forall record, parse_password_blob blob = Ok record ->
     (derive_key_from_blob blob seed algo = Err AlgorithmMismatch
      <-> algo <> algo_id record) /\
     (derive_key_from_blob blob seed algo = Err InvalidSeedLength
      <-> algo = algo_id record /\ length seed <> 5%nat)).
Proof.
  split; [intros e; apply derive_parse_failed|].
  intros record Hp.
  rewrite (derive_after_parse blob seed algo record Hp).
  destruct (Z.eqb_spec algo (algo_id record)) as [Ha|Ha]; cbn [negb];
    [|split; split; try tauto; discriminate].
  destruct (Nat.eqb_spec (length seed) 5) as [Hs|Hs]; cbn [negb];
    [|split; split; try tauto; discriminate].
  destruct (Z.ltb_spec (255 - seed_tail seed) (min_seed record)) as [Hm|Hm];
    [split; split; try tauto; discriminate|].
  destruct (derive_success blob seed algo record Hp Ha Hs Hm)
    as (ct & Hct & _ & _).
  cbv zeta. rewrite Hct. cbn [bind].
  split; split; try tauto; discriminate.
Qed.

Lemma derive_key_from_blob_check_order_witness :
  derive_key_from_blob blob_0x87 [] 0x88 = Err AlgorithmMismatch.
Proof.
  destruct (derive_key_from_blob_check_order blob_0x87 [] 0x88) as [_ H].
  destruct (H record_0x87 parse_blob_0x87) as [Hm _].
  apply Hm. discriminate.
Defined.

Lemma derive_key_from_blob_ok_inv (blob : string) (seed : bytes) (algo : Z)
    (mac : bytes) (iterations : Z) (aes_key : bytes) :
  derive_key_from_blob blob seed algo = Ok (mac, iterations, aes_key) ->
  exists record ct,
    parse_password_blob blob = Ok record /\ algo = algo_id record /\
    length seed = 5%nat /\ min_seed record <= 255 - seed_tail seed /\
    iterations = 255 - seed_tail seed - min_seed record /\
    aes_key = take 16 (run_hash_chain (secret record) iterations) /\
    aes_encrypt_block aes_key (seed_block seed) = Ok ct /\
    length ct = 16%nat /\ mac = take 5 ct.
Proof.
  intros H. pose proof (derive_key_from_blob_outcome blob seed algo) as Ho.
  rewrite H in Ho. inversion Ho as [| | | |r ct Hp Ha Hs Hm Hct Hl]; subst.
  exists r, ct. repeat split; assumption.
Qed.

(** X19: every successful derivation, from a blob or through a registry,
    returns a MAC of exactly 5 bytes and a key of exactly 16 bytes, and
    was given a seed of exactly 5 bytes. *)
Theorem derive_result_sizes
    (blob : string) (seed : bytes) (algo : Z)
    (password_map : option (gmap Z string))
    (mac : bytes) (iterations : Z) (aes_key : bytes) :
  derive_key_from_blob blob seed algo = Ok (mac, iterations, aes_key) \/
  derive_key_from_algo algo seed password_map = Ok (mac, iterations, aes_key) ->
  length mac = 5%nat /\ length aes_key = 16%nat /\ length seed = 5%nat.
Proof.
  assert (Hblob : forall blob,
             derive_key_from_blob blob seed algo = Ok (mac, iterations, aes_key) ->
             length mac = 5%nat /\ length aes_key = 16%nat /\ length seed = 5%nat).
  { clear blob. intros blob H.
    destruct (derive_key_from_blob_ok_inv _ _ _ _ _ _ H)
      as (r & ct & Hp & _ & Hs & _ & _ & -> & _ & Hl & ->).
    destruct (parse_ok_record blob r Hp) as (Hsec & _ & _).
    split; [rewrite length_take; lia|].
    split; [now apply derive_key_length | assumption]. }
  intros [H|H]; [now apply (Hblob blob)|].
  unfold derive_key_from_algo in H.
  destruct (_ !! algo) as [b|]; [|discriminate].
  destruct (String.eqb b ""); [discriminate|]. now apply (Hblob b).
Qed.

Lemma derive_result_sizes_witness :
  length (fromhex "efc97ca6a6") = 5%nat /\
  length (fromhex "df7f64d2dddac1a18f1b4d4a191610f9") = 16%nat /\
  length seed_8ce7d1fd06 = 5%nat.
Proof.
  apply (derive_result_sizes blob_0x87 seed_8ce7d1fd06 0x87 None
           (fromhex "efc97ca6a6") 4
           (fromhex "df7f64d2dddac1a18f1b4d4a191610f9")).
  left. vm_compute. reflexivity.
Defined.

(** X20: the iteration count and the AES key depend on the seed only
    through its last byte: when a derivation succeeds, any other 5-byte
    seed with the same last byte succeeds with the same iterations and
    the same key. *)
Theorem derive_key_depends_on_seed_tail
    (blob : string) (algo : Z) (seed1 seed2 : bytes)
    (mac1 : bytes) (iterations : Z) (aes_key : bytes) :
  length seed2 = 5%nat ->
  nth 4 seed1 x00 = nth 4 seed2 x00 ->
  derive_key_from_blob blob seed1 algo = Ok (mac1, iterations, aes_key) ->
  exists mac2,
    derive_key_from_blob blob seed2 algo = Ok (mac2, iterations, aes_key).
Proof.
  intros Hs2 Ht H.
  destruct (derive_key_from_blob_ok_inv _ _ _ _ _ _ H)
    as (r & ct & Hp & Ha & _ & Hm & -> & -> & _).
  assert (Et : seed_tail seed1 = seed_tail seed2)
    by (unfold seed_tail; now rewrite Ht).
  rewrite Et in *.
  destruct (derive_success blob seed2 algo r Hp Ha Hs2 Hm) as (ct2 & _ & _ & E).
  eauto.
Qed.

Lemma derive_key_depends_on_seed_tail_witness :
  exists mac2,
    derive_key_from_blob blob_0x87 [x00; x00; x00; x00; x06] 0x87
    = Ok (mac2, 4, fromhex "df7f64d2dddac1a18f1b4d4a191610f9").
Proof.
  refine (derive_key_depends_on_seed_tail
            blob_0x87 0x87 seed_8ce7d1fd06 [x00; x00; x00; x00; x06]
            (fromhex "efc97ca6a6") 4
            (fromhex "df7f64d2dddac1a18f1b4d4a191610f9") _ _ _).
  - reflexivity.
  - reflexivity.
  - vm_compute. reflexivity.
Defined.

(** ** Hash chain: composition and edge cases *)

(** X21: hash chains compose: running [n] more iterations on the result
    of [m] iterations is running [m + n] iterations.  A count of zero or
    less returns the secret unchanged, and any count of at least one
    returns 32 bytes whatever the length of the secret. *)
Theorem run_hash_chain_compose (secret : bytes) (m n : Z) :
  (0 <= m -> 0 <= n ->
   run_hash_chain (run_hash_chain secret m) n = run_hash_chain secret (m + n)) /\
  (n <= 0 -> run_hash_chain secret n = secret) /\
  (1 <= n -> length (run_hash_chain secret n) = 32%nat).
Proof.
  split; [|split].
  - intros Hm Hn. rewrite !run_hash_chain_iter.
    replace (Z.to_nat (m + n)) with (Z.to_nat n + Z.to_nat m)%nat by lia.
    now rewrite Nat.iter_add.
  - intros Hn. rewrite run_hash_chain_iter.
    replace (Z.to_nat n) with 0%nat by lia. reflexivity.
  - intros Hn. rewrite run_hash_chain_iter.
    replace (Z.to_nat n) with (S (Z.to_nat (n - 1))) by lia.
    cbn [Nat.iter nat_rect]. apply sha256_length.
Qed.

Lemma run_hash_chain_compose_witness :
  run_hash_chain (run_hash_chain [x61] 2) 3 = run_hash_chain [x61] (2 + 3) /\
  run_hash_chain [x61] (-1) = [x61] /\
  length (run_hash_chain [x61] 1) = 32%nat.
Proof.
  destruct (run_hash_chain_compose [x61] 2 3) as (H1 & _ & _).
  destruct (run_hash_chain_compose [x61] 2 (-1)) as (_ & H2 & _).
  destruct (run_hash_chain_compose [x61] 2 1) as (_ & _ & H3).
  split; [apply H1; lia|]. split; [apply H2; lia | apply H3; lia].
Defined.

(** ** The built-in table *)

Lemma builtin_entry (algo : Z) :
  0 <= algo <= 255 ->
  exists blob record,
    PASSWORD_MAP !! algo = Some blob /\ blob <> ""%string /\
    parse_password_blob blob = Ok record /\
    algo_id record = algo /\ min_seed record = 245.
Proof.
  intros Ha.
  assert (H : forallb
                (fun n =>
                   match PASSWORD_MAP !! Z.of_nat n with
                   | Some blob =>
                       negb (String.eqb blob "")
                       && match parse_password_blob blob with
                          | Ok r => Z.eqb (algo_id r) (Z.of_nat n)
                                    && Z.eqb (min_seed r) 245
                          | Err _ => false
                          end
                   | None => false
                   end) (seq 0 256) = true) by (vm_compute; reflexivity).
  rewrite forallb_forall in H.
  assert (Hin : In (Z.to_nat algo) (seq 0 256)) by (apply in_seq; lia).
  specialize (H _ Hin). rewrite Z2Nat.id in H by lia.
  destruct (PASSWORD_MAP !! algo) as [blob|]; [|discriminate].
  apply andb_prop in H as [Hne H].
  destruct (parse_password_blob blob) as [r|] eqn:Hp; [|discriminate].
  apply andb_prop in H as [H1 H2].
  exists blob, r. split; [reflexivity|].
  split; [intros ->; discriminate|]. split; [exact Hp|]. lia.
Qed.

Lemma builtin_missing (algo : Z) :
  ~ 0 <= algo <= 255 -> PASSWORD_MAP !! algo = None.
Proof.
  intros Ha. unfold PASSWORD_MAP. apply not_elem_of_list_to_map_1.
  intros Hin. apply Ha.
  assert (H : forallb (fun k => (0 <=? k) && (k <=? 255))
                      (PASSWORD_TABLE.*1) = true) by (vm_compute; reflexivity).
  rewrite forallb_forall in H. apply list_elem_of_In in Hin.
  specialize (H _ Hin). apply andb_prop in H. lia.
Qed.

(** X22: with the built-in table ([password_map=None]) and a 5-byte
    seed, [derive_key_from_algo] fails with [UnknownAlgorithm] exactly for
    the ids outside 0..255; for an id in 0..255 it fails with
    [SeedRejected] when the last seed byte exceeds 10 and otherwise
    succeeds with [10 - seed[4]] iterations. *)
Theorem derive_key_from_algo_builtin (algo : Z) (seed : bytes) :
  length seed = 5%nat ->
  let tail := Z_of_byte (nth 4 seed x00) in
  (derive_key_from_algo algo seed None = Err UnknownAlgorithm
   <-> ~ 0 <= algo <= 255) /\
  (0 <= algo <= 255 -> 10 < tail ->
   derive_key_from_algo algo seed None = Err SeedRejected) /\
  (0 <= algo <= 255 -> tail <= 10 ->
   exists mac aes_key,
     derive_key_from_algo algo seed None = Ok (mac, 10 - tail, aes_key)).
Proof.
  intros Hs tail. unfold derive_key_from_algo.
  destruct (Z_le_dec 0 algo) as [H0|H0];
    [destruct (Z_le_dec algo 255) as [H1|H1]|].
  2,3: rewrite builtin_missing by lia;
       (split; [split; [intros _; lia | reflexivity]|]);
       split; intros; lia.
  destruct (builtin_entry algo) as (blob & r & -> & Hne & Hp & Ha & Hm); [lia|].
  destruct (String.eqb_spec blob "") as [E|_]; [contradiction|].
  symmetry in Ha.
  destruct (Z_le_dec tail 10) as [Ht|Ht].
  - destruct (derive_success blob seed algo r Hp Ha Hs) as (ct & _ & _ & E).
    { unfold seed_tail. fold tail. lia. }
    unfold seed_tail in E. fold tail in E. rewrite Hm in E.
    replace (255 - tail - 245) with (10 - tail) in E by lia.
    rewrite E. split; [split; [discriminate | lia]|].
    split; [intros; lia | eauto].
  - rewrite (derive_after_parse blob seed algo r Hp).
    rewrite (proj2 (Z.eqb_eq _ _) Ha), Hs. cbn [negb Nat.eqb].
    unfold seed_tail. fold tail.
    destruct (Z.ltb_spec (255 - tail) (min_seed r)) as [_|Hge]; [|lia].
    split; [split; [discriminate | lia]|].
    split; [reflexivity | intros; lia].
Qed.

Lemma derive_key_from_algo_builtin_witness :
  derive_key_from_algo 0x87 [x00; x00; x00; x00; x0b] None = Err SeedRejected.
Proof.
  destruct (derive_key_from_algo_builtin 0x87 [x00; x00; x00; x00; x0b] eq_refl)
    as (_ & H & _).
  apply H; [lia | vm_compute; reflexivity].
Defined.

(** * The front ends: [keygen.parse_seed] and [gui.normalize_seed] *)

(** [bytes.fromhex(s)]: ASCII whitespace between two-digit groups is
    skipped; anything else that is not a pair of hex digits is an
    error. *)
Definition is_space (c : ascii) : bool :=
  let n := nat_of_ascii c in
  Nat.eqb n 32 || (Nat.leb 9 n && Nat.leb n 13).

Definition hex_digit_value (c : ascii) : option Z :=
  let n := Z.of_nat (nat_of_ascii c) in
  if (48 <=? n) && (n <=? 57) then Some (n - 48)
  else if (97 <=? n) && (n <=? 102) then Some (n - 87)
  else if (65 <=? n) && (n <=? 70) then Some (n - 55)
  else None.

Fixpoint bytes_fromhex (cs : list ascii) : option bytes :=
  match cs with
  | [] => Some []
  | c :: cs' =>
      if is_space c then bytes_fromhex cs'
      else
        match hex_digit_value c, cs' with
        | Some top, d :: cs'' =>
            match hex_digit_value d, bytes_fromhex cs'' with
            | Some bot, Some bs => Some (byte_of_Z (16 * top + bot) :: bs)
            | _, _ => None
            end
        | _, _ => None
        end
  end.

(** The exceptions of the two front ends, each with its message:
    [keygen.parse_seed] raises [argparse.ArgumentTypeError],
    [gui.normalize_seed] raises [ValueError]. *)
Inductive seed_error : Type :=
| ArgumentTypeError (message : string)
| ValueError (message : string).

Inductive seed_result : Type :=
| SeedOk (seed : bytes)
| SeedErr (e : seed_error).

(** [ch not in ' ,:_']. *)
Definition is_separator (c : ascii) : bool :=
  existsb (Ascii.eqb c) (list_ascii_of_string " ,:_").

Definition strip_separators (text : string) : list ascii :=
  List.filter (fun ch => negb (is_separator ch)) (list_ascii_of_string text).

(** [keygen.parse_seed]. *)
Definition parse_seed (text : string) : seed_result :=
  let filtered := strip_separators text in
  if negb (Nat.eqb (length filtered) 10)
  then SeedErr (ArgumentTypeError "Seed must be provided as 10 hex digits")
  else
    match bytes_fromhex filtered with
    | Some seed => SeedOk seed
    | None => SeedErr (ArgumentTypeError "Seed is not valid hex")
    end.

(** [gui.normalize_seed]. *)
Definition normalize_seed (text : string) : seed_result :=
  let filtered := strip_separators text in
  if negb (Nat.eqb (length filtered) 10)
  then SeedErr (ValueError "Seed must be exactly 5 bytes (10 hex digits)")
  else
    match bytes_fromhex filtered with
    | Some seed => SeedOk seed
    | None => SeedErr (ValueError "Seed contains invalid hex digits")
    end.

Example parse_seed_colons :
  parse_seed "8C:E7:D1:FD:06" = SeedOk seed_8ce7d1fd06.
Proof. vm_compute. reflexivity. Qed.

Example parse_seed_spaces :
  normalize_seed "8c e7 d1 fd 06" = SeedOk seed_8ce7d1fd06.
Proof. vm_compute. reflexivity. Qed.

Example parse_seed_nine_digits :
  parse_seed "8ce7d1fd0"
  = SeedErr (ArgumentTypeError "Seed must be provided as 10 hex digits") /\
  normalize_seed "8ce7d1fd0"
  = SeedErr (ValueError "Seed must be exactly 5 bytes (10 hex digits)").
Proof. split; reflexivity. Qed.

Example parse_seed_not_hex :
  parse_seed "8ce7d1fd0g" = SeedErr (ArgumentTypeError "Seed is not valid hex") /\
  normalize_seed "8ce7d1fd0g"
  = SeedErr (ValueError "Seed contains invalid hex digits").
Proof. split; reflexivity. Qed.

Definition is_hex_digit (c : ascii) : Prop :=
  exists v, hex_digit_value c = Some v.

Lemma hex_digit_not_space (c : ascii) :
  is_hex_digit c -> is_space c = false.
Proof.
  intros [v Hv].
  destruct c as [[] [] [] [] [] [] [] []]; vm_compute in Hv |- *;
    first [reflexivity | discriminate].
Qed.

Lemma list_ind2 {A} (P : list A -> Prop) :
  P [] -> (forall a, P [a]) -> (forall a b l, P l -> P (a :: b :: l)) ->
  forall l, P l.
Proof.
  intros H0 H1 H2.
  assert (H : forall l, P l /\ forall a, P (a :: l)).
  { induction l as [|x l [IH0 IH1]]; [now auto|].
    split; [apply IH1 | intros; now apply H2]. }
  intros l. apply H.
Qed.

(** The bytes decoded never outnumber the pairs of characters. *)
Lemma bytes_fromhex_length (cs : list ascii) (bs : bytes) :
  bytes_fromhex cs = Some bs -> (2 * length bs <= length cs)%nat.
Proof.
  assert (H : forall cs,
             (forall bs, bytes_fromhex cs = Some bs ->
                         (2 * length bs <= length cs)%nat) /\
             (forall c bs, bytes_fromhex (c :: cs) = Some bs ->
                           (2 * length bs <= S (length cs))%nat)).
  { clear. induction cs as [|d cs [IH0 IH1]].
    - split.
      + intros bs [= <-]. cbn. lia.
      + intros c bs H. cbn [bytes_fromhex] in H.
        destruct (is_space c); [injection H as <-; cbn; lia|].
        destruct (hex_digit_value c); discriminate.
    - split; [apply IH1|].
      intros c bs H. cbn [bytes_fromhex] in H.
      destruct (is_space c).
      + apply IH1 in H. cbn [length]. lia.
      + destruct (hex_digit_value c); [|discriminate].
        destruct (hex_digit_value d); [|discriminate].
        destruct (bytes_fromhex cs) as [bs'|] eqn:E; [|discriminate].
        injection H as <-. pose proof (IH0 bs' eq_refl). cbn [length]. lia. }
  intros Hb. now apply H.
Qed.

(** An even number of hex digits decodes to half as many bytes. *)
Lemma bytes_fromhex_digits (cs : list ascii) :
  Forall is_hex_digit cs -> Nat.Even (length cs) ->
  exists bs, bytes_fromhex cs = Some bs /\ (2 * length bs = length cs)%nat.
Proof.
  induction cs as [|c|c d cs IH] using list_ind2; intros Hd He.
  - exists []. split; reflexivity.
  - destruct He as [k Hk]. cbn in Hk. lia.
  - apply Forall_cons in Hd as [Hc Hd]. apply Forall_cons in Hd as [Hdd Hd].
    destruct IH as (bs & Hbs & Hl); [assumption | |].
    { destruct He as [k Hk]. cbn [length] in Hk. exists (k - 1)%nat. lia. }
    cbn [bytes_fromhex]. rewrite (hex_digit_not_space c Hc).
    destruct Hc as [top ->]. destruct Hdd as [bot ->]. rewrite Hbs.
    eexists. split; [reflexivity|]. cbn [length]. lia.
Qed.

(** X23: the two front ends accept the same texts, with the same bytes,
    and refuse the same texts, [parse_seed] with an
    [argparse.ArgumentTypeError] where [normalize_seed] has a
    [ValueError].  Both refuse with their ten-digits message exactly when
    the characters other than [' ,:_'] are not ten, and with their hex
    message on the same texts; both return 5 bytes when the ten
    characters are hex digits, and neither ever returns more than 5
    bytes. *)
Theorem parse_seed_outcome (text : string) :
  (forall seed,
     normalize_seed text = SeedOk seed <-> parse_seed text = SeedOk seed) /\
  (parse_seed text
   = SeedErr (ArgumentTypeError "Seed must be provided as 10 hex digits")
   <-> length (strip_separators text) <> 10%nat) /\
  (normalize_seed text
   = SeedErr (ValueError "Seed must be exactly 5 bytes (10 hex digits)")
   <-> length (strip_separators text) <> 10%nat) /\
  (parse_seed text = SeedErr (ArgumentTypeError "Seed is not valid hex")
   <-> normalize_seed text
       = SeedErr (ValueError "Seed contains invalid hex digits")) /\
  (forall e, parse_seed text <> SeedErr (ValueError e) /\
             normalize_seed text <> SeedErr (ArgumentTypeError e)) /\
  (length (strip_separators text) = 10%nat ->
   Forall is_hex_digit (strip_separators text) ->
   exists seed, parse_seed text = SeedOk seed /\ length seed = 5%nat) /\
  (forall seed, parse_seed text = SeedOk seed -> (length seed <= 5)%nat).
Proof.
  unfold parse_seed, normalize_seed.
  destruct (Nat.eqb_spec (length (strip_separators text)) 10) as [Hl|Hl];
    cbn [negb].
  - destruct (bytes_fromhex (strip_separators text)) as [bs|] eqn:E.
    + split; [tauto|]. split; [split; [discriminate | contradiction]|].
      split; [split; [discriminate | contradiction]|].
      split; [split; discriminate|].
      split; [split; discriminate|].
      split; [intros _ Hd; exists bs; split; [reflexivity|] | intros seed H].
      * destruct (bytes_fromhex_digits (strip_separators text))
          as (bs' & E' & Hb); [| |rewrite E in E'; injection E' as <-; lia].
        -- assumption.
        -- exists 5%nat. lia.
      * injection H as <-. apply bytes_fromhex_length in E. lia.
    + split; [split; discriminate|].
      split; [split; [discriminate | contradiction]|].
      split; [split; [discriminate | contradiction]|].
      split; [split; reflexivity|].
      split; [split; discriminate|].
      split; [|discriminate].
      intros _ Hd.
      destruct (bytes_fromhex_digits _ Hd) as (bs & E' & _);
        [exists 5%nat; lia|]. congruence.
  - split; [split; discriminate|].
    split; [tauto|]. split; [tauto|].
    split; [split; discriminate|].
    split; [split; discriminate|].
    split; [intros; contradiction | discriminate].
Qed.

Lemma parse_seed_outcome_witness :
  exists seed, parse_seed "8C:E7:D1:FD:06" = SeedOk seed /\ length seed = 5%nat.
Proof.
  destruct (parse_seed_outcome "8C:E7:D1:FD:06") as (_ & _ & _ & _ & _ & H & _).
  apply H.
  - reflexivity.
  - vm_compute.
    repeat first [apply Forall_nil_2 | apply Forall_cons_2];
      eexists; reflexivity.
Defined.

Lemma list_ascii_of_string_app (s1 s2 : string) :
  list_ascii_of_string (s1 ++ s2)
  = list_ascii_of_string s1 ++ list_ascii_of_string s2.
Proof.
  induction s1 as [|c s1 IH]; [reflexivity|].
  change (c :: list_ascii_of_string (s1 ++ s2)
          = c :: (list_ascii_of_string s1 ++ list_ascii_of_string s2)).
  now rewrite IH.
Qed.

(** X24: a separator (space, comma, colon or underscore) inserted
    anywhere in the text does not change the result of either front
    end. *)
Theorem parse_seed_separator (before after : string) (c : ascii) :
  In c (list_ascii_of_string " ,:_") ->
  parse_seed (before ++ String c after) = parse_seed (before ++ after) /\
  normalize_seed (before ++ String c after) = normalize_seed (before ++ after).
Proof.
  intros Hc.
  assert (E : strip_separators (before ++ String c after)
              = strip_separators (before ++ after)).
  { unfold strip_separators. rewrite !list_ascii_of_string_app.
    rewrite !List.filter_app. f_equal. cbn [list_ascii_of_string List.filter].
    replace (is_separator c) with true; [reflexivity|].
    symmetry. unfold is_separator. apply existsb_exists.
    exists c. split; [assumption | apply Ascii.eqb_refl]. }
  unfold parse_seed, normalize_seed. now rewrite E.
Qed.

Lemma parse_seed_separator_witness :
  parse_seed ("8ce7" ++ String "_" "d1fd06") = parse_seed ("8ce7" ++ "d1fd06").
Proof.
  apply (parse_seed_separator "8ce7" "d1fd06" "_").
  cbn. tauto.
Defined.

Lemma hex_byte (b : byte) :
  hex_digit_value (hex_digit (Z_of_byte b / 16)) = Some (Z_of_byte b / 16) /\
  hex_digit_value (hex_digit (Z_of_byte b mod 16)) = Some (Z_of_byte b mod 16) /\
  is_separator (hex_digit (Z_of_byte b / 16)) = false /\
  is_separator (hex_digit (Z_of_byte b mod 16)) = false /\
  byte_of_Z (16 * (Z_of_byte b / 16) + Z_of_byte b mod 16) = b.
Proof. destruct b; vm_compute; repeat split. Qed.

Lemma hex_chars (bs : bytes) :
  list_ascii_of_string (hex bs)
  = flat_map (fun b => [hex_digit (Z_of_byte b / 16);
                        hex_digit (Z_of_byte b mod 16)]) bs.
Proof. unfold hex. apply list_ascii_of_string_of_list_ascii. Qed.

(** [bytes.fromhex(bs.hex()) == bs]. *)
Lemma bytes_fromhex_hex (bs : bytes) :
  bytes_fromhex (list_ascii_of_string (hex bs)) = Some bs.
Proof.
  rewrite hex_chars. induction bs as [|b bs IH]; [reflexivity|].
  cbn [flat_map app]. destruct (hex_byte b) as (H1 & H2 & _ & _ & H5).
  cbn [bytes_fromhex].
  rewrite (hex_digit_not_space _ (ex_intro _ _ H1)), H1, H2, IH, H5.
  reflexivity.
Qed.

Lemma strip_separators_hex (bs : bytes) :
  strip_separators (hex bs) = list_ascii_of_string (hex bs).
Proof.
  unfold strip_separators. rewrite hex_chars.
  induction bs as [|b bs IH]; [reflexivity|].
  cbn [flat_map app List.filter].
  destruct (hex_byte b) as (_ & _ & H3 & H4 & _). rewrite H3, H4.
  cbn [negb]. now rewrite IH.
Qed.

(** X25: the hex text of a 5-byte seed, as the command line prints it
    with [seed.hex()], is read back to that seed by both front ends. *)
Theorem parse_seed_hex (seed : bytes) :
  length seed = 5%nat ->
  parse_seed (hex seed) = SeedOk seed /\
  normalize_seed (hex seed) = SeedOk seed.
Proof.
  intros Hs. unfold parse_seed, normalize_seed.
  rewrite strip_separators_hex, bytes_fromhex_hex, hex_chars.
  do 6 (destruct seed as [|? seed]; try discriminate).
  split; reflexivity.
Qed.

Lemma parse_seed_hex_witness :
  parse_seed (hex seed_8ce7d1fd06) = SeedOk seed_8ce7d1fd06.
Proof.
  destruct (parse_seed_hex seed_8ce7d1fd06 eq_refl) as [H _]. exact H.
Defined.

(** A text of ten characters that [fromhex] shortens: two tabs count as
    characters for the length check and are skipped by [fromhex], which
    leaves four bytes. *)
Example parse_seed_with_tabs :
  parse_seed (String.append "01020304" (String (ascii_of_nat 9)
                                          (String (ascii_of_nat 9) "")))
  = SeedOk [x01; x02; x03; x04].
Proof. vm_compute. reflexivity. Qed.

(** X26: a seed text whose ten characters other than separators are all
    hex digits never makes the derivation fail for the seed length,
    whatever the blob and the id. *)
Theorem parse_seed_then_derive
    (text blob : string) (algo : Z) (seed : bytes) :
  Forall is_hex_digit (strip_separators text) ->
  parse_seed text = SeedOk seed ->
  length seed = 5%nat /\
  derive_key_from_blob blob seed algo <> Err InvalidSeedLength /\
  forall password_map,
    derive_key_from_algo algo seed password_map <> Err InvalidSeedLength.
Proof.
  intros Hd Hp.
  assert (Hs : length seed = 5%nat).
  { unfold parse_seed in Hp.
    destruct (Nat.eqb_spec (length (strip_separators text)) 10) as [Hl|Hl];
      cbn [negb] in Hp; [|discriminate].
    destruct (bytes_fromhex_digits _ Hd) as (bs & E & Hb).
    { exists 5%nat. lia. }
    rewrite E in Hp. injection Hp as <-. lia. }
  split; [assumption|].
  assert (Hblob : forall blob,
             derive_key_from_blob blob seed algo <> Err InvalidSeedLength).
  { clear blob. intros blob H.
    pose proof (derive_key_from_blob_outcome blob seed algo) as Ho.
    rewrite H in Ho. inversion Ho as [e He Hpe| |r Hr Ha Hlen| |]; subst.
    - unfold parse_error in Hpe. intuition discriminate.
    - contradiction. }
  split; [apply Hblob|].
  intros password_map. unfold derive_key_from_algo.
  destruct (_ !! algo) as [b|]; [|discriminate].
  destruct (String.eqb b ""); [discriminate | apply Hblob].
Qed.

Lemma parse_seed_then_derive_witness :
  parse_seed "8C:E7:D1:FD:06" = SeedOk seed_8ce7d1fd06 /\
  length seed_8ce7d1fd06 = 5%nat.
Proof.
  split; [vm_compute; reflexivity|].
  destruct (parse_seed_then_derive "8C:E7:D1:FD:06" blob_0x87 0x87
              seed_8ce7d1fd06) as (H & _ & _).
  - vm_compute.
    repeat first [apply Forall_nil_2 | apply Forall_cons_2];
      eexists; reflexivity.
  - vm_compute. reflexivity.
  - exact H.
Defined.
